(** * vrbo-scraper: the result store, the drivers' control flow and the pure
      helpers, embedded from the Python sources under [src/vrbo_scraper/].

    Conventions of the embedding.
    - A Python [str] is a Rocq [string]: the sequence of its UTF-8 bytes.
      [Optional[str]] is [option string]; Python truthiness of such a value
      is [truthy].
    - A Python [int] is a [Z].
    - A function that can raise returns a [result]; [Raise] carries the kind
      of the exception.
    - Objects mutated in place ([LocalDB], [CityCfg]) are passed and returned
      explicitly.
    - The browser is the environment: what it shows is a parameter of the
      driver functions, and the calls made to it are recorded as [Event]s. *)

From Stdlib Require Import ZArith QArith Lia Ascii String List Bool DecimalString.
From stdpp Require Import base list strings gmap sets.

Open Scope Z_scope.

(* ===================================================================== *)
(** * Python values                                                        *)
(* ===================================================================== *)

(** The exceptions that the modelled code can see. *)
Inductive PyExc : Type :=
  | ValueError
  | OverflowError
  | WebDriverException
  | EOFError.

Inductive result (A : Type) : Type :=
  | Return (a : A)
  | Raise (e : PyExc).
Arguments Return {A} a.
Arguments Raise {A} e.

Definition bind {A B : Type} (r : result A) (k : A -> result B) : result B :=
  match r with
  | Return a => k a
  | Raise e => Raise e
  end.

(** [bool(s)] for a string: the empty string is falsy. *)
Definition nonempty (s : string) : bool :=
  match s with
  | EmptyString => false
  | String _ _ => true
  end.

(** [bool(x)] for an [Optional[str]]: [None] and the empty string are
    falsy. *)
Definition truthy (x : option string) : bool :=
  match x with
  | None => false
  | Some s => nonempty s
  end.

(** [a or b] where [a] is an [Optional[str]] and [b] a [str]. *)
Definition or_else (a : option string) (b : string) : string :=
  match a with
  | Some s => if nonempty s then s else b
  | None => b
  end.

(* ===================================================================== *)
(** * storage.py: LocalDB                                                  *)
(* ===================================================================== *)

(** A row of [LocalDB._targets]: the dict built by [add_target]. *)
Record Target : Type := mkTarget {
  id : Z;
  run_id : Z;
  type : string;
  value : string;
  url : string;
  status : string
}.

(** An entry of [LocalDB._results]: the dict built by [save_rental]; the
    scraped payload [data] is spread into it and kept here as one field. *)
Record Rental (Data : Type) : Type := mkRental {
  rental_url : string;
  latitude : option Q;
  longitude : option Q;
  rental_data : Data
}.
Arguments mkRental {Data} _ _ _ _.
Arguments rental_url {Data} _.
Arguments latitude {Data} _.
Arguments longitude {Data} _.
Arguments rental_data {Data} _.

Record LocalDB (Data : Type) : Type := mkLocalDB {
  targets : list Target;
  next_target_id : Z;
  results : list (Rental Data)
}.
Arguments mkLocalDB {Data} _ _ _.
Arguments targets {Data} _.
Arguments next_target_id {Data} _.
Arguments results {Data} _.

Definition set_status (st : string) (row : Target) : Target :=
  mkTarget (id row) (run_id row) (type row) (value row) (url row) st.

Section Storage.
Context {Data : Type}.

(** [LocalDB.__init__] *)
Definition new_db : LocalDB Data := mkLocalDB [] 1 [].

(** [LocalDB.add_target] *)
Definition add_target (db : LocalDB Data) (rid : Z) (typ : string)
    (clean_url : string) (full_url : option string) : LocalDB Data :=
  let row := mkTarget (next_target_id db) rid typ clean_url
                      (or_else full_url clean_url) "queued" in
  mkLocalDB (targets db ++ [row]) (next_target_id db + 1) (results db).

(** [LocalDB.list_targets] *)
Definition list_targets (db : LocalDB Data) (rid : Z) (typ : string)
    (st : string) : list Target :=
  List.filter
    (fun r => (run_id r =? rid) && String.eqb (type r) typ
              && String.eqb (status r) st)
    (targets db).

(** The loop of [LocalDB.update_target_status]: the first row whose id is
    [target_id] gets the status, and the loop breaks. *)
Fixpoint update_rows (rows : list Target) (target_id : Z) (st : string)
    : list Target :=
  match rows with
  | [] => []
  | row :: rest =>
      if id row =? target_id then set_status st row :: rest
      else row :: update_rows rest target_id st
  end.

(** [LocalDB.update_target_status] *)
Definition update_target_status (db : LocalDB Data) (target_id : Z)
    (st : string) : LocalDB Data :=
  mkLocalDB (update_rows (targets db) target_id st) (next_target_id db)
            (results db).

(** [LocalDB.save_rental] *)
Definition save_rental (db : LocalDB Data) (rid : Z) (unique_url : string)
    (data : Data) (lat lon : option Q) : LocalDB Data :=
  mkLocalDB (targets db) (next_target_id db)
            (results db ++ [mkRental unique_url lat lon data]).
End Storage.

(* ===================================================================== *)
(** * utils.py: unique_list                                                *)
(* ===================================================================== *)

(** The loop of [unique_list], with the [seen] set and the [ordered] list
    threaded through. An item is kept when it is truthy and not yet seen. *)
Fixpoint unique_loop (items : list (option string)) (seen : gset string)
    (ordered : list string) : list string :=
  match items with
  | [] => ordered
  | item :: rest =>
      match item with
      | Some s =>
          if nonempty s && negb (bool_decide (s ∈ seen))
          then unique_loop rest ({[s]} ∪ seen) (ordered ++ [s])
          else unique_loop rest seen ordered
      | None => unique_loop rest seen ordered
      end
  end.

Definition unique_list (items : list (option string)) : list string :=
  unique_loop items ∅ [].

(* ===================================================================== *)
(** * String primitives used by the parsers                                *)
(* ===================================================================== *)

Definition code (c : ascii) : Z := Z.of_N (N_of_ascii c).

Definition between (lo hi : Z) (c : ascii) : bool :=
  (lo <=? code c) && (code c <=? hi).

Definition is_digit (c : ascii) : bool := between 48 57 c.
Definition is_upper (c : ascii) : bool := between 65 90 c.
Definition is_lower (c : ascii) : bool := between 97 122 c.
Definition is_alpha (c : ascii) : bool := is_upper c || is_lower c.
Definition is_ascii (c : ascii) : bool := code c <? 128.

(** [c in cs] for a one-character [c]. *)
Fixpoint char_in (cs : string) (c : ascii) : bool :=
  match cs with
  | EmptyString => false
  | String d cs' => Ascii.eqb c d || char_in cs' c
  end.

Fixpoint str_forallb (p : ascii -> bool) (s : string) : bool :=
  match s with
  | EmptyString => true
  | String c s' => p c && str_forallb p s'
  end.

Fixpoint str_existsb (p : ascii -> bool) (s : string) : bool :=
  match s with
  | EmptyString => false
  | String c s' => p c || str_existsb p s'
  end.

(** [d in s] *)
Definition has_char (d : ascii) (s : string) : bool :=
  str_existsb (Ascii.eqb d) s.

(** Keep the characters that satisfy [p]. *)
Fixpoint str_filter (p : ascii -> bool) (s : string) : string :=
  match s with
  | EmptyString => EmptyString
  | String c s' => if p c then String c (str_filter p s') else str_filter p s'
  end.

Fixpoint str_map (f : ascii -> ascii) (s : string) : string :=
  match s with
  | EmptyString => EmptyString
  | String c s' => String (f c) (str_map f s')
  end.

(** [s.lstrip(chars)] with [chars] given as a predicate. *)
Fixpoint lstrip (p : ascii -> bool) (s : string) : string :=
  match s with
  | EmptyString => EmptyString
  | String c s' => if p c then lstrip p s' else s
  end.

(** The longest prefix whose characters satisfy [p], and the rest. *)
Fixpoint span (p : ascii -> bool) (s : string) : string * string :=
  match s with
  | EmptyString => (EmptyString, EmptyString)
  | String c s' =>
      if p c then let '(a, b) := span p s' in (String c a, b)
      else (EmptyString, s)
  end.

(** [s.split(d, 1)]: the text before the first [d] and, when [d] occurs,
    the text after it. *)
Definition split_once (d : ascii) (s : string) : string * option string :=
  match span (fun c => negb (Ascii.eqb c d)) s with
  | (a, String _ b) => (a, Some b)
  | (a, EmptyString) => (a, None)
  end.

(** [s.split(d)] *)
Fixpoint split_all (d : ascii) (s : string) : list string :=
  match s with
  | EmptyString => [EmptyString]
  | String c s' =>
      if Ascii.eqb c d then EmptyString :: split_all d s'
      else match split_all d s' with
           | piece :: pieces => String c piece :: pieces
           | [] => [String c EmptyString]
           end
  end.

(** [sep.join(pieces)] *)
Fixpoint join (sep : string) (pieces : list string) : string :=
  match pieces with
  | [] => EmptyString
  | [p] => p
  | p :: rest => p +:+ sep +:+ join sep rest
  end.

(** [s.startswith(p)], returning what follows the prefix. *)
Fixpoint strip_prefix (p s : string) : option string :=
  match p, s with
  | EmptyString, _ => Some s
  | String a p', String b s' =>
      if Ascii.eqb a b then strip_prefix p' s' else None
  | String _ _, EmptyString => None
  end.

(** [needle in s] *)
Fixpoint contains (needle s : string) : bool :=
  match strip_prefix needle s with
  | Some _ => true
  | None => match s with
            | EmptyString => false
            | String _ s' => contains needle s'
            end
  end.

Definition lower_char (c : ascii) : ascii :=
  if is_upper c then ascii_of_N (N_of_ascii c + 32) else c.

(** [s.lower()] on the ASCII letters. *)
Definition lower (s : string) : string := str_map lower_char s.

(** [str(n)] for an [int]. *)
Definition str_of_int (n : Z) : string :=
  NilZero.string_of_int (Z.to_int n).

(* ===================================================================== *)
(** * urllib.parse (CPython 3.11), as used by utils.py                     *)
(* ===================================================================== *)

(** Two checks of [urlsplit] consult tables that are not part of this
    repository: [_check_bracketed_netloc] (the [ipaddress] parser) and the
    NFKC comparison of [_checknetloc] ([unicodedata]). They are taken as an
    interface; each function tells whether the check passes. *)
Class NetlocTables : Type := {
  check_bracketed_netloc : string -> bool;
  check_nfkc_netloc : string -> bool
}.

Record SplitResult : Type := mkSplit {
  split_scheme : string;
  split_netloc : string;
  split_path : string;
  split_query : string;
  split_fragment : string
}.

Record ParseResult : Type := mkParse {
  scheme : string;
  netloc : string;
  path : string;
  params : string;
  query : string;
  fragment : string
}.

Definition uses_netloc : list string :=
  [EmptyString; "ftp"; "http"; "gopher"; "nntp"; "telnet"; "imap"; "wais"; "file";
   "mms"; "https"; "shttp"; "snews"; "prospero"; "rtsp"; "rtspu"; "rsync";
   "svn"; "svn+ssh"; "sftp"; "nfs"; "git"; "git+ssh"; "ws"; "wss"].

Definition uses_params : list string :=
  [EmptyString; "ftp"; "hdl"; "prospero"; "http"; "imap"; "https"; "shttp"; "rtsp";
   "rtspu"; "sip"; "sips"; "mms"; "sftp"; "tel"].

Definition str_in (s : string) (l : list string) : bool :=
  existsb (String.eqb s) l.

(** [scheme_chars]: letters, digits and [+-.]. *)
Definition is_scheme_char (c : ascii) : bool :=
  is_alpha c || is_digit c || char_in "+-." c.

(** [_WHATWG_C0_CONTROL_OR_SPACE] *)
Definition is_c0_or_space (c : ascii) : bool := code c <=? 32.

(** [_UNSAFE_URL_BYTES_TO_REMOVE]: tab, carriage return, line feed. *)
Definition is_unsafe (c : ascii) : bool :=
  (code c =? 9) || (code c =? 13) || (code c =? 10).

(** The scheme test of [urlsplit]: with [i = url.find(':')], a scheme is
    recognised when [i > 0], [url[0]] is an ASCII letter and [url[:i]] is
    made of scheme characters. *)
Definition take_scheme (url : string) : string * string :=
  match split_once ":" url with
  | (String c0 pre, Some rest) =>
      if is_ascii c0 && is_alpha c0 && str_forallb is_scheme_char (String c0 pre)
      then (lower (String c0 pre), rest)
      else (EmptyString, url)
  | _ => (EmptyString, url)
  end.

(** [_splitnetloc(url, 2)] on the text after the leading [//]. *)
Definition splitnetloc (after_slashes : string) : string * string :=
  span (fun c => negb (char_in "/?#" c)) after_slashes.

(** [_checknetloc] *)
Definition checknetloc `{NetlocTables} (nl : string) : bool :=
  if negb (nonempty nl) || str_forallb is_ascii nl then true
  else check_nfkc_netloc nl.

Section UrlParse.
Context `{NetlocTables}.

(** The tail of [urlsplit], after scheme and netloc are known. *)
Definition split_rest (sch nl url : string) : result SplitResult :=
  let '(url, frag) := split_once "#" url in
  let '(url, qry) := split_once "?" url in
  if checknetloc nl
  then Return (mkSplit sch nl url (default EmptyString qry)
                       (default EmptyString frag))
  else Raise ValueError.

Definition urlsplit (url : string) : result SplitResult :=
  let url := lstrip is_c0_or_space url in
  let url := str_filter (fun c => negb (is_unsafe c)) url in
  let '(sch, url) := take_scheme url in
  match strip_prefix "//" url with
  | Some after =>
      let '(nl, url) := splitnetloc after in
      let open := has_char "[" nl in
      let close := has_char "]" nl in
      if (open && negb close) || (close && negb open) then Raise ValueError
      else if open && close && negb (check_bracketed_netloc nl)
      then Raise ValueError
      else split_rest sch nl url
  | None => split_rest sch EmptyString url
  end.

(** [_splitparams]: with [i = url.find(';', url.rfind('/'))], the path is
    [url[:i]] and the parameters are [url[i+1:]]. A character is kept
    while a slash follows it; after the last slash the path is cut at the
    first semicolon. *)
Fixpoint strip_params (url : string) : string :=
  match url with
  | EmptyString => EmptyString
  | String c rest =>
      if has_char "/" rest then String c (strip_params rest)
      else if Ascii.eqb c ";" then EmptyString
      else String c (strip_params rest)
  end.

Fixpoint params_of (url : string) : string :=
  match url with
  | EmptyString => EmptyString
  | String c rest =>
      if has_char "/" rest then params_of rest
      else if Ascii.eqb c ";" then rest
      else params_of rest
  end.

Definition splitparams (url : string) : string * string :=
  (strip_params url, params_of url).

Definition urlparse (url : string) : result ParseResult :=
  bind (urlsplit url) (fun s =>
    let '(p, prm) :=
      if str_in (split_scheme s) uses_params && has_char ";" (split_path s)
      then splitparams (split_path s)
      else (split_path s, EmptyString) in
    Return (mkParse (split_scheme s) (split_netloc s) p prm
                    (split_query s) (split_fragment s))).
End UrlParse.

(** [if url and url[:1] != '/': url = '/' + url] *)
Definition leading_slash (url : string) : string :=
  match url with
  | String c _ => if Ascii.eqb c "/" then url else "/" +:+ url
  | EmptyString => url
  end.

Definition urlunsplit (sch nl url qry frag : string) : string :=
  let url :=
    if nonempty nl
       || (nonempty sch && str_in sch uses_netloc
           && negb (bool_decide (is_Some (strip_prefix "//" url))))
    then "//" +:+ nl +:+ leading_slash url
    else url in
  let url := if nonempty sch then sch +:+ ":" +:+ url else url in
  let url := if nonempty qry then url +:+ "?" +:+ qry else url in
  if nonempty frag then url +:+ "#" +:+ frag else url.

Definition urlunparse (u : ParseResult) : string :=
  let url := if nonempty (params u) then path u +:+ ";" +:+ params u
             else path u in
  urlunsplit (scheme u) (netloc u) url (query u) (fragment u).

(* ===================================================================== *)
(** * config.py: the constants the modelled code reads                     *)
(* ===================================================================== *)

Definition VRBO_BASE : string := "https://www.vrbo.com".
Definition VRBO_TARGET_TYPE : string := "vrbo_detail".

(** The settings read from the process environment at import time. *)
Record Config : Type := mkConfig {
  VRBO_FORCE_TOMORROW : bool;
  VRBO_MAX_PAGES : Z;
  VRBO_MAX_DETAIL_TARGETS : Z
}.

(** The values taken when the environment sets nothing. *)
Definition default_config : Config := mkConfig true 1 0.

(* ===================================================================== *)
(** * utils.py: clean_url                                                  *)
(* ===================================================================== *)

Section CleanUrl.
Context `{NetlocTables}.

(** [clean_url]: any exception of the parse returns [href] itself. *)
Definition clean_url (href : string) : string :=
  match urlparse href, urlparse VRBO_BASE with
  | Return u, Return base =>
      let sch := if nonempty (scheme u) then scheme u else scheme base in
      let nl := if nonempty (netloc u) then netloc u else netloc base in
      urlunparse (mkParse sch nl (path u) EmptyString EmptyString EmptyString)
  | _, _ => href
  end.
End CleanUrl.

(* ===================================================================== *)
(** * datetime.date, as used by utils.py                                   *)
(* ===================================================================== *)

(** A [date] is its proleptic Gregorian ordinal ([date.toordinal()]):
    0001-01-01 is day 1 and [date.max], 9999-12-31, is day 3652059. *)
Definition MAXORDINAL : Z := 3652059.
Definition MAX_DELTA_DAYS : Z := 999999999.

(** [d + timedelta(days=n)]: [OverflowError] when the day count is not a
    valid [timedelta] or the sum leaves the range of [date]. *)
Definition date_add_days (d n : Z) : result Z :=
  if (Z.abs n <=? MAX_DELTA_DAYS) && (1 <=? d + n) && (d + n <=? MAXORDINAL)
  then Return (d + n)
  else Raise OverflowError.

Definition DAYS_BEFORE_MONTH : list Z :=
  [-1; 0; 31; 59; 90; 120; 151; 181; 212; 243; 273; 304; 334].
Definition DAYS_IN_MONTH : list Z :=
  [-1; 31; 28; 31; 30; 31; 30; 31; 31; 30; 31; 30; 31].

Definition Z_of_bool (b : bool) : Z := if b then 1 else 0.

(** [_ord2ymd] *)
Definition ord2ymd (ordinal : Z) : Z * Z * Z :=
  let n := ordinal - 1 in
  let n400 := n / 146097 in
  let n := n mod 146097 in
  let year := n400 * 400 + 1 in
  let n100 := n / 36524 in
  let n := n mod 36524 in
  let n4 := n / 1461 in
  let n := n mod 1461 in
  let n1 := n / 365 in
  let n := n mod 365 in
  let year := year + n100 * 100 + n4 * 4 + n1 in
  if (n1 =? 4) || (n100 =? 4) then (year - 1, 12, 31)
  else
    let leapyear := (n1 =? 3) && (negb (n4 =? 24) || (n100 =? 3)) in
    let month := Z.shiftr (n + 50) 5 in
    let preceding := nth (Z.to_nat month) DAYS_BEFORE_MONTH 0
                     + Z_of_bool ((2 <? month) && leapyear) in
    if n <? preceding then
      let month := month - 1 in
      let preceding := preceding
                       - (nth (Z.to_nat month) DAYS_IN_MONTH 0
                          + Z_of_bool ((month =? 2) && leapyear)) in
      (year, month, n - preceding + 1)
    else (year, month, n - preceding + 1).

(** [s.zfill(width)] *)
Fixpoint zfill (fuel : nat) (width : nat) (s : string) : string :=
  match fuel with
  | O => s
  | S fuel' =>
      if (String.length s <? width)%nat then zfill fuel' width ("0" +:+ s)
      else s
  end.

(** The formats [%04d] and [%02d] for a non-negative [n]. *)
Definition pad_int (width : nat) (n : Z) : string :=
  zfill width width (str_of_int n).

(** [date.isoformat()] *)
Definition isoformat (ordinal : Z) : string :=
  let '(y, m, d) := ord2ymd ordinal in
  pad_int 4 y +:+ "-" +:+ pad_int 2 m +:+ "-" +:+ pad_int 2 d.

(* ===================================================================== *)
(** * models.py: CityCfg; utils.py: ensure_dates                           *)
(* ===================================================================== *)

Record CityCfg : Type := mkCityCfg {
  name : string;
  region_name : option string;
  region_id : option string;
  search_url : option string;
  checkin : option string;
  checkout : option string;
  adults : Z;
  children : Z;
  rooms : Z;
  currency : string;
  locale : string;
  lang : string;
  nights : Z;
  sort : string;
  flexibility : string
}.

(** The two attribute assignments of [_force_tomorrow_dates]. *)
Definition set_dates (c : CityCfg) (ci co : string) : CityCfg :=
  mkCityCfg (name c) (region_name c) (region_id c) (search_url c)
            (Some ci) (Some co) (adults c) (children c) (rooms c)
            (currency c) (locale c) (lang c) (nights c) (sort c)
            (flexibility c).

(** [_force_tomorrow_dates]; [today] is [datetime.now().date()]. *)
Definition _force_tomorrow_dates (today : Z) (c : CityCfg) : result CityCfg :=
  bind (date_add_days today 1) (fun ci =>
  bind (date_add_days ci (Z.max 1 (nights c))) (fun co =>
  Return (set_dates c (isoformat ci) (isoformat co)))).

(** [ensure_dates] *)
Definition ensure_dates (cfg : Config) (today : Z) (c : CityCfg)
    : result CityCfg :=
  if VRBO_FORCE_TOMORROW cfg then _force_tomorrow_dates today c
  else if negb (truthy (checkin c)) || negb (truthy (checkout c))
  then _force_tomorrow_dates today c
  else Return c.

(* ===================================================================== *)
(** * urllib.parse: quoting and query strings                              *)
(* ===================================================================== *)

(** [_ALWAYS_SAFE] *)
Definition is_always_safe (c : ascii) : bool :=
  is_alpha c || is_digit c || char_in "_.-~" c.

Definition hex_digit (n : Z) : ascii :=
  ascii_of_N (Z.to_N (if n <? 10 then 48 + n else 55 + n)).

(** The value of a hexadecimal digit, upper or lower case. *)
Definition hex_value (c : ascii) : option Z :=
  if is_digit c then Some (code c - 48)
  else if between 65 70 c then Some (code c - 55)
  else if between 97 102 c then Some (code c - 87)
  else None.

(** [quote_plus(s)]: safe bytes stay, a space becomes [+], any other byte
    becomes [%XX]. *)
Fixpoint quote_plus (s : string) : string :=
  match s with
  | EmptyString => EmptyString
  | String c s' =>
      if is_always_safe c then String c (quote_plus s')
      else if Ascii.eqb c " " then String "+" (quote_plus s')
      else String "%" (String (hex_digit (code c / 16))
                        (String (hex_digit (code c mod 16)) (quote_plus s')))
  end.

(** The byte written by the two hexadecimal digits [h] and [l]. *)
Definition hex_pair (h l : ascii) : option ascii :=
  match hex_value h, hex_value l with
  | Some a, Some b => Some (ascii_of_N (Z.to_N (16 * a + b)))
  | _, _ => None
  end.

(** [unquote(s)]: every [%XX] with two hexadecimal digits is replaced by
    the byte; any other [%] stays. The bytes are not re-decoded: the
    replacement of malformed UTF-8 by U+FFFD is not modelled. *)
Fixpoint unquote (s : string) : string :=
  match s with
  | EmptyString => EmptyString
  | String c s' =>
      match s' with
      | String h (String l s'') =>
          match (if Ascii.eqb c "%" then hex_pair h l else None) with
          | Some b => String b (unquote s'')
          | None => String c (unquote s')
          end
      | _ => String c (unquote s')
      end
  end.

Definition plus_to_space (c : ascii) : ascii :=
  if Ascii.eqb c "+" then " "%char else c.

(** [unquote_plus(s)] *)
Definition unquote_plus (s : string) : string :=
  unquote (str_map plus_to_space s).

(** A [dict] with string keys and values, in insertion order. *)
Definition Dict : Type := list (string * string).

(** [d[k] = v] *)
Fixpoint dict_set (k v : string) (d : Dict) : Dict :=
  match d with
  | [] => [(k, v)]
  | (k', v') :: rest =>
      if String.eqb k' k then (k, v) :: rest
      else (k', v') :: dict_set k v rest
  end.

(** [d.pop(k, None)] *)
Fixpoint dict_pop (k : string) (d : Dict) : Dict :=
  match d with
  | [] => []
  | (k', v') :: rest =>
      if String.eqb k' k then rest else (k', v') :: dict_pop k rest
  end.

(** [d.get(k)] *)
Fixpoint dict_get (k : string) (d : Dict) : option string :=
  match d with
  | [] => None
  | (k', v') :: rest => if String.eqb k' k then Some v' else dict_get k rest
  end.

(** [dict(pairs)] *)
Definition dict_of (pairs : list (string * string)) : Dict :=
  fold_left (fun d kv => dict_set (fst kv) (snd kv) d) pairs [].

(** [parse_qsl(qs, keep_blank_values=True)] *)
Definition parse_qsl (qs : string) : list (string * string) :=
  if nonempty qs then
    flat_map
      (fun name_value =>
         if nonempty name_value then
           let '(n, v) := split_once "=" name_value in
           [(unquote_plus n, unquote_plus (default EmptyString v))]
         else [])
      (split_all "&" qs)
  else [].

(** The text [k=v] that [urlencode] writes for an item. *)
Definition encode_pair (kv : string * string) : string :=
  quote_plus kv.1 +:+ "=" +:+ quote_plus kv.2.

(** [urlencode(query, doseq=True)] for a dict of strings. *)
Definition urlencode (d : Dict) : string :=
  join "&" (map encode_pair d).

(* ===================================================================== *)
(** * utils.py: build_entry_url                                            *)
(* ===================================================================== *)

(** The closure [set_param] of [build_entry_url]. *)
Definition set_param (keys : list string) (v : option string) (q : Dict)
    : Dict :=
  fold_left
    (fun q key =>
       match v with
       | Some s => if nonempty s then dict_set key s q else dict_pop key q
       | None => dict_pop key q
       end)
    keys q.

(** [if v: q[k] = v] for an [Optional[str]]. *)
Definition set_if (k : string) (v : option string) (q : Dict) : Dict :=
  match v with
  | Some s => if nonempty s then dict_set k s q else q
  | None => q
  end.

(** The first branch of [build_entry_url]: the edits made to the query
    dict of the explicit search URL. *)
Definition overlay_query (city : CityCfg) (q : Dict) : Dict :=
  let q := set_param ["checkIn"; "startDate"; "d1"] (checkin city) q in
  let q := set_param ["checkOut"; "endDate"; "d2"] (checkout city) q in
  let q := dict_set "adults" (str_of_int (Z.max 1 (adults city))) q in
  let q := if children city =? 0 then dict_pop "children" q
           else dict_set "children" (str_of_int (children city)) q in
  let q := set_if "regionId" (region_id city) q in
  set_if "sort" (Some (sort city)) q.

(** [dest = city.region_name or city.name or "Colombia"] *)
Definition destination_of (city : CityCfg) : string :=
  or_else (region_name city) (or_else (Some (name city)) "Colombia").

(** The second branch: the query dict synthesized from the config. *)
Definition fresh_query (city : CityCfg) : Dict :=
  let dest := destination_of city in
  let q := dict_set "destination" dest [] in
  let q := set_if "regionId" (region_id city) q in
  let q := set_if "flexibility" (Some (flexibility city)) q in
  let q := set_if "startDate" (checkin city) (set_if "d1" (checkin city) q) in
  let q := set_if "endDate" (checkout city) (set_if "d2" (checkout city) q) in
  let q := dict_set "adults" (str_of_int (Z.max 1 (adults city))) q in
  let q := if children city =? 0 then q
           else dict_set "children" (str_of_int (children city)) q in
  set_if "sort" (Some (sort city)) q.

Section BuildEntryUrl.
Context `{NetlocTables}.

(** [build_entry_url]; the parse of an explicit search URL can raise. *)
Definition build_entry_url (city : CityCfg) : result string :=
  if truthy (search_url city) then
    bind (urlparse (default EmptyString (search_url city))) (fun parsed =>
      let q := overlay_query city (dict_of (parse_qsl (query parsed))) in
      Return (urlunparse (mkParse (scheme parsed) (netloc parsed)
                                  (path parsed) (params parsed)
                                  (urlencode q) (fragment parsed))))
  else
    Return ((VRBO_BASE +:+ "/search") +:+ "?" +:+ urlencode (fresh_query city)).
End BuildEntryUrl.

(* ===================================================================== *)
(** * utils.py: parse_price_amount                                         *)
(* ===================================================================== *)

(** The character class [[0-9.,]]. *)
Definition is_price_char (c : ascii) : bool := is_digit c || char_in ".," c.

(** [re.search] for one digit followed by any run of digits, dots and
    commas: the match starts at the first digit of the text and runs as
    far as the class allows. *)
Fixpoint search_price (text : string) : option string :=
  match text with
  | EmptyString => None
  | String c rest =>
      if is_digit c then Some (String c (fst (span is_price_char rest)))
      else search_price rest
  end.

(** The number written by a string of decimal digits. *)
Fixpoint digits_value (acc : Z) (s : string) : Z :=
  match s with
  | EmptyString => acc
  | String c s' => digits_value (10 * acc + (code c - 48)) s'
  end.

(** [float(value)] for the strings that reach it here: digits and dots,
    starting with a digit. It is [ValueError] ([None]) when a second dot
    occurs. The result is the rational number that the literal denotes;
    its rounding to a binary float is not modelled. *)
Definition float_of_str (v : string) : option Q :=
  match split_once "." v with
  | (ip, None) =>
      if nonempty ip && str_forallb is_digit ip
      then Some (Qred (digits_value 0 ip # 1)) else None
  | (ip, Some fp) =>
      if nonempty ip && str_forallb is_digit ip && str_forallb is_digit fp
      then Some (Qred (digits_value 0 (ip +:+ fp)
                       # Z.to_pos (10 ^ Z.of_nat (String.length fp))))
      else None
  end.

(** [raw.replace(".", "")] *)
Definition remove_dots (raw : string) : string :=
  str_filter (fun c => negb (Ascii.eqb c ".")) raw.

(** [v.replace(",", ".")] *)
Definition commas_to_dots (v : string) : string :=
  str_map (fun c => if Ascii.eqb c "," then "."%char else c) v.

(** [parse_price_amount] *)
Definition parse_price_amount (text : option string) : option Q :=
  if truthy text then
    match search_price (default EmptyString text) with
    | None => None
    | Some raw => float_of_str (commas_to_dots (remove_dots raw))
    end
  else None.

(* ===================================================================== *)
(** * The browser as seen by the drivers                                   *)
(* ===================================================================== *)

(** The calls that the drivers make to the browser and to the operator. *)
Inductive Event : Type :=
  | EvGet (target : string)     (* driver.get(target) *)
  | EvScrollPage                (* scroll_page(driver) *)
  | EvExtractCards              (* extract_cards(driver) *)
  | EvIsBlocked (answer : bool) (* is_blocked(driver) *)
  | EvInput                     (* input(): wait for the operator *)
  | EvClickNext (answer : bool) (* click_next(driver) *).

(** [is_blocked], on [driver.page_source]. The two markers are ASCII, and
    no character outside ASCII lowers into a letter of a marker followed by
    the marker's next letter, so lowering the ASCII letters is enough. *)
Definition is_blocked (page_source : string) : bool :=
  let html := lower page_source in
  contains "show us your human side" html || contains "access denied" html.

(* ===================================================================== *)
(** * search.py: extract_cards and run_city                                *)
(* ===================================================================== *)

(** What [extract_cards] reads from one card element: the [href] of the
    first link that a link selector finds ([None] when no selector matches
    or the attribute is absent), the title and the price texts. *)
Record CardElem : Type := mkCardElem {
  elem_href : option string;
  elem_title : option string;
  elem_price : option string
}.

(** The dict that [extract_cards] builds for a card. *)
Record Card : Type := mkCard {
  card_url : string;
  card_full_url : string;
  card_title : option string;
  card_price : option string
}.

(** What the browser shows during one turn of the pagination loop: the
    card elements of the first card selector that matches, the page source,
    and whether [click_next] finds a control and clicks it. The calls to
    the browser are taken to return; a browser that dies is not modelled. *)
Record PageView : Type := mkPageView {
  view_cards : list CardElem;
  view_source : string;
  view_next : bool
}.

Inductive Ctl : Type := Break | Continue.

Section Search.
Context `{NetlocTables} {Data : Type}.

(** The card loop of [extract_cards]. *)
Definition extract_cards (elems : list CardElem) : list Card :=
  flat_map
    (fun e =>
       match elem_href e with
       | None => []
       | Some full_href =>
           let href := clean_url full_href in
           if nonempty href
           then [mkCard href full_href (elem_title e) (elem_price e)]
           else []
       end)
    elems.

(** The state of the loop of [run_city]. *)
Record Loop : Type := mkLoop {
  seen : gset string;
  page_num : Z;
  db : LocalDB Data
}.

(** One turn of [for card in cards]. *)
Definition visit_card (rid : Z) (acc : gset string * LocalDB Data * Z)
    (card : Card) : gset string * LocalDB Data * Z :=
  let '(sn, d, new_count) := acc in
  let clean := card_url card in
  if nonempty clean && negb (bool_decide (clean ∈ sn))
  then ({[clean]} ∪ sn,
        add_target d rid VRBO_TARGET_TYPE clean (Some (card_full_url card)),
        new_count + 1)
  else acc.

Definition visit_cards (rid : Z) (cards : list Card) (sn : gset string)
    (d : LocalDB Data) : gset string * LocalDB Data * Z :=
  fold_left (visit_card rid) cards (sn, d, 0).

(** [new_count] after the card loop. *)
Definition new_count (rid : Z) (st : Loop) (v : PageView) : Z :=
  (visit_cards rid (extract_cards (view_cards v)) (seen st) (db st)).2.

(** [VRBO_MAX_PAGES > 0 and page_num >= VRBO_MAX_PAGES] *)
Definition max_pages_reached (cfg : Config) (st : Loop) : bool :=
  (0 <? VRBO_MAX_PAGES cfg) && (VRBO_MAX_PAGES cfg <=? page_num st).

(** One turn of [while True] in [run_city]: whether the loop goes on, the
    new state, and the calls made. *)
Definition page_step (cfg : Config) (rid : Z) (st : Loop) (v : PageView)
    : Ctl * Loop * list Event :=
  let cards := extract_cards (view_cards v) in
  match cards with
  | [] =>
      if is_blocked (view_source v)
      then (Continue, st,
            [EvScrollPage; EvExtractCards; EvIsBlocked true; EvInput])
      else (Break, st, [EvScrollPage; EvExtractCards; EvIsBlocked false])
  | _ :: _ =>
      let '(sn, d, n) := visit_cards rid cards (seen st) (db st) in
      let st' := mkLoop sn (page_num st) d in
      if n =? 0 then (Break, st', [EvScrollPage; EvExtractCards])
      else if max_pages_reached cfg st
      then (Break, st', [EvScrollPage; EvExtractCards])
      else if negb (view_next v)
      then (Break, st', [EvScrollPage; EvExtractCards; EvClickNext false])
      else (Continue, mkLoop sn (page_num st + 1) d,
            [EvScrollPage; EvExtractCards; EvClickNext true])
  end.

(** The loop, run against the pages that the browser shows in turn. The
    boolean tells whether the loop has exited; it is [false] when the
    pages run out with the loop still going. *)
Fixpoint pagination (cfg : Config) (rid : Z) (views : list PageView)
    (st : Loop) (tr : list Event) : bool * Loop * list Event :=
  match views with
  | [] => (false, st, tr)
  | v :: rest =>
      let '(ctl, st', ev) := page_step cfg rid st v in
      match ctl with
      | Break => (true, st', tr ++ ev)
      | Continue => pagination cfg rid rest st' (tr ++ ev)
      end
  end.

(** [run_city]. [entry_source] is the page source after the first
    navigation. An exception of [build_entry_url] leaves before any call
    to the browser or to the store. *)
Definition run_city (cfg : Config) (entry_source : string)
    (views : list PageView) (d : LocalDB Data) (rid : Z) (city : CityCfg)
    : result (bool * Loop * list Event) :=
  bind (build_entry_url city) (fun target =>
    let blocked := is_blocked entry_source in
    let tr := [EvGet target; EvIsBlocked blocked]
              ++ (if blocked then [EvInput] else []) in
    Return (pagination cfg rid views (mkLoop ∅ 1 d) tr)).

(** What the browser shows to one call of [run_city]. *)
Record CityVisit : Type := mkCityVisit {
  visit_city : CityCfg;
  visit_entry_source : string;
  visit_views : list PageView
}.

(** [for city in cities: run_city(driver, db, run_id, city)] of [main]:
    every city of the run shares the store and the run id. The result is
    the store when every call returns. *)
Fixpoint search_phase (cfg : Config) (rid : Z) (visits : list CityVisit)
    (d : LocalDB Data) : result (option (LocalDB Data)) :=
  match visits with
  | [] => Return (Some d)
  | cv :: rest =>
      bind (run_city cfg (visit_entry_source cv) (visit_views cv) d rid
                     (visit_city cv))
        (fun r =>
           match r with
           | (true, st, _) => search_phase cfg rid rest (db st)
           | (false, _, _) => Return None
           end)
  end.
End Search.
Arguments Loop Data : clear implicits.
Arguments mkLoop {Data} _ _ _.

(* ===================================================================== *)
(** * detail.py: scrape_detail_page and process_detail_targets             *)
(* ===================================================================== *)

(** What the part of [scrape_detail_page] after the heading wait does on a
    page: it raises, it finds no title block, or it builds the result dict
    [data] and reads the coordinates. *)
Inductive Extraction (Data : Type) : Type :=
  | ExtractRaises (e : PyExc)
  | NoTitleBlock
  | Extracted (data : Data) (lat lon : option Q).
Arguments ExtractRaises {Data} e.
Arguments NoTitleBlock {Data}.
Arguments Extracted {Data} data lat lon.

(** What the browser does for one detail navigation. Every call that
    [scrape_detail_page] makes outside a [try] can raise: the navigation,
    the reads of [driver.current_url] and [driver.title] for the log of the
    handler of the heading wait, the read of [driver.page_source] in
    [is_blocked], and [input()]. *)
Record DetailPage (Data : Type) : Type := mkDetailPage {
  get_raises : option PyExc;    (* [driver.get(full_url)] raises *)
  heading_appears : bool;       (* a heading selector matches within the wait *)
  log_raises : option PyExc;    (* [driver.current_url] or [driver.title] raises *)
  source_raises : option PyExc; (* [driver.page_source] raises in [is_blocked] *)
  page_source : string;
  input_raises : option PyExc;  (* [input()] raises *)
  extraction : Extraction Data
}.
Arguments mkDetailPage {Data} _ _ _ _ _ _ _.
Arguments get_raises {Data} _.
Arguments heading_appears {Data} _.
Arguments log_raises {Data} _.
Arguments source_raises {Data} _.
Arguments page_source {Data} _.
Arguments input_raises {Data} _.
Arguments extraction {Data} _.

Definition Coordinates : Type := option Q * option Q.

Section Detail.
Context {Data : Type}.

(** The check [if is_blocked(driver): input()]: the exception that leaves
    it, if any, and its calls. A call of [is_blocked] that raises has no
    answer and is not recorded. *)
Definition pause_if_blocked (page : DetailPage Data)
    : option PyExc * list Event :=
  match source_raises page with
  | Some e => (Some e, [])
  | None =>
      if is_blocked (page_source page)
      then (input_raises page, [EvIsBlocked true; EvInput])
      else (None, [EvIsBlocked false])
  end.

(** [scrape_detail_page]: the pair it returns, or the exception, and the
    calls made. *)
Definition scrape_detail_page (page : DetailPage Data)
    (clean_url full_url : string)
    : result (option Data * option Coordinates) * list Event :=
  match get_raises page with
  | Some e => (Raise e, [EvGet full_url])
  | None =>
      if negb (heading_appears page)
      then
        match log_raises page with
        | Some e => (Raise e, [EvGet full_url])
        | None =>
            let '(exc, calls) := pause_if_blocked page in
            match exc with
            | Some e => (Raise e, EvGet full_url :: calls)
            | None => (Return (None, None), EvGet full_url :: calls)
            end
        end
      else
        let '(exc, calls) := pause_if_blocked page in
        let ev := EvGet full_url :: calls in
        match exc with
        | Some e => (Raise e, ev)
        | None =>
            match extraction page with
            | ExtractRaises e => (Raise e, ev)
            | NoTitleBlock => (Return (None, None), ev)
            | Extracted data lat lon =>
                (Return (Some data, Some (lat, lon)), ev)
            end
        end
  end.

(** The body of [for row in targets] in [process_detail_targets]. *)
Definition process_row (page : DetailPage Data) (rid : Z)
    (d : LocalDB Data) (row : Target) : LocalDB Data * list Event :=
  let clean_url := value row in
  let full_url := or_else (Some (url row)) clean_url in
  match scrape_detail_page page clean_url full_url with
  | (Return (Some data, coordinates), ev) =>
      let lat := match coordinates with Some c => c.1 | None => None end in
      let lon := match coordinates with Some c => c.2 | None => None end in
      let d := save_rental d rid clean_url data lat lon in
      (update_target_status d (id row) "done", ev)
  | (Return (None, _), ev) => (update_target_status d (id row) "empty", ev)
  | (Raise _, ev) => (update_target_status d (id row) "error", ev)
  end.

(** The loop over the selected rows. [browser n u] is the page shown for
    the navigation number [n] of the phase, which goes to [u]. *)
Fixpoint detail_loop (browser : nat -> string -> DetailPage Data) (rid : Z)
    (rows : list Target) (n : nat) (d : LocalDB Data) (tr : list Event)
    : LocalDB Data * list Event :=
  match rows with
  | [] => (d, tr)
  | row :: rest =>
      let full_url := or_else (Some (url row)) (value row) in
      let '(d', ev) := process_row (browser n full_url) rid d row in
      detail_loop browser rid rest (S n) d' (tr ++ ev)
  end.

(** The rows that [process_detail_targets] walks through. *)
Definition selected_targets (cfg : Config) (d : LocalDB Data) (rid : Z)
    : list Target :=
  let rows := list_targets d rid VRBO_TARGET_TYPE "queued" in
  if 0 <? VRBO_MAX_DETAIL_TARGETS cfg
  then take (Z.to_nat (VRBO_MAX_DETAIL_TARGETS cfg)) rows
  else rows.

(** [process_detail_targets] *)
Definition process_detail_targets (cfg : Config)
    (browser : nat -> string -> DetailPage Data) (d : LocalDB Data)
    (rid : Z) : LocalDB Data * list Event :=
  detail_loop browser rid (selected_targets cfg d rid) 0 d [].
End Detail.

(* ===================================================================== *)
(** * Vocabulary of the statements                                         *)
(* ===================================================================== *)

(** [post] is empty or starts with a character outside [p]. *)
Definition stops (p : ascii -> bool) (post : string) : Prop :=
  match post with
  | EmptyString => True
  | String c _ => p c = false
  end.

Definition not_char (d : ascii) (c : ascii) : bool := negb (Ascii.eqb c d).
Definition is_safe (c : ascii) : bool := negb (is_unsafe c).
Definition not_delim (c : ascii) : bool := negb (char_in "/?#" c).

(** A scheme as [urlsplit] returns it when it recognises one. *)
Definition scheme_ok (sch : string) : bool :=
  match sch with
  | String c0 _ =>
      is_ascii c0 && is_alpha c0 && str_forallb is_scheme_char sch
      && String.eqb (lower sch) sch
  | EmptyString => false
  end.

(** The bracket checks of [urlsplit] pass. *)
Definition brackets_ok `{NetlocTables} (nl : string) : bool :=
  let open := has_char "[" nl in
  let close := has_char "]" nl in
  negb ((open && negb close) || (close && negb open))
  && negb (open && close && negb (check_bracketed_netloc nl)).

(** A netloc that [urlsplit] accepts and cuts out again unchanged. *)
Definition netloc_ok `{NetlocTables} (nl : string) : bool :=
  str_forallb not_delim nl && str_forallb is_safe nl && brackets_ok nl
  && checknetloc nl.

(** A path without query or fragment mark and without removable bytes. *)
Definition path_ok (p : string) : bool :=
  str_forallb (not_char "#") p && str_forallb (not_char "?") p
  && str_forallb is_safe p.

(** The text scheme://netloc/path. *)
Definition canonical (sch nl p : string) : string :=
  sch +:+ ":" +:+ "//" +:+ nl +:+ p.

(** The scheme and the netloc that [clean_url] writes: those of the href,
    or those of [VRBO_BASE] when the href has none. *)
Definition scheme_or_base (u : ParseResult) : string :=
  if nonempty (scheme u) then scheme u else "https".
Definition netloc_or_base (u : ParseResult) : string :=
  if nonempty (netloc u) then netloc u else "www.vrbo.com".

(** The keys that the first branch of [build_entry_url] writes or pops. *)
Definition overlay_keys : list string :=
  ["checkIn"; "startDate"; "d1"; "checkOut"; "endDate"; "d2"; "adults";
   "children"; "regionId"; "sort"].

(** The value of the query parameter [k] of a URL: the query component is
    parsed as [build_entry_url] parses it. *)
Definition url_query_param `{NetlocTables} (k : string) (target : string)
    : option string :=
  match urlparse target with
  | Return u => dict_get k (dict_of (parse_qsl (query u)))
  | Raise _ => None
  end.

(** The invariant of a store built by [LocalDB.__init__] and its methods:
    the target ids are pairwise different and below the id counter. *)
Definition ids_fresh {Data : Type} (d : LocalDB Data) : Prop :=
  NoDup (map id (targets d)) /\
  Forall (fun t => id t < next_target_id d) (targets d).

Section Vocabulary.
Context {Data : Type}.

(** The rows that one call of [run_city] has appended to the store [d0]
    when it is in state [st]: they carry the run id, the target type and
    the status queued, their values are pairwise different, and [seen]
    is the set of their values. *)
Definition appended (rid : Z) (d0 : LocalDB Data) (sn0 : gset string)
    (d : LocalDB Data) (sn : gset string) (added : list Target) : Prop :=
  targets d = targets d0 ++ added /\
  results d = results d0 /\
  next_target_id d = next_target_id d0 + Z.of_nat (length added) /\
  NoDup (map value added) /\
  sn = list_to_set (map value added) ∪ sn0 /\
  Forall (fun t => (value t ∉ sn0) /\ run_id t = rid /\
                   type t = VRBO_TARGET_TYPE /\ status t = "queued") added.

(** [row["url"] or clean_url] in [process_detail_targets]. *)
Definition row_full_url (row : Target) : string :=
  or_else (Some (url row)) (value row).

(** The result of [scrape_detail_page] for a row. *)
Definition scrape_row (page : DetailPage Data) (row : Target)
    : result (option Data * option Coordinates) :=
  (scrape_detail_page page (value row) (row_full_url row)).1.

(** The status that [process_detail_targets] gives to a row, by the
    result of [scrape_detail_page]. *)
Definition outcome_status (page : DetailPage Data) (row : Target) : string :=
  match scrape_row page row with
  | Return (Some _, _) => "done"
  | Return (None, _) => "empty"
  | Raise _ => "error"
  end.

(** The records that it appends for a row: one when data came back. *)
Definition outcome_rentals (page : DetailPage Data) (row : Target)
    : list (Rental Data) :=
  match scrape_row page row with
  | Return (Some data, Some c) => [mkRental (value row) c.1 c.2 data]
  | Return (Some data, None) => [mkRental (value row) None None data]
  | _ => []
  end.

(** The calls made while a row is processed. *)
Definition outcome_events (page : DetailPage Data) (row : Target)
    : list Event :=
  (scrape_detail_page page (value row) (row_full_url row)).2.

(** A target after the statuses [sts], given by target id, are set. *)
Fixpoint retag (sts : list (Z * string)) (t : Target) : Target :=
  match sts with
  | [] => t
  | (i, s) :: rest => if id t =? i then set_status s t else retag rest t
  end.

(** The statuses, records and calls of the rows, numbered from [n]. *)
Definition statuses_from (browser : nat -> string -> DetailPage Data)
    (n : nat) (rows : list Target) : list (Z * string) :=
  imap (fun i r => (id r, outcome_status (browser (n + i)%nat (row_full_url r)) r))
       rows.
Definition rentals_from (browser : nat -> string -> DetailPage Data)
    (n : nat) (rows : list Target) : list (Rental Data) :=
  concat (imap (fun i r => outcome_rentals (browser (n + i)%nat (row_full_url r)) r)
               rows).
Definition events_from (browser : nat -> string -> DetailPage Data)
    (n : nat) (rows : list Target) : list Event :=
  concat (imap (fun i r => outcome_events (browser (n + i)%nat (row_full_url r)) r)
               rows).

Definition is_get (e : Event) : bool :=
  match e with
  | EvGet _ => true
  | _ => false
  end.
End Vocabulary.

(* ===================================================================== *)
(** * Sample inputs                                                        *)
(* ===================================================================== *)

(** Tables under which every bracketed or non-ASCII netloc passes. *)
Definition lenient_tables : NetlocTables :=
  {| check_bracketed_netloc := fun _ => true;
     check_nfkc_netloc := fun _ => true |}.

(** A city entry that gives only a name, with the defaults of [CityCfg]. *)
Definition example_city (n : string) : CityCfg :=
  mkCityCfg n None None None None None 2 0 1 "USD" "es_CO" "es" 1
            "PRICE_LOW_TO_HIGH" "0_DAY".

(** A result page with one card, no block marker and no next control. *)
Definition example_view : PageView :=
  mkPageView [mkCardElem (Some "/p/1?x=1") None None] "<html></html>" false.

(** No page limit and no limit on the detail targets. *)
Definition unlimited_config : Config := mkConfig true 0 0.

Definition card_elem (href : string) : CardElem :=
  mkCardElem (Some href) None None.

(** A first result page: five cards and a next control that works. *)
Definition five_cards_view : PageView :=
  mkPageView [card_elem "/p/1?x=1"; card_elem "/p/2"; card_elem "/p/3#top";
              card_elem "/p/4"; card_elem "https://www.vrbo.com/p/5"]
             "<html></html>" true.

(** A second result page that repeats cards of the first. *)
Definition repeated_cards_view : PageView :=
  mkPageView [card_elem "/p/2"; card_elem "/p/1"] "<html></html>" true.

(** A result page without cards and without block marker. *)
Definition example_view_empty : PageView :=
  mkPageView [] "<html></html>" false.

(** A result page without cards that carries a block marker. *)
Definition block_view : PageView :=
  mkPageView [] "<h1>Access Denied</h1>" true.

(** The loop state at the start of [run_city], on an empty store. *)
Definition start_loop : Loop unit := mkLoop ∅ 1 new_db.

(** A store with two queued targets of run 7, as [add_target] builds it. *)
Definition two_targets_db : LocalDB unit :=
  add_target (add_target new_db 7 VRBO_TARGET_TYPE "https://www.vrbo.com/p/1"
                         (Some "/p/1?x=1"))
             7 VRBO_TARGET_TYPE "https://www.vrbo.com/p/2" (Some "/p/2").

Definition first_target : Target :=
  mkTarget 1 7 "vrbo_detail" "https://www.vrbo.com/p/1" "/p/1?x=1" "queued".

(** A navigation that times out. *)
Definition timeout_page : DetailPage unit :=
  mkDetailPage (Some WebDriverException) false None None EmptyString None
               NoTitleBlock.

(** A page that loads and never shows a heading. *)
Definition no_heading_page : DetailPage unit :=
  mkDetailPage None false None None "<html>gone</html>" None NoTitleBlock.

(** A page that loads and is scraped. *)
Definition good_page : DetailPage unit :=
  mkDetailPage None true None None "<html><h1>Casa</h1></html>" None
               (Extracted tt (Some (46 # 10)%Q) (Some (-741 # 10)%Q)).

(** A block page without heading, shown while the standard input is
    closed: [input()] raises. *)
Definition closed_stdin_page : DetailPage unit :=
  mkDetailPage None false None None "<h1>Access Denied</h1>" (Some EOFError)
               NoTitleBlock.

(** A page without heading in a browser whose window is gone: the read of
    [driver.current_url] raises. *)
Definition lost_window_page : DetailPage unit :=
  mkDetailPage None false (Some WebDriverException) None EmptyString None
               NoTitleBlock.

(** A browser whose first navigation times out. *)
Definition timeout_first : nat -> string -> DetailPage unit :=
  fun n _ => match n with O => timeout_page | _ => good_page end.

(** A browser whose first page never shows a heading. *)
Definition no_heading_first : nat -> string -> DetailPage unit :=
  fun n _ => match n with O => no_heading_page | _ => good_page end.

(** A browser whose first page is a block page met with the standard
    input closed. *)
Definition closed_stdin_first : nat -> string -> DetailPage unit :=
  fun n _ => match n with O => closed_stdin_page | _ => good_page end.

(** A city entry with dates of the past and two nights. *)
Definition stale_city : CityCfg :=
  mkCityCfg "Bogota" None None None (Some "2020-01-01") (Some "2020-01-05")
            2 0 1 "USD" "es_CO" "es" 2 "PRICE_LOW_TO_HIGH" "0_DAY".

(** A city entry that asks for four million nights. *)
Definition endless_city : CityCfg :=
  mkCityCfg "Bogota" None None None None None 2 0 1 "USD" "es_CO" "es"
            4000000 "PRICE_LOW_TO_HIGH" "0_DAY".

(** A city entry with an explicit search URL, three adults, no child. *)
Definition explicit_city : CityCfg :=
  mkCityCfg "Bogota" None None
            (Some "https://www.vrbo.com/search?foo=bar&adults=1")
            None None 3 0 1 "USD" "es_CO" "es" 1 "PRICE_LOW_TO_HIGH" "0_DAY".

(** A city entry with a region name and two children. *)
Definition region_city : CityCfg :=
  mkCityCfg "Bogota" (Some "Bogota, Distrito Capital, Colombia") None None
            None None 2 2 1 "USD" "es_CO" "es" 1 "PRICE_LOW_TO_HIGH" "0_DAY".

(** A city entry with a negative number of children. *)
Definition negative_children_city : CityCfg :=
  mkCityCfg "Bogota" None None None None None 2 (-1) 1 "USD" "es_CO" "es" 1
            "PRICE_LOW_TO_HIGH" "0_DAY".

(** A city entry whose name is empty and that has no region name. *)
Definition nameless_city : CityCfg :=
  mkCityCfg EmptyString None None None None None 2 0 1 "USD" "es_CO" "es" 1
            "PRICE_LOW_TO_HIGH" "0_DAY".

(** A fact on one character, decided on the 256 bytes. *)
Ltac by_bytes c :=
  destruct c as [[] [] [] [] [] [] [] []]; vm_compute; congruence.

(* ===================================================================== *)
(** * storage.py: sequences of calls                                       *)
(* ===================================================================== *)

(** A call of one of the methods of [LocalDB] that change the store. *)
Inductive StoreOp (Data : Type) : Type :=
  | OpAddTarget (rid : Z) (typ clean_url : string) (full_url : option string)
  | OpUpdateStatus (target_id : Z) (st : string)
  | OpSaveRental (rid : Z) (unique_url : string) (data : Data)
                 (lat lon : option Q).
Arguments OpAddTarget {Data} _ _ _ _.
Arguments OpUpdateStatus {Data} _ _.
Arguments OpSaveRental {Data} _ _ _ _ _.

Definition apply_op {Data : Type} (d : LocalDB Data) (op : StoreOp Data)
    : LocalDB Data :=
  match op with
  | OpAddTarget rid typ clean full => add_target d rid typ clean full
  | OpUpdateStatus tid st => update_target_status d tid st
  | OpSaveRental rid u data lat lon => save_rental d rid u data lat lon
  end.

Definition apply_ops {Data : Type} (d : LocalDB Data)
    (ops : list (StoreOp Data)) : LocalDB Data :=
  fold_left apply_op ops d.

Definition is_add {Data : Type} (op : StoreOp Data) : bool :=
  match op with
  | OpAddTarget _ _ _ _ => true
  | _ => false
  end.

Definition is_save {Data : Type} (op : StoreOp Data) : bool :=
  match op with
  | OpSaveRental _ _ _ _ _ => true
  | _ => false
  end.

(** The ids of a store are 1, 2, ... in the order of insertion. *)
Definition ids_sequential {Data : Type} (d : LocalDB Data) : Prop :=
  map id (targets d) = seqZ 1 (Z.of_nat (length (targets d))) /\
  next_target_id d = 1 + Z.of_nat (length (targets d)).

(** What identifies a stored target: every field but the status. *)
Definition target_key (t : Target) : Z * Z * string * string * string :=
  (id t, run_id t, type t, value t, url t).

(** The test of [list_targets] on one row. *)
Definition listed (rid : Z) (typ st : string) (r : Target) : bool :=
  (run_id r =? rid) && String.eqb (type r) typ && String.eqb (status r) st.

(** How many of [k] queued targets [process_detail_targets] walks
    through under the limit [VRBO_MAX_DETAIL_TARGETS]. *)
Definition detail_quota (cfg : Config) (k : nat) : nat :=
  if 0 <? VRBO_MAX_DETAIL_TARGETS cfg
  then Nat.min (Z.to_nat (VRBO_MAX_DETAIL_TARGETS cfg)) k
  else k.

(* ===================================================================== *)
(** * search.py and runner.py: vocabulary of the run                       *)
(* ===================================================================== *)

(** A click on the next-page control that succeeded. *)
Definition is_next_click (e : Event) : bool :=
  match e with
  | EvClickNext true => true
  | _ => false
  end.

(** The calls of one turn of the loop of [run_city] on a block page that
    shows no card. *)
Definition blocked_turn : list Event :=
  [EvScrollPage; EvExtractCards; EvIsBlocked true; EvInput].

(** A view on which [run_city] waits for the operator and tries again. *)
Definition retried `{NetlocTables} (v : PageView) : Prop :=
  extract_cards (view_cards v) = [] /\ is_blocked (view_source v) = true.

(** The dict of [extract_cards] for a card element whose link has an
    [href]. *)
Definition card_of `{NetlocTables} (e : CardElem) : option Card :=
  (fun h => mkCard (clean_url h) h (elem_title e) (elem_price e))
    <$> elem_href e.

(** A target as the search phase of run [rid] stores it. *)
Definition search_target `{NetlocTables} (rid : Z) (t : Target) : Prop :=
  run_id t = rid /\ type t = VRBO_TARGET_TYPE /\ status t = "queued" /\
  value t = clean_url (url t) /\ nonempty (value t) = true.

(** The two block markers of [is_blocked]. *)
Definition block_markers : list string :=
  ["show us your human side"; "access denied"].

(** The body of the inner [try] of [main] up to [run_end], on the new
    store of [main]: the cities in turn, then the detail phase. The result
    is [None] when the pages of a city run out with its loop still going;
    the calls are those of the detail phase. *)
Definition crawl `{NetlocTables} {Data : Type} (cfg : Config) (rid : Z)
    (visits : list CityVisit) (browser : nat -> string -> DetailPage Data)
    : result (option (LocalDB Data * list Event)) :=
  bind (search_phase cfg rid visits new_db) (fun r =>
    match r with
    | Some d => Return (Some (process_detail_targets cfg browser d rid))
    | None => Return None
    end).

(** One city, two result pages: five cards, then two of them again. *)
Definition example_visit : CityVisit :=
  mkCityVisit (example_city "Bogota") "<html></html>"
              [five_cards_view; repeated_cards_view].

(* ===================================================================== *)
(** * utils.py: vocabulary of the dates and of the price run               *)
(* ===================================================================== *)

(** What [build_entry_url] writes for a date of the config: the date when
    it is present and not empty, no parameter otherwise. *)
Definition date_param (v : option string) : option string :=
  if truthy v then v else None.

(** The query parameters that carry the check-in and the check-out date in
    the first branch of [build_entry_url]. *)
Definition checkin_keys : list string := ["checkIn"; "startDate"; "d1"].
Definition checkout_keys : list string := ["checkOut"; "endDate"; "d2"].

(** The number of characters of [s] that satisfy [p]. *)
Fixpoint str_count (p : ascii -> bool) (s : string) : nat :=
  match s with
  | EmptyString => O
  | String c s' => ((if p c then 1 else 0) + str_count p s')%nat
  end.

(** The number of commas of a price run. *)
Definition commas (run : string) : nat := str_count (Ascii.eqb ",") run.

(** A city entry without dates whose search URL names a check-in date. *)
Definition dated_url_city : CityCfg :=
  mkCityCfg "Bogota" None None
            (Some "https://www.vrbo.com/search?foo=bar&checkIn=2020-01-01")
            None None 3 0 1 "USD" "es_CO" "es" 1 "PRICE_LOW_TO_HIGH" "0_DAY".

(** The characters of a price run once the commas are dots. *)
Definition is_dot (c : ascii) : bool := Ascii.eqb c ".".
Definition is_num_char (c : ascii) : bool := is_digit c || is_dot c.

(* ===================================================================== *)
(** * detail.py: the extractors of the detail page                         *)
(* ===================================================================== *)

(** The loop of [extract_images] over the [src] attributes of the images
    found ([None] when the attribute is absent), with the list [images]
    threaded through. The test on the limit comes after the element has
    been handled. *)
Fixpoint images_loop (srcs : list (option string)) (limit : Z)
    (images : list string) : list string :=
  match srcs with
  | [] => images
  | src :: rest =>
      let images' :=
        match src with
        | Some s =>
            if nonempty s && negb (bool_decide (s ∈ images))
            then images ++ [s] else images
        | None => images
        end in
      if limit <=? Z.of_nat (length images') then images'
      else images_loop rest limit images'
  end.

(** [extract_images] *)
Definition extract_images (srcs : list (option string)) (limit : Z)
    : list string :=
  images_loop srcs limit [].

(** The dict of [parse_content_block], and the one that [extract_policies]
    builds for a [details] element: a title and a description. *)
Definition ContentItem : Type := option string * option string.

(** The loop that ends [extract_policies] and
    [extract_content_items_from_section]: the first item of each key
    (title, description) is kept. *)
Fixpoint dedupe_loop (items : list ContentItem) (seen : gset ContentItem)
    (cleaned : list ContentItem) : list ContentItem :=
  match items with
  | [] => cleaned
  | item :: rest =>
      if bool_decide (item ∈ seen) then dedupe_loop rest seen cleaned
      else dedupe_loop rest ({[item]} ∪ seen) (cleaned ++ [item])
  end.

Definition dedupe_items (items : list ContentItem) : list ContentItem :=
  dedupe_loop items ∅ [].

(** [title or description] *)
Definition has_text (item : ContentItem) : bool :=
  truthy item.1 || truthy item.2.

(** [extract_policies]. [root] is [None] when the page has no policies
    block; otherwise it gives what [parse_content_block] returns for each
    grid item and the summary and body texts of each [details] element. *)
Definition extract_policies
    (root : option (list (option ContentItem) * list ContentItem))
    : list ContentItem :=
  match root with
  | None => []
  | Some (grid, details) =>
      let policies :=
        flat_map (fun parsed =>
                    match parsed with
                    | Some item => if has_text item then [item] else []
                    | None => []
                    end) grid in
      let policies := policies ++ List.filter has_text details in
      dedupe_items policies
  end.

(** [extract_content_items_from_section]: [items] is what the loop over
    the blocks of the section has appended when it ends or is cut by an
    exception, [modal_items] what [click_dialog_and_collect] returns. *)
Definition extract_content_items_from_section
    (items modal_items : list ContentItem) : list ContentItem :=
  dedupe_items (items ++ modal_items).

(** [extract_amenities]: [texts] are the texts that [safe_text] reads from
    the items of the popular block (none when the block is missing),
    [more] what [click_dialog_and_collect] returns. *)
Definition extract_amenities (texts : list (option string))
    (more : list string) : list string * list string :=
  let popular := flat_map (fun txt => if truthy txt
                                      then [default EmptyString txt]
                                      else []) texts in
  (popular, unique_list (map Some (popular ++ more))).

(* ===================================================================== *)
(** * search.py: click_next and the window branch of scroll_page           *)
(* ===================================================================== *)

(** What [click_next] asks of a candidate element. *)
Record NextElem : Type := mkNextElem {
  is_displayed : bool;
  marked_disabled : bool;  (* [_is_disabled(elem)] *)
  is_enabled : bool;
  click_raises : bool      (* [elem.click()] raises *)
}.

(** The test that an element passes before it is clicked. *)
Definition clickable (e : NextElem) : bool :=
  is_displayed e && negb (marked_disabled e) && is_enabled e.

(** [for elem in elems] of [click_next]: whether a click went through, and
    the elements on which [click] was called. *)
Fixpoint click_elems (elems : list NextElem) : bool * list NextElem :=
  match elems with
  | [] => (false, [])
  | elem :: rest =>
      if negb (is_displayed elem) then click_elems rest
      else if marked_disabled elem then click_elems rest
      else if negb (is_enabled elem) then click_elems rest
      else if click_raises elem
      then let '(b, tr) := click_elems rest in (b, elem :: tr)
      else (true, [elem])
  end.

(** [click_next], on the elements that each selector finds in turn. *)
Fixpoint click_next (selectors : list (list NextElem))
    : bool * list NextElem :=
  match selectors with
  | [] => (false, [])
  | elems :: rest =>
      match elems with
      | [] => click_next rest
      | _ :: _ =>
          let '(b, tr) := click_elems elems in
          if b then (true, tr)
          else let '(b', tr') := click_next rest in (b', tr ++ tr')
      end
  end.

(** The branch of [scroll_page] taken when no result container is found:
    [heights k] is what [document.body.scrollHeight] answers after [k]
    calls of [scrollTo]. The result is the list of the positions scrolled
    to, [None] when the fuel runs out with the loop still going. *)
Fixpoint scroll_window (fuel : nat) (heights : nat -> Z) (k : nat)
    (current : Z) : option (list Z) :=
  if current <? heights k then
    match fuel with
    | O => None
    | S fuel' =>
        let current := current + 800 in
        match scroll_window fuel' heights (S k) current with
        | Some tr => Some (current :: tr)
        | None => None
        end
    end
  else Some [].

(* ===================================================================== *)
(** * browser.py: start_driver                                             *)
(* ===================================================================== *)

(** What [uc.Chrome(options=options)] does: it returns a driver, raises
    [SessionNotCreatedException], or raises something else. *)
Inductive Launch : Type := Started | SessionNotCreated | LaunchFails.

(** How [start_driver] ends: with the driver of launch [n] (counted from
    0) on a temporary or on the saved profile, or with the exception of
    that launch. *)
Inductive StartOutcome : Type :=
  | DriverReady (n : nat) (temporary : bool)
  | StartRaises (n : nat) (l : Launch).

(** [start_driver]. [fresh_profile] is [VRBO_FRESH_PROFILE]; [chrome n t]
    is what launch [n] does on a temporary ([t]) or on the saved profile.
    The recursion of the source is bounded here by [fuel]. *)
Fixpoint start_driver (fuel : nat) (fresh_profile : bool)
    (chrome : nat -> bool -> Launch) (n : nat) (force_fresh : bool)
    : option StartOutcome :=
  match fuel with
  | O => None
  | S fuel' =>
      let temporary := fresh_profile || force_fresh in
      match chrome n temporary with
      | Started => Some (DriverReady n temporary)
      | SessionNotCreated =>
          if force_fresh || fresh_profile
          then Some (StartRaises n SessionNotCreated)
          else start_driver fuel' fresh_profile chrome (S n) true
      | LaunchFails => Some (StartRaises n LaunchFails)
      end
  end.

(* ===================================================================== *)
(** * Properties of the result store                                       *)
(* ===================================================================== *)

Section StorageFacts.
Context {Data : Type}.
Implicit Types (d : LocalDB Data) (rows : list Target).

Lemma update_rows_miss rows tid st :
  Forall (fun r => id r <> tid) rows -> update_rows rows tid st = rows.
Proof.
  induction 1 as [|r rows Hr _ IH]; simpl; [done|].
  destruct (Z.eqb_spec (id r) tid); [done|]. by rewrite IH.
Qed.

Lemma update_rows_hit pre row post tid st :
  Forall (fun r => id r <> tid) pre -> id row = tid ->
  update_rows (pre ++ row :: post) tid st = pre ++ set_status st row :: post.
Proof.
  intros Hpre Hrow. induction Hpre as [|r pre Hr _ IH]; simpl.
  - by rewrite Hrow, Z.eqb_refl.
  - destruct (Z.eqb_spec (id r) tid); [done|]. by rewrite IH.
Qed.

(** Every list of rows either has no row with the id, or splits at the
    first such row. *)
Lemma first_row_with_id rows tid :
  Forall (fun r => id r <> tid) rows \/
  exists pre row post,
    rows = pre ++ row :: post /\ Forall (fun r => id r <> tid) pre /\
    id row = tid.
Proof.
  induction rows as [|r rows IH]; [by left|].
  destruct (Z.eq_dec (id r) tid) as [Heq|Hne].
  - right. exists [], r, rows. by repeat split.
  - destruct IH as [Hall|(pre & row & post & -> & Hpre & Hrow)].
    + left. by constructor.
    + right. exists (r :: pre), row, post. repeat split; [|done].
      by constructor.
Qed.

Lemma update_rows_length rows tid st :
  length (update_rows rows tid st) = length rows.
Proof.
  induction rows as [|r rows IH]; simpl; [done|].
  destruct (id r =? tid); simpl; congruence.
Qed.

Lemma update_rows_ids rows tid st :
  map id (update_rows rows tid st) = map id rows.
Proof.
  induction rows as [|r rows IH]; simpl; [done|].
  destruct (id r =? tid); simpl; congruence.
Qed.

(** The store invariant holds at creation and is kept by every method. *)
Lemma ids_fresh_new : ids_fresh (new_db (Data := Data)).
Proof. split; constructor. Qed.

Lemma ids_fresh_add_target d rid typ clean full :
  ids_fresh d -> ids_fresh (add_target d rid typ clean full).
Proof.
  intros [Hnd Hlt]. unfold ids_fresh, add_target. simpl. split.
  - rewrite map_app. apply NoDup_app. split; [done|].
    split; [|apply NoDup_singleton].
    intros x Hx ->%list_elem_of_singleton.
    apply list_elem_of_fmap in Hx as (t & Hid & Ht).
    rewrite Forall_forall in Hlt. specialize (Hlt t Ht). simpl in Hid. lia.
  - apply Forall_app. split.
    + eapply Forall_impl; [exact Hlt|]. simpl. intros t Ht. lia.
    + constructor; [simpl; lia|constructor].
Qed.

Lemma update_rows_Forall (P : Z -> Prop) rows tid st :
  Forall (fun t => P (id t)) rows ->
  Forall (fun t => P (id t)) (update_rows rows tid st).
Proof.
  induction 1 as [|r rows Hr Hrows IH]; simpl; [constructor|].
  destruct (id r =? tid); by constructor.
Qed.

Lemma ids_fresh_update_target_status d tid st :
  ids_fresh d -> ids_fresh (update_target_status d tid st).
Proof.
  intros [Hnd Hlt]. unfold ids_fresh, update_target_status. simpl.
  rewrite update_rows_ids. split; [done|].
  by apply (update_rows_Forall (fun i => i < next_target_id d)).
Qed.

Lemma ids_fresh_save_rental d rid u data lat lon :
  ids_fresh d -> ids_fresh (save_rental d rid u data lat lon).
Proof. done. Qed.
End StorageFacts.

(** C10. [update_target_status] leaves the results list and the id counter
    alone. When some stored target has the given id, the targets list
    changes at the first such target only, and that target keeps its id,
    run id, type, value and url and gets the new status. When no stored
    target has the id, the store is unchanged. *)
Theorem update_target_status_frame {Data : Type} (d : LocalDB Data)
    (target_id : Z) (st : string) :
  let d' := update_target_status d target_id st in
  results d' = results d /\
  next_target_id d' = next_target_id d /\
  ((exists pre row post row',
      targets d = pre ++ row :: post /\
      Forall (fun r => id r <> target_id) pre /\
      id row = target_id /\
      targets d' = pre ++ row' :: post /\
      id row' = id row /\ run_id row' = run_id row /\ type row' = type row /\
      value row' = value row /\ url row' = url row /\ status row' = st)
   \/
   (Forall (fun r => id r <> target_id) (targets d) /\ d' = d)).
Proof.
  simpl. repeat split.
  destruct (first_row_with_id (targets d) target_id)
    as [Hnone|(pre & row & post & Heq & Hpre & Hrow)].
  - right. split; [done|]. unfold update_target_status.
    rewrite update_rows_miss by done. by destruct d.
  - left. exists pre, row, post, (set_status st row).
    repeat split; try done. unfold update_target_status; simpl.
    rewrite Heq. by apply update_rows_hit.
Qed.

(* ===================================================================== *)
(** * Properties of unique_list                                            *)
(* ===================================================================== *)

Section UniqueListFacts.
Implicit Types (items : list (option string)) (seen : gset string).

Lemma unique_loop_filter items seen ordered :
  unique_loop items seen ordered
  = ordered ++ filter (fun x => x ∉ seen) (unique_list items).
Proof.
  unfold unique_list. revert seen ordered.
  induction items as [|item items IH]; intros seen ordered; simpl.
  - by rewrite app_nil_r.
  - destruct item as [s|]; [|apply IH].
    destruct (nonempty s) eqn:Hs; simpl; [|apply IH].
    rewrite (bool_decide_eq_false_2 (s ∈ (∅ : gset string)))
      by set_solver.
    simpl. rewrite (IH ({[s]} ∪ ∅) [s]); simpl.
    case_bool_decide as Hin; simpl.
    + rewrite IH. f_equal. rewrite filter_cons_False by set_solver.
      rewrite list_filter_filter. apply list_filter_iff. set_solver.
    + rewrite IH, <- app_assoc. simpl. f_equal.
      rewrite filter_cons_True by set_solver. f_equal.
      rewrite list_filter_filter. apply list_filter_iff. set_solver.
Qed.

Lemma unique_list_cons_keep s items :
  nonempty s = true ->
  unique_list (Some s :: items)
  = s :: filter (fun x => x <> s) (unique_list items).
Proof.
  intros Hs. unfold unique_list at 1. simpl. rewrite Hs. simpl.
  rewrite unique_loop_filter. simpl. f_equal.
  apply list_filter_iff. set_solver.
Qed.

Lemma unique_list_cons_drop item items :
  truthy item = false -> unique_list (item :: items) = unique_list items.
Proof.
  intros Hf. unfold unique_list. simpl.
  destruct item as [s|]; [|done]. simpl in Hf. by rewrite Hf.
Qed.

Lemma unique_list_elem items s :
  s ∈ unique_list items <-> Some s ∈ items /\ nonempty s = true.
Proof.
  induction items as [|item items IH].
  - unfold unique_list; simpl. set_solver.
  - destruct (truthy item) eqn:Ht.
    + destruct item as [x|]; [|done]. simpl in Ht.
      rewrite unique_list_cons_keep by done.
      rewrite elem_of_cons, list_elem_of_filter, IH, elem_of_cons.
      split.
      * intros [->|(_ & Hin & Hs)]; [by split; [left|]|by split; [right|]].
      * intros [[[= ->]|Hin] Hs]; [by left|].
        destruct (decide (s = x)); [by left|by right].
    + rewrite unique_list_cons_drop by done. rewrite IH, elem_of_cons.
      split; [intros [? ?]; by split; [right|]|].
      intros [[<-|Hin] Hs]; [|done]. simpl in Ht. congruence.
Qed.

Lemma unique_list_NoDup items : NoDup (unique_list items).
Proof.
  induction items as [|item items IH].
  - unfold unique_list; simpl. constructor.
  - destruct (truthy item) eqn:Ht.
    + destruct item as [x|]; [|done]. simpl in Ht.
      rewrite unique_list_cons_keep by done. constructor.
      * rewrite list_elem_of_filter. tauto.
      * by apply NoDup_filter.
    + by rewrite unique_list_cons_drop.
Qed.
End UniqueListFacts.

(** C9. [unique_list] keeps exactly the truthy items of its input, each
    once: the result has no duplicates, its elements are the non-empty
    strings of the input, it never contains the empty string, and its order
    is that of first occurrence: a falsy head is dropped, and a truthy head
    comes first, followed by the result for the tail without its copies. *)
Theorem unique_list_spec (items : list (option string)) :
  NoDup (unique_list items) /\
  (forall s, s ∈ unique_list items <-> Some s ∈ items /\ s <> EmptyString) /\
  (EmptyString ∉ unique_list items) /\
  unique_list [] = [] /\
  (forall item rest, truthy item = false ->
     unique_list (item :: rest) = unique_list rest) /\
  (forall s rest, s <> EmptyString ->
     unique_list (Some s :: rest)
     = s :: filter (fun x => x <> s) (unique_list rest)).
Proof.
  assert (Hne : forall s, nonempty s = true <-> s <> EmptyString)
    by (intros [|c s]; simpl; split; congruence).
  split; [apply unique_list_NoDup|].
  split; [intros s; by rewrite unique_list_elem, Hne|].
  split; [rewrite unique_list_elem; simpl; intros [_ ?]; congruence|].
  split; [done|].
  split; [apply unique_list_cons_drop|].
  intros s rest Hs. apply unique_list_cons_keep. by apply Hne.
Qed.

(** A list with None, the empty string and repeated strings. *)
Lemma unique_list_spec_witness :
  unique_list [None; Some EmptyString; Some "b"; Some "a"; Some "b"]
  = "b" :: filter (fun x => x <> "b") (unique_list [Some "a"; Some "b"]).
Proof.
  destruct (unique_list_spec
              [None; Some EmptyString; Some "b"; Some "a"; Some "b"])
    as (_ & _ & _ & _ & Hdrop & _).
  destruct (unique_list_spec [Some "b"; Some "a"; Some "b"])
    as (_ & _ & _ & _ & _ & Hkeep).
  rewrite Hdrop by reflexivity. rewrite Hdrop by reflexivity.
  apply Hkeep. discriminate.
Defined.

(** The example of the specification. *)
Example unique_list_example :
  unique_list [Some "b"; Some "a"; Some "b"; Some "c"; Some "a"]
  = ["b"; "a"; "c"].
Proof. vm_compute. reflexivity. Qed.

(* ===================================================================== *)
(** * Properties of run_city                                               *)
(* ===================================================================== *)

Section SearchFacts.
Context `{NetlocTables} {Data : Type}.
Implicit Types (d : LocalDB Data) (st : Loop Data) (sn : gset string).

Lemma appended_refl rid d sn : appended rid d sn d sn [].
Proof.
  unfold appended; simpl. rewrite app_nil_r, Z.add_0_r.
  repeat split; [constructor|set_solver|constructor].
Qed.

Lemma visit_card_appended rid d0 sn0 d sn n added card :
  appended rid d0 sn0 d sn added ->
  exists added',
    appended rid d0 sn0 (visit_card rid (sn, d, n) card).1.2
             (visit_card rid (sn, d, n) card).1.1 added' /\
    (visit_card rid (sn, d, n) card).2
    = n + Z.of_nat (length added') - Z.of_nat (length added).
Proof.
  intros (Ht & Hr & Hn & Hnd & Hsn & Hall). unfold visit_card.
  destruct (nonempty (card_url card)) eqn:Hne; simpl;
    [|exists added; split; [done|lia]].
  case_bool_decide as Hin; simpl; [exists added; split; [done|lia]|].
  exists (added ++ [mkTarget (next_target_id d) rid VRBO_TARGET_TYPE
                      (card_url card)
                      (or_else (Some (card_full_url card)) (card_url card))
                      "queued"]).
  split; [|rewrite length_app; simpl; lia].
  unfold appended; simpl. rewrite Ht, Hr, Hn, length_app, map_app; simpl.
  repeat split.
  - by rewrite app_assoc.
  - lia.
  - apply NoDup_app. split; [done|]. split; [|apply NoDup_singleton].
    intros x Hx ->%list_elem_of_singleton. apply Hin. rewrite Hsn.
    apply elem_of_union_l, elem_of_list_to_set. done.
  - rewrite Hsn, list_to_set_app_L. simpl. set_solver.
  - apply Forall_app. split; [done|]. constructor; [|constructor].
    repeat split. intros Hc. apply Hin. rewrite Hsn. set_solver.
Qed.

Lemma fold_visit_card_appended rid d0 sn0 cards d sn n added :
  appended rid d0 sn0 d sn added ->
  exists added',
    appended rid d0 sn0 (fold_left (visit_card rid) cards (sn, d, n)).1.2
             (fold_left (visit_card rid) cards (sn, d, n)).1.1 added' /\
    (fold_left (visit_card rid) cards (sn, d, n)).2
    = n + Z.of_nat (length added') - Z.of_nat (length added).
Proof.
  revert d sn n added.
  induction cards as [|card cards IH]; intros d sn n added Ha;
    cbn [fold_left].
  - exists added. split; [done|simpl; lia].
  - destruct (visit_card_appended rid d0 sn0 d sn n added card Ha)
      as (a1 & Ha1 & Hn1).
    destruct (visit_card rid (sn, d, n) card) as [[sn1 d1] n1] eqn:Hv.
    simpl in Ha1, Hn1.
    destruct (IH d1 sn1 n1 a1 Ha1) as (a2 & Ha2 & Hn2).
    exists a2. split; [done|]. rewrite Hn2, Hn1. lia.
Qed.

(** The card loop, started on the store of the call. *)
Lemma visit_cards_appended rid d0 sn0 cards d sn added :
  appended rid d0 sn0 d sn added ->
  exists added',
    appended rid d0 sn0 (visit_cards rid cards sn d).1.2
             (visit_cards rid cards sn d).1.1 added' /\
    (visit_cards rid cards sn d).2
    = Z.of_nat (length added') - Z.of_nat (length added).
Proof.
  intros Ha. unfold visit_cards.
  destruct (fold_visit_card_appended rid d0 sn0 cards d sn 0 added Ha)
    as (a & Ha' & Hn).
  exists a. split; [done|]. rewrite Hn. lia.
Qed.

Lemma page_step_appended cfg rid d0 sn0 st v added :
  appended rid d0 sn0 (db st) (seen st) added ->
  exists added',
    appended rid d0 sn0 (db (page_step cfg rid st v).1.2)
             (seen (page_step cfg rid st v).1.2) added'.
Proof.
  intros Ha. unfold page_step.
  destruct (extract_cards (view_cards v)) as [|c cs] eqn:Hc.
  - destruct (is_blocked (view_source v)); simpl; by exists added.
  - destruct (visit_cards_appended rid d0 sn0 (c :: cs) (db st) (seen st)
                added Ha) as (a & Ha' & _).
    destruct (visit_cards rid (c :: cs) (seen st) (db st))
      as [[sn1 d1] n1] eqn:Hv. simpl in Ha'.
    exists a.
    destruct (n1 =? 0); [done|].
    destruct (max_pages_reached cfg st); [done|].
    by destruct (view_next v).
Qed.

Lemma pagination_appended cfg rid d0 sn0 views st tr added :
  appended rid d0 sn0 (db st) (seen st) added ->
  exists added',
    appended rid d0 sn0 (db (pagination cfg rid views st tr).1.2)
             (seen (pagination cfg rid views st tr).1.2) added'.
Proof.
  revert st tr added.
  induction views as [|v views IH]; intros st tr added Ha; simpl.
  - by exists added.
  - destruct (page_step_appended cfg rid d0 sn0 st v added Ha)
      as (a1 & Ha1).
    destruct (page_step cfg rid st v) as [[ctl st1] ev] eqn:Hs.
    simpl in Ha1. destruct ctl; simpl; [by exists a1|].
    by apply (IH st1 (tr ++ ev) a1).
Qed.
End SearchFacts.

(** C1, as amended. Within one call of [run_city], that is within the
    search of one city, a card whose normalized URL is already in the
    call's [seen] set adds no target: the targets that the call appends to
    the store have pairwise different normalized URLs, they all carry the
    run id, the target type and the status queued, and [seen] is exactly
    the set of their URLs. Targets already in the store stay as they are. *)
Theorem run_city_targets_unique `{NetlocTables} {Data : Type} (cfg : Config)
    (entry_source : string) (views : list PageView) (d : LocalDB Data)
    (rid : Z) (city : CityCfg) :
  match run_city cfg entry_source views d rid city with
  | Return (_, st, _) =>
      exists added,
        targets (db st) = targets d ++ added /\
        results (db st) = results d /\
        NoDup (map value added) /\
        seen st = list_to_set (map value added) /\
        Forall (fun t => run_id t = rid /\ type t = VRBO_TARGET_TYPE /\
                         status t = "queued") added
  | Raise _ => True
  end.
Proof.
  unfold run_city. destruct (build_entry_url city) as [target|e]; simpl;
    [|done].
  set (tr := EvGet target :: _).
  destruct (pagination_appended cfg rid d ∅ views (mkLoop ∅ 1 d) tr []
              (appended_refl rid d ∅))
    as (added & Ht & Hr & _ & Hnd & Hsn & Hall).
  destruct (pagination cfg rid views (mkLoop ∅ 1 d) tr) as [[fin st] tr'].
  simpl in *. exists added. repeat split; try done.
  - rewrite Hsn. set_solver.
  - eapply Forall_impl; [exact Hall|]. simpl. tauto.
Qed.

(** C1, as stated, fails: [seen] is local to one call of [run_city], and
    [main] calls it once per city with the same store and run id. Two cities
    whose result pages show the same listing give two targets of one run
    with the same normalized URL. *)
Lemma run_targets_unique_counterexample :
  ~ (forall (T : NetlocTables) (cfg : Config) (rid : Z)
            (visits : list CityVisit) (d' : LocalDB unit),
       search_phase cfg rid visits new_db = Return (Some d') ->
       NoDup (map value (targets d'))).
Proof.
  intros Hc.
  specialize (Hc lenient_tables default_config 7
                 [mkCityVisit (example_city "Bogota") EmptyString
                              [example_view];
                  mkCityVisit (example_city "Cali") EmptyString
                              [example_view]]
                 (mkLocalDB
                    [mkTarget 1 7 "vrbo_detail" "https://www.vrbo.com/p/1"
                              "/p/1?x=1" "queued";
                     mkTarget 2 7 "vrbo_detail" "https://www.vrbo.com/p/1"
                              "/p/1?x=1" "queued"] 3 [])).
  assert (Hrun : NoDup ["https://www.vrbo.com/p/1"; "https://www.vrbo.com/p/1"])
    by (apply Hc; vm_compute; reflexivity).
  apply NoDup_cons in Hrun as [Hin _]. apply Hin. by left.
Qed.

Section StopRuleFacts.
Context `{NetlocTables} {Data : Type}.
Implicit Types (d : LocalDB Data) (st : Loop Data).

Lemma page_step_no_cards cfg rid st v :
  extract_cards (view_cards v) = [] ->
  page_step cfg rid st v
  = if is_blocked (view_source v)
    then (Continue, st,
          [EvScrollPage; EvExtractCards; EvIsBlocked true; EvInput])
    else (Break, st, [EvScrollPage; EvExtractCards; EvIsBlocked false]).
Proof. intros Hc. unfold page_step. by rewrite Hc. Qed.

Lemma page_step_cards cfg rid st v :
  extract_cards (view_cards v) <> [] ->
  let r := visit_cards rid (extract_cards (view_cards v)) (seen st) (db st) in
  page_step cfg rid st v
  = if new_count rid st v =? 0
    then (Break, mkLoop r.1.1 (page_num st) r.1.2,
          [EvScrollPage; EvExtractCards])
    else if max_pages_reached cfg st
    then (Break, mkLoop r.1.1 (page_num st) r.1.2,
          [EvScrollPage; EvExtractCards])
    else if negb (view_next v)
    then (Break, mkLoop r.1.1 (page_num st) r.1.2,
          [EvScrollPage; EvExtractCards; EvClickNext false])
    else (Continue, mkLoop r.1.1 (page_num st + 1) r.1.2,
          [EvScrollPage; EvExtractCards; EvClickNext true]).
Proof.
  intros Hc. unfold page_step, new_count. simpl.
  destruct (extract_cards (view_cards v)) as [|c cs]; [done|].
  by destruct (visit_cards rid (c :: cs) (seen st) (db st)) as [[sn d1] n].
Qed.

(** The stop rule of one turn of the loop. *)
Lemma page_step_rule cfg rid st v :
  let cards := extract_cards (view_cards v) in
  let r := page_step cfg rid st v in
  (r.1.1 = Break <->
     (cards = [] /\ is_blocked (view_source v) = false) \/
     (cards <> [] /\
      (new_count rid st v = 0 \/ max_pages_reached cfg st = true \/
       view_next v = false))) /\
  ((exists b, EvIsBlocked b ∈ r.2) <-> cards = []) /\
  (cards = [] -> is_blocked (view_source v) = true ->
     r.1.1 = Continue /\ r.1.2 = st /\ EvInput ∈ r.2) /\
  (cards <> [] -> r.1.1 = Continue -> page_num r.1.2 = page_num st + 1).
Proof.
  simpl. destruct (extract_cards (view_cards v)) as [|c cs] eqn:Hc.
  - rewrite page_step_no_cards by done.
    destruct (is_blocked (view_source v)); simpl.
    + repeat split; try done.
      * intros [[_ ?]|[? _]]; done.
      * exists true. set_solver.
      * set_solver.
    + repeat split; try done.
      * intros _. by left.
      * exists false. set_solver.
  - assert (Hne : extract_cards (view_cards v) <> []) by by rewrite Hc.
    pose proof (page_step_cards cfg rid st v Hne) as Hs. simpl in Hs.
    rewrite Hc in Hs. rewrite Hs. clear Hs.
    destruct (Z.eqb_spec (new_count rid st v) 0) as [Hn|Hn]; simpl.
    { repeat split; try done.
      - intros _. right. split; [done|]. by left.
      - intros [b Hb]. set_solver. }
    destruct (max_pages_reached cfg st) eqn:Hm; simpl.
    { repeat split; try done.
      - intros _. right. split; [done|]. right. by left.
      - intros [b Hb]. set_solver. }
    destruct (view_next v) eqn:Hx; simpl.
    + repeat split; try done.
      * intros [[? _]|[_ [?|[?|?]]]]; done.
      * intros [b Hb]. set_solver.
    + repeat split; try done.
      * intros _. right. split; [done|]. right. by right.
      * intros [b Hb]. set_solver.
Qed.
End StopRuleFacts.

Section ScenarioFacts.
Context `{NetlocTables} {Data : Type}.
Implicit Types (d : LocalDB Data) (st : Loop Data).

Lemma new_count_no_cards rid st v :
  extract_cards (view_cards v) = [] -> new_count rid st v = 0.
Proof. intros Hc. unfold new_count. by rewrite Hc. Qed.

(** Five new URLs on the first page and none on the second. *)
Lemma two_pages_then_stop cfg rid d v1 v2 rest :
  new_count rid (mkLoop ∅ 1 d) v1 = 5 ->
  view_next v1 = true ->
  VRBO_MAX_PAGES cfg <= 0 \/ 2 <= VRBO_MAX_PAGES cfg ->
  new_count rid (page_step cfg rid (mkLoop ∅ 1 d) v1).1.2 v2 = 0 ->
  (extract_cards (view_cards v2) = [] ->
   is_blocked (view_source v2) = false) ->
  exists st tr added,
    pagination cfg rid (v1 :: v2 :: rest) (mkLoop ∅ 1 d) [] = (true, st, tr) /\
    page_num st = 2 /\
    targets (db st) = targets d ++ added /\
    length added = 5%nat /\
    Forall (fun t => status t = "queued" /\ run_id t = rid) added.
Proof.
  intros Hn1 Hnext Hmax Hn2 Hblk.
  assert (Hc1 : extract_cards (view_cards v1) <> []).
  { intros Hc. rewrite new_count_no_cards in Hn1; done. }
  pose proof (page_step_cards cfg rid (mkLoop ∅ 1 d) v1 Hc1) as Hs1.
  simpl in Hs1. rewrite Hn1 in Hs1. simpl in Hs1.
  assert (Hm : max_pages_reached cfg (mkLoop ∅ 1 d) = false).
  { unfold max_pages_reached; simpl.
    destruct (Z.ltb_spec 0 (VRBO_MAX_PAGES cfg)); [|done].
    destruct (Z.leb_spec (VRBO_MAX_PAGES cfg) 1); [lia|done]. }
  rewrite Hm, Hnext in Hs1. simpl in Hs1.
  destruct (visit_cards_appended rid d ∅ (extract_cards (view_cards v1))
              d ∅ [] (appended_refl rid d ∅)) as (a1 & Ha1 & Hl1).
  unfold new_count in Hn1. simpl in Hn1. rewrite Hn1 in Hl1. simpl in Hl1.
  set (r1 := visit_cards rid (extract_cards (view_cards v1)) ∅ d) in *.
  rewrite Hs1 in Hn2. simpl in Hn2.
  cbn [pagination]. rewrite Hs1.
  set (st1 := mkLoop r1.1.1 (1 + 1) r1.1.2) in *.
  destruct (extract_cards (view_cards v2)) as [|c cs] eqn:Hc2.
  - rewrite page_step_no_cards by done. rewrite Hblk by done.
    eexists _, _, a1. split; [reflexivity|].
    destruct Ha1 as (Ht & _ & _ & _ & _ & Hall). simpl.
    repeat split; [done|lia|].
    eapply Forall_impl; [exact Hall|]. simpl. tauto.
  - assert (Hne : extract_cards (view_cards v2) <> []) by by rewrite Hc2.
    pose proof (page_step_cards cfg rid st1 v2 Hne) as Hs2.
    simpl in Hs2. rewrite Hn2 in Hs2. simpl in Hs2. rewrite Hs2.
    destruct (visit_cards_appended rid d ∅ (extract_cards (view_cards v2))
                r1.1.2 r1.1.1 a1 Ha1) as (a2 & Ha2 & Hl2).
    unfold new_count in Hn2. simpl in Hn2. rewrite Hn2 in Hl2.
    eexists _, _, a2. split; [reflexivity|].
    destruct Ha2 as (Ht & _ & _ & _ & _ & Hall). simpl.
    repeat split; [done|lia|].
    eapply Forall_impl; [exact Hall|]. simpl. tauto.
Qed.
End ScenarioFacts.

(** C2, as amended. After processing a page the loop of [run_city] stops
    exactly when the page shows no card and is not a block page, or it
    shows cards and either no new target was added, or the positive page
    limit is reached, or no next-page control could be clicked. The
    block-page check is made exactly when the page shows no card; when it
    finds a block page the loop waits for the operator and processes the
    page again instead of stopping. A page that shows only cards already
    seen stops the loop without a block-page check. For a search with five
    new URLs on page 1 and none on page 2, the page limit not binding and
    page 2 not a block page, exactly five targets are recorded, all queued,
    and the loop stops after page 2. *)
Theorem run_city_stop_rule `{NetlocTables} {Data : Type} (cfg : Config)
    (rid : Z) (st : Loop Data) (v : PageView) (d : LocalDB Data)
    (v1 v2 : PageView) (rest : list PageView) :
  let cards := extract_cards (view_cards v) in
  let r := page_step cfg rid st v in
  (r.1.1 = Break <->
     (cards = [] /\ is_blocked (view_source v) = false) \/
     (cards <> [] /\
      (new_count rid st v = 0 \/ max_pages_reached cfg st = true \/
       view_next v = false))) /\
  ((exists b, EvIsBlocked b ∈ r.2) <-> cards = []) /\
  (cards = [] -> is_blocked (view_source v) = true ->
     r.1.1 = Continue /\ r.1.2 = st /\ EvInput ∈ r.2) /\
  (new_count rid (mkLoop ∅ 1 d) v1 = 5 ->
   view_next v1 = true ->
   VRBO_MAX_PAGES cfg <= 0 \/ 2 <= VRBO_MAX_PAGES cfg ->
   new_count rid (page_step cfg rid (mkLoop ∅ 1 d) v1).1.2 v2 = 0 ->
   (extract_cards (view_cards v2) = [] ->
    is_blocked (view_source v2) = false) ->
   exists st' tr added,
     pagination cfg rid (v1 :: v2 :: rest) (mkLoop ∅ 1 d) [] = (true, st', tr) /\
     page_num st' = 2 /\
     targets (db st') = targets d ++ added /\
     length added = 5%nat /\
     Forall (fun t => status t = "queued" /\ run_id t = rid) added).
Proof.
  intros cards r.
  destruct (page_step_rule cfg rid st v) as (H1 & H2 & H3 & _).
  repeat split; try apply H1; try apply H2; try (apply H3; assumption).
  apply two_pages_then_stop.
Qed.

(* ===================================================================== *)
(** * Properties of process_detail_targets                                 *)
(* ===================================================================== *)

Section DetailFacts.
Context {Data : Type}.
Implicit Types (d : LocalDB Data) (rows : list Target)
               (sts : list (Z * string))
               (browser : nat -> string -> DetailPage Data).

Lemma process_row_spec (page : DetailPage Data) rid d row :
  process_row page rid d row
  = (mkLocalDB (update_rows (targets d) (id row) (outcome_status page row))
               (next_target_id d)
               (results d ++ outcome_rentals page row),
     outcome_events page row).
Proof.
  unfold process_row, outcome_status, outcome_rentals, outcome_events,
    scrape_row, row_full_url.
  destruct (scrape_detail_page page (value row)
              (or_else (Some (url row)) (value row))) as [[[[x|] c]|e] ev];
    simpl.
  - unfold update_target_status, save_rental. simpl. by destruct c.
  - unfold update_target_status. simpl. by rewrite app_nil_r.
  - unfold update_target_status. simpl. by rewrite app_nil_r.
Qed.

Lemma retag_id sts t : id (retag sts t) = id t.
Proof.
  induction sts as [|[i s] sts IH]; simpl; [done|].
  by destruct (id t =? i).
Qed.

Lemma retag_fields sts t :
  run_id (retag sts t) = run_id t /\ type (retag sts t) = type t /\
  value (retag sts t) = value t /\ url (retag sts t) = url t.
Proof.
  induction sts as [|[i s] sts IH]; simpl; [done|].
  by destruct (id t =? i).
Qed.

Lemma retag_absent sts t :
  id t ∉ map fst sts -> retag sts t = t.
Proof.
  induction sts as [|[i s] sts IH]; simpl; [done|].
  intros Hn. apply not_elem_of_cons in Hn as [Hne Hn].
  destruct (Z.eqb_spec (id t) i); [done|]. by apply IH.
Qed.

Lemma retag_app_absent sts tid s t :
  id t <> tid -> retag (sts ++ [(tid, s)]) t = retag sts t.
Proof.
  intros Hne. induction sts as [|[i s'] sts IH]; simpl.
  - by destruct (Z.eqb_spec (id t) tid).
  - by destruct (id t =? i).
Qed.

Lemma retag_app_hit sts tid s t :
  id t = tid -> tid ∉ map fst sts ->
  retag (sts ++ [(tid, s)]) t = set_status s t.
Proof.
  intros Heq Hn. induction sts as [|[i s'] sts IH]; simpl.
  - by rewrite Heq, Z.eqb_refl.
  - simpl in Hn. apply not_elem_of_cons in Hn as [Hne Hn].
    destruct (Z.eqb_spec (id t) i); [congruence|]. by apply IH.
Qed.

(** Setting one more status, for an id that has none yet. *)
Lemma update_rows_retag sts (T0 : list Target) tid s :
  NoDup (map id T0) -> tid ∉ map fst sts ->
  update_rows (map (retag sts) T0) tid s
  = map (retag (sts ++ [(tid, s)])) T0.
Proof.
  intros Hnd Hn. induction T0 as [|t T0 IH]; simpl; [done|].
  simpl in Hnd. apply NoDup_cons in Hnd as [Ht Hnd].
  rewrite retag_id. destruct (Z.eqb_spec (id t) tid) as [Heq|Hne].
  - rewrite retag_app_hit by done. rewrite retag_absent by by rewrite Heq.
    f_equal. apply map_ext_in. intros t' Hin. symmetry.
    apply retag_app_absent. intros Heq'. apply Ht. rewrite Heq, <- Heq'.
    apply list_elem_of_In in Hin. by apply list_elem_of_fmap_2.
  - rewrite retag_app_absent by done. f_equal. by apply IH.
Qed.

Lemma retag_lookup sts (i : nat) t s :
  NoDup (map fst sts) -> sts !! i = Some (id t, s) ->
  retag sts t = set_status s t.
Proof.
  revert i. induction sts as [|[j s'] sts IH]; intros i Hnd Hi; [done|].
  simpl in *. apply NoDup_cons in Hnd as [Hj Hnd].
  destruct i as [|i]; simpl in Hi.
  - injection Hi as -> ->. by rewrite Z.eqb_refl.
  - destruct (Z.eqb_spec (id t) j) as [Heq|Hne]; [|by apply (IH i)].
    exfalso. apply Hj. rewrite <- Heq.
    apply (list_elem_of_fmap_2 fst sts (id t, s)).
    by apply list_elem_of_lookup_2 with i.
Qed.

Lemma statuses_from_cons browser n r rows :
  statuses_from browser n (r :: rows)
  = (id r, outcome_status (browser n (row_full_url r)) r)
    :: statuses_from browser (S n) rows.
Proof.
  unfold statuses_from. simpl. rewrite Nat.add_0_r. f_equal.
  apply imap_ext. intros i x _. simpl. by rewrite Nat.add_succ_r.
Qed.

Lemma rentals_from_cons browser n r rows :
  rentals_from browser n (r :: rows)
  = outcome_rentals (browser n (row_full_url r)) r
    ++ rentals_from browser (S n) rows.
Proof.
  unfold rentals_from. simpl. rewrite Nat.add_0_r. f_equal. f_equal.
  apply imap_ext. intros i x _. simpl. by rewrite Nat.add_succ_r.
Qed.

Lemma events_from_cons browser n r rows :
  events_from browser n (r :: rows)
  = outcome_events (browser n (row_full_url r)) r
    ++ events_from browser (S n) rows.
Proof.
  unfold events_from. simpl. rewrite Nat.add_0_r. f_equal. f_equal.
  apply imap_ext. intros i x _. simpl. by rewrite Nat.add_succ_r.
Qed.

Lemma statuses_from_keys browser n rows :
  map fst (statuses_from browser n rows) = map id rows.
Proof.
  revert n. induction rows as [|r rows IH]; intros n; [done|].
  rewrite statuses_from_cons. simpl. by rewrite IH.
Qed.

(** The loop of [process_detail_targets], in one equation. *)
Lemma detail_loop_spec browser rid rows n d tr sts (T0 : list Target) :
  targets d = map (retag sts) T0 ->
  NoDup (map id T0) ->
  NoDup (map fst sts ++ map id rows) ->
  detail_loop browser rid rows n d tr
  = (mkLocalDB (map (retag (sts ++ statuses_from browser n rows)) T0)
               (next_target_id d)
               (results d ++ rentals_from browser n rows),
     tr ++ events_from browser n rows).
Proof.
  revert n d tr sts.
  induction rows as [|r rows IH]; intros n d tr sts Ht Hnd Hk.
  - simpl. unfold rentals_from, events_from. simpl.
    rewrite !app_nil_r, <- Ht. by destruct d.
  - cbn [detail_loop]. fold (row_full_url r). rewrite process_row_spec.
    rewrite statuses_from_cons, rentals_from_cons, events_from_cons.
    simpl in Hk.
    assert (Hfresh : id r ∉ map fst sts).
    { apply NoDup_app in Hk as (_ & Hd & _). intros Hin.
      apply (Hd _ Hin). by left. }
    rewrite (IH (S n) _ _ (sts ++ [(id r, outcome_status
                                      (browser n (row_full_url r)) r)])).
    + simpl. rewrite <- !app_assoc. done.
    + simpl. rewrite Ht. by apply update_rows_retag.
    + done.
    + rewrite map_app. simpl. rewrite <- app_assoc. simpl.
      by rewrite cons_middle, app_assoc in Hk |- *.
Qed.
End DetailFacts.

Section DetailRun.
Context {Data : Type}.
Implicit Types (d : LocalDB Data) (rows : list Target)
               (browser : nat -> string -> DetailPage Data).

Lemma list_filter_sublist (f : Target -> bool) rows :
  List.filter f rows `sublist_of` rows.
Proof.
  induction rows as [|r rows IH]; simpl; [constructor|].
  destruct (f r); by constructor.
Qed.

Lemma selected_targets_sublist cfg d rid :
  selected_targets cfg d rid `sublist_of` targets d.
Proof.
  unfold selected_targets, list_targets.
  destruct (0 <? VRBO_MAX_DETAIL_TARGETS cfg).
  - etrans; [apply sublist_take|apply list_filter_sublist].
  - apply list_filter_sublist.
Qed.

Lemma selected_targets_NoDup cfg d rid :
  NoDup (map id (targets d)) -> NoDup (map id (selected_targets cfg d rid)).
Proof.
  intros Hnd. eapply sublist_NoDup; [exact Hnd|].
  apply (fmap_sublist id), selected_targets_sublist.
Qed.

Lemma selected_targets_queued cfg d rid row :
  row ∈ selected_targets cfg d rid ->
  row ∈ targets d /\ run_id row = rid /\ status row = "queued".
Proof.
  unfold selected_targets, list_targets. intros Hin.
  assert (Hf : row ∈ List.filter
            (fun r => (run_id r =? rid) && String.eqb (type r) VRBO_TARGET_TYPE
                      && String.eqb (status r) "queued") (targets d)).
  { destruct (0 <? VRBO_MAX_DETAIL_TARGETS cfg); [|done].
    eapply elem_of_sublist; [exact Hin|apply sublist_take]. }
  apply list_elem_of_In, filter_In in Hf as [Hin' Hp].
  apply andb_true_iff in Hp as [Hp Hst].
  apply andb_true_iff in Hp as [Hr _].
  split; [by apply list_elem_of_In|].
  split; [by apply Z.eqb_eq|by apply String.eqb_eq].
Qed.

(** [process_detail_targets] in one equation, for a store whose target
    ids are pairwise different. *)
Lemma process_detail_targets_spec cfg browser d rid :
  NoDup (map id (targets d)) ->
  process_detail_targets cfg browser d rid
  = (mkLocalDB
       (map (retag (statuses_from browser 0 (selected_targets cfg d rid)))
            (targets d))
       (next_target_id d)
       (results d ++ rentals_from browser 0 (selected_targets cfg d rid)),
     events_from browser 0 (selected_targets cfg d rid)).
Proof.
  intros Hnd. unfold process_detail_targets.
  rewrite (detail_loop_spec browser rid _ 0 d [] [] (targets d)); [done| |done|].
  - simpl. by rewrite map_id.
  - simpl. by apply selected_targets_NoDup.
Qed.

(** The final row of a selected target. *)
Lemma selected_row_final cfg browser d rid (j k : nat) row :
  NoDup (map id (targets d)) ->
  selected_targets cfg d rid !! j = Some row ->
  targets d !! k = Some row ->
  targets (process_detail_targets cfg browser d rid).1 !! k
  = Some (set_status (outcome_status (browser j (row_full_url row)) row) row).
Proof.
  intros Hnd Hj Hk. rewrite process_detail_targets_spec by done. simpl.
  change (map ?f ?l) with (f <$> l). rewrite list_lookup_fmap, Hk. simpl.
  f_equal. apply (retag_lookup _ j).
  - rewrite statuses_from_keys. by apply selected_targets_NoDup.
  - unfold statuses_from. by rewrite list_lookup_imap, Hj.
Qed.

Lemma outcome_events_gets (page : DetailPage Data) row :
  List.filter is_get (outcome_events page row) = [EvGet (row_full_url row)].
Proof.
  unfold outcome_events, scrape_detail_page, pause_if_blocked.
  destruct (get_raises page); [done|].
  destruct (heading_appears page), (log_raises page), (source_raises page),
    (is_blocked (page_source page)), (input_raises page), (extraction page);
    reflexivity.
Qed.

(** One navigation per selected row, in order. *)
Lemma events_from_gets browser n rows :
  List.filter is_get (events_from browser n rows)
  = map (fun r => EvGet (row_full_url r)) rows.
Proof.
  revert n. induction rows as [|r rows IH]; intros n; [done|].
  rewrite events_from_cons, List.filter_app, outcome_events_gets, IH. done.
Qed.
End DetailRun.

(** C8. In a store whose target ids are pairwise different, let a selected
    queued target raise while its detail page is scraped. Then
    [process_detail_targets] leaves that target with the status error and
    its other fields as they were; the turn of the loop for it appends no
    record, whatever the store it runs on, and the target contributes no
    record to the results; the run navigates once to each selected target,
    each selected once, and so does not retry it; and every selected
    target, those after the failing one too, ends with the status of its
    own outcome: done, empty or error. *)
Theorem detail_exception_marks_error {Data : Type} (cfg : Config)
    (browser : nat -> string -> DetailPage Data) (d : LocalDB Data) (rid : Z)
    (i : nat) (row : Target) (e : PyExc) :
  NoDup (map id (targets d)) ->
  selected_targets cfg d rid !! i = Some row ->
  scrape_row (browser i (row_full_url row)) row = Raise e ->
  let sel := selected_targets cfg d rid in
  let r := process_detail_targets cfg browser d rid in
  row ∈ targets d /\ status row = "queued" /\
  (forall k : nat, targets d !! k = Some row ->
     exists row' : Target,
       targets r.1 !! k = Some row' /\ status row' = "error" /\
       id row' = id row /\ run_id row' = run_id row /\
       type row' = type row /\ value row' = value row /\
       url row' = url row) /\
  (forall d0 : LocalDB Data,
     results (process_row (browser i (row_full_url row)) rid d0 row).1
     = results d0) /\
  outcome_rentals (browser i (row_full_url row)) row = [] /\
  results r.1 = results d ++ rentals_from browser 0 sel /\
  NoDup (map id sel) /\
  List.filter is_get r.2 = map (fun t => EvGet (row_full_url t)) sel /\
  (forall (j k : nat) (row' : Target),
     sel !! j = Some row' -> targets d !! k = Some row' ->
     exists row'' : Target,
       targets r.1 !! k = Some row'' /\
       status row''
       = match scrape_row (browser j (row_full_url row')) row' with
         | Return (Some _, _) => "done"
         | Return (None, _) => "empty"
         | Raise _ => "error"
         end /\
       id row'' = id row' /\ run_id row'' = run_id row' /\
       type row'' = type row' /\ value row'' = value row' /\
       url row'' = url row').
Proof.
  intros Hnd Hi He sel r.
  assert (Hin : row ∈ sel) by by apply list_elem_of_lookup_2 with i.
  destruct (selected_targets_queued cfg d rid row Hin) as (Hd & _ & Hq).
  split; [done|]. split; [done|].
  split.
  { intros k Hk. exists (set_status "error" row). split; [|done].
    unfold r. rewrite (selected_row_final cfg browser d rid i k row) by done.
    unfold outcome_status. by rewrite He. }
  split.
  { intros d0. rewrite process_row_spec. cbn [fst results].
    unfold outcome_rentals. rewrite He. apply app_nil_r. }
  split; [unfold outcome_rentals; by rewrite He|].
  split; [unfold r; by rewrite process_detail_targets_spec|].
  split; [by apply selected_targets_NoDup|].
  split.
  { unfold r. rewrite process_detail_targets_spec by done.
    apply events_from_gets. }
  intros j k row' Hj Hk.
  exists (set_status (outcome_status (browser j (row_full_url row')) row')
                     row').
  split; [by apply selected_row_final|]. done.
Qed.

(** C3, as amended. When the navigation succeeds, no heading selector
    matches within the wait, and the calls of the handler return (the
    reads of [driver.current_url], [driver.title] and [driver.page_source]
    and, on a block page, [input()]), [scrape_detail_page] returns the pair
    (None, None) and does not raise; when one of those calls raises, the
    exception leaves [scrape_detail_page]. A selected queued target whose
    page is of the first kind ends with the status empty, not error, its
    other fields as they were, and the turn of the loop for it appends no
    record; one whose page is of the second kind ends with the status
    error. *)
Theorem detail_no_heading_is_empty {Data : Type} (page : DetailPage Data)
    (clean_url full_url : string) (cfg : Config)
    (browser : nat -> string -> DetailPage Data) (d : LocalDB Data) (rid : Z)
    (i : nat) (row : Target) :
  (get_raises page = None -> heading_appears page = false ->
   (log_raises page = None -> source_raises page = None ->
    (is_blocked (page_source page) = true -> input_raises page = None) ->
    (scrape_detail_page page clean_url full_url).1 = Return (None, None)) /\
   (forall e : PyExc, log_raises page = Some e ->
      (scrape_detail_page page clean_url full_url).1 = Raise e) /\
   (forall e : PyExc, log_raises page = None -> source_raises page = Some e ->
      (scrape_detail_page page clean_url full_url).1 = Raise e) /\
   (forall e : PyExc, log_raises page = None -> source_raises page = None ->
      is_blocked (page_source page) = true -> input_raises page = Some e ->
      (scrape_detail_page page clean_url full_url).1 = Raise e)) /\
  (NoDup (map id (targets d)) ->
   selected_targets cfg d rid !! i = Some row ->
   get_raises (browser i (row_full_url row)) = None ->
   heading_appears (browser i (row_full_url row)) = false ->
   log_raises (browser i (row_full_url row)) = None ->
   source_raises (browser i (row_full_url row)) = None ->
   (is_blocked (page_source (browser i (row_full_url row))) = true ->
    input_raises (browser i (row_full_url row)) = None) ->
   let r := process_detail_targets cfg browser d rid in
   row ∈ targets d /\ status row = "queued" /\
   (forall k : nat, targets d !! k = Some row ->
      exists row' : Target,
        targets r.1 !! k = Some row' /\ status row' = "empty" /\
        status row' <> "error" /\
        id row' = id row /\ run_id row' = run_id row /\
        type row' = type row /\ value row' = value row /\
        url row' = url row) /\
   (forall d0 : LocalDB Data,
      results (process_row (browser i (row_full_url row)) rid d0 row).1
      = results d0) /\
   outcome_rentals (browser i (row_full_url row)) row = [] /\
   results r.1
   = results d ++ rentals_from browser 0 (selected_targets cfg d rid)) /\
  (NoDup (map id (targets d)) ->
   selected_targets cfg d rid !! i = Some row ->
   get_raises (browser i (row_full_url row)) = None ->
   heading_appears (browser i (row_full_url row)) = false ->
   forall e : PyExc,
     log_raises (browser i (row_full_url row)) = Some e \/
     (log_raises (browser i (row_full_url row)) = None /\
      source_raises (browser i (row_full_url row)) = Some e) \/
     (log_raises (browser i (row_full_url row)) = None /\
      source_raises (browser i (row_full_url row)) = None /\
      is_blocked (page_source (browser i (row_full_url row))) = true /\
      input_raises (browser i (row_full_url row)) = Some e) ->
     let r := process_detail_targets cfg browser d rid in
     forall k : nat, targets d !! k = Some row ->
       exists row' : Target,
         targets r.1 !! k = Some row' /\ status row' = "error" /\
         id row' = id row /\ run_id row' = run_id row /\
         type row' = type row /\ value row' = value row /\
         url row' = url row).
Proof.
  assert (Hs : forall (p : DetailPage Data) c f,
             get_raises p = None -> heading_appears p = false ->
             log_raises p = None -> source_raises p = None ->
             (is_blocked (page_source p) = true -> input_raises p = None) ->
             (scrape_detail_page p c f).1 = Return (None, None)).
  { intros p c f Hg Hh Hl Hsrc Hin. unfold scrape_detail_page, pause_if_blocked.
    rewrite Hg, Hh, Hl, Hsrc. cbn [negb].
    destruct (is_blocked (page_source p)); [|done].
    by rewrite Hin. }
  assert (Hr : forall (p : DetailPage Data) c f,
             get_raises p = None -> heading_appears p = false ->
             (forall e : PyExc, log_raises p = Some e ->
                (scrape_detail_page p c f).1 = Raise e) /\
             (forall e : PyExc, log_raises p = None ->
                source_raises p = Some e ->
                (scrape_detail_page p c f).1 = Raise e) /\
             (forall e : PyExc, log_raises p = None ->
                source_raises p = None ->
                is_blocked (page_source p) = true ->
                input_raises p = Some e ->
                (scrape_detail_page p c f).1 = Raise e)).
  { intros p c f Hg Hh.
    unfold scrape_detail_page, pause_if_blocked. rewrite Hg, Hh. cbn [negb].
    split; [by intros e ->|]. split.
    - by intros e -> ->.
    - by intros e -> -> -> ->. }
  split.
  { intros Hg Hh. split; [by apply Hs|by apply Hr]. }
  split; [|
    intros Hnd Hi Hg Hh e He r k Hk;
    exists (set_status "error" row); split; [|done];
    unfold r; rewrite (selected_row_final cfg browser d rid i k row) by done;
    unfold outcome_status, scrape_row;
    destruct (Hr (browser i (row_full_url row)) (value row)
                 (row_full_url row) Hg Hh) as (H1 & H2 & H3);
    destruct He as [He|[[Hl He]|(Hl & Hsrc & Hb & He)]];
      [by rewrite (H1 e)|by rewrite (H2 e)|by rewrite (H3 e)]].
  intros Hnd Hi Hg Hh Hl Hsrc Hinp r.
  assert (Hrow : scrape_row (browser i (row_full_url row)) row
                 = Return (None, None)) by by apply Hs.
  assert (Hin : row ∈ selected_targets cfg d rid)
    by by apply list_elem_of_lookup_2 with i.
  destruct (selected_targets_queued cfg d rid row Hin) as (Hd & _ & Hq).
  split; [done|]. split; [done|].
  split.
  { intros k Hk. exists (set_status "empty" row). split; [|done].
    unfold r. rewrite (selected_row_final cfg browser d rid i k row) by done.
    unfold outcome_status. by rewrite Hrow. }
  split.
  { intros d0. rewrite process_row_spec. cbn [fst results].
    unfold outcome_rentals. rewrite Hrow. apply app_nil_r. }
  split; [unfold outcome_rentals; by rewrite Hrow|].
  unfold r. by rewrite process_detail_targets_spec.
Qed.

(** A run in which the first navigation times out and the second works:
    the first target ends error, the second done. *)
Lemma detail_exception_marks_error_witness :
  (exists row' : Target,
     targets (process_detail_targets default_config timeout_first
                                     two_targets_db 7).1 !! 0%nat
     = Some row' /\
     status row' = "error" /\ id row' = 1 /\
     value row' = "https://www.vrbo.com/p/1") /\
  (exists row'' : Target,
     targets (process_detail_targets default_config timeout_first
                                     two_targets_db 7).1 !! 1%nat
     = Some row'' /\
     status row'' = "done" /\ id row'' = 2).
Proof.
  destruct (detail_exception_marks_error default_config timeout_first
              two_targets_db 7 0 first_target WebDriverException)
    as (_ & _ & Hk & _ & _ & _ & _ & _ & Hall).
  - apply (bool_decide_unpack _). vm_compute. exact I.
  - reflexivity.
  - reflexivity.
  - split.
    + destruct (Hk 0%nat eq_refl) as (row' & Hl & Hst & Hid & _ & _ & Hv & _).
      exists row'. by repeat split.
    + destruct (Hall 1%nat 1%nat
                  (mkTarget 2 7 "vrbo_detail" "https://www.vrbo.com/p/2"
                            "/p/2" "queued") eq_refl eq_refl)
        as (row'' & Hl & Hst & Hid & _).
      exists row''. by repeat split.
Defined.

(** A run whose first page never shows a heading. *)
Lemma detail_no_heading_is_empty_witness :
  (scrape_detail_page no_heading_page "https://www.vrbo.com/p/1" "/p/1?x=1").1
  = Return (None, None) /\
  (exists row' : Target,
     targets (process_detail_targets default_config no_heading_first
                                     two_targets_db 7).1 !! 0%nat
     = Some row' /\
     status row' = "empty" /\ id row' = 1 /\
     value row' = "https://www.vrbo.com/p/1") /\
  (exists row' : Target,
     targets (process_detail_targets default_config closed_stdin_first
                                     two_targets_db 7).1 !! 0%nat
     = Some row' /\
     status row' = "error" /\ id row' = 1).
Proof.
  destruct (detail_no_heading_is_empty no_heading_page
              "https://www.vrbo.com/p/1" "/p/1?x=1" default_config
              no_heading_first two_targets_db 7 0 first_target)
    as (Hs & Hp & _).
  destruct (detail_no_heading_is_empty no_heading_page
              "https://www.vrbo.com/p/1" "/p/1?x=1" default_config
              closed_stdin_first two_targets_db 7 0 first_target)
    as (_ & _ & He).
  split; [|split].
  - apply Hs; (reflexivity || discriminate).
  - destruct Hp as (_ & _ & Hk & _).
    + apply (bool_decide_unpack _). vm_compute. exact I.
    + reflexivity.
    + reflexivity.
    + reflexivity.
    + reflexivity.
    + reflexivity.
    + discriminate.
    + destruct (Hk 0%nat eq_refl)
        as (row' & Hl & Hst & _ & Hid & _ & _ & Hv & _).
      exists row'. by repeat split.
  - assert (Hnd : NoDup (map id (targets two_targets_db)))
      by (apply (bool_decide_unpack _); vm_compute; exact I).
    assert (Hin : log_raises (closed_stdin_first 0 (row_full_url first_target))
                  = Some EOFError \/
                  (log_raises (closed_stdin_first 0 (row_full_url first_target))
                   = None /\
                   source_raises
                     (closed_stdin_first 0 (row_full_url first_target))
                   = Some EOFError) \/
                  (log_raises (closed_stdin_first 0 (row_full_url first_target))
                   = None /\
                   source_raises
                     (closed_stdin_first 0 (row_full_url first_target))
                   = None /\
                   is_blocked
                     (page_source
                        (closed_stdin_first 0 (row_full_url first_target)))
                   = true /\
                   input_raises
                     (closed_stdin_first 0 (row_full_url first_target))
                   = Some EOFError))
      by (right; right; repeat split; reflexivity).
    destruct (He Hnd eq_refl eq_refl eq_refl EOFError Hin 0%nat eq_refl)
      as (row' & Hl & Hst & Hid & _).
    exists row'. by repeat split.
Defined.

(** C3, as stated, fails: a page whose heading never appears can make
    [scrape_detail_page] raise, and its target then ends error. On a block
    page met with the standard input closed, [input()] raises in the
    handler of the wait; in a browser whose window is gone, the read of
    [driver.current_url] for the log raises there. *)
Lemma detail_no_heading_counterexample :
  ~ (forall (page : DetailPage unit) (clean_url full_url : string),
       get_raises page = None -> heading_appears page = false ->
       (scrape_detail_page page clean_url full_url).1 = Return (None, None)) /\
  get_raises closed_stdin_page = None /\
  heading_appears closed_stdin_page = false /\
  (scrape_detail_page closed_stdin_page "https://www.vrbo.com/p/1"
                      "/p/1?x=1").1 = Raise EOFError /\
  (scrape_detail_page lost_window_page "https://www.vrbo.com/p/1"
                      "/p/1?x=1").1 = Raise WebDriverException /\
  targets (process_detail_targets default_config closed_stdin_first
                                  two_targets_db 7).1 !! 0%nat
  = Some (mkTarget 1 7 "vrbo_detail" "https://www.vrbo.com/p/1" "/p/1?x=1"
                   "error").
Proof.
  split.
  { intros Hc.
    specialize (Hc closed_stdin_page "https://www.vrbo.com/p/1" "/p/1?x=1"
                   eq_refl eq_refl).
    vm_compute in Hc. discriminate. }
  repeat split; vm_compute; reflexivity.
Qed.

(** Five new URLs on page 1, then a page without cards and without block
    marker: the loop stops after page 2 with five queued targets. *)
Lemma run_city_stop_rule_witness :
  exists st' tr added,
    pagination (H := lenient_tables) unlimited_config 7
      [five_cards_view; example_view_empty] start_loop [] = (true, st', tr) /\
    page_num st' = 2 /\
    targets (db st') = targets (new_db (Data := unit)) ++ added /\
    length added = 5%nat /\
    Forall (fun t => status t = "queued" /\ run_id t = 7) added.
Proof.
  destruct (run_city_stop_rule (H := lenient_tables) unlimited_config 7
              start_loop block_view new_db five_cards_view
              example_view_empty [])
    as (_ & _ & _ & Hs).
  apply Hs.
  - vm_compute. reflexivity.
  - reflexivity.
  - left. simpl. lia.
  - vm_compute. reflexivity.
  - intros _. vm_compute. reflexivity.
Defined.

(** C2, as stated, fails in both of its parts. A page that shows only
    cards already seen adds no target and stops the loop without any
    block-page check; and a page that shows no card but carries a block
    marker adds no target and does not stop the loop. *)
Lemma run_city_stop_rule_counterexample :
  ~ (forall (T : NetlocTables) (cfg : Config) (rid : Z) (st : Loop unit)
            (v : PageView),
       new_count rid st v = 0 ->
       exists b, EvIsBlocked b ∈ (page_step cfg rid st v).2) /\
  ~ (forall (T : NetlocTables) (cfg : Config) (rid : Z) (st : Loop unit)
            (v : PageView),
       (page_step cfg rid st v).1.1 = Break <->
       new_count rid st v = 0 \/ max_pages_reached cfg st = true \/
       view_next v = false).
Proof.
  split.
  - intros Hc.
    destruct (Hc lenient_tables unlimited_config 7
                 (page_step (H := lenient_tables) unlimited_config 7 start_loop
                            five_cards_view).1.2
                 repeated_cards_view) as [b Hb].
    + vm_compute. reflexivity.
    + vm_compute in Hb. set_solver.
  - intros Hc.
    destruct (Hc lenient_tables unlimited_config 7 start_loop block_view)
      as [_ Hstop].
    assert (Hbreak : (page_step (H := lenient_tables) unlimited_config 7
                                start_loop block_view).1.1 = Break).
    { apply Hstop. left. vm_compute. reflexivity. }
    vm_compute in Hbreak. discriminate.
Qed.

(* ===================================================================== *)
(** * Properties of ensure_dates                                           *)
(* ===================================================================== *)

Lemma date_add_days_in_range (d n : Z) :
  Z.abs n <= MAX_DELTA_DAYS -> 1 <= d + n <= MAXORDINAL ->
  date_add_days d n = Return (d + n).
Proof.
  intros Hn [Hlo Hhi]. unfold date_add_days.
  destruct (Z.leb_spec (Z.abs n) MAX_DELTA_DAYS); [|lia].
  destruct (Z.leb_spec 1 (d + n)); [|lia].
  destruct (Z.leb_spec (d + n) MAXORDINAL); [done|lia].
Qed.

Lemma force_tomorrow_in_range (today : Z) (c : CityCfg) :
  1 <= today -> today + 1 + Z.max 1 (nights c) <= MAXORDINAL ->
  _force_tomorrow_dates today c
  = Return (set_dates c (isoformat (today + 1))
                      (isoformat (today + 1 + Z.max 1 (nights c)))).
Proof.
  intros Hlo Hhi. unfold _force_tomorrow_dates.
  assert (Hm : MAXORDINAL = 3652059) by reflexivity.
  assert (Hd : MAX_DELTA_DAYS = 999999999) by reflexivity.
  rewrite date_add_days_in_range by lia. simpl.
  rewrite date_add_days_in_range by lia. done.
Qed.

(** C5, as amended. When force-tomorrow is enabled, or a date is missing
    (None or empty), and the day after the stay still is a date of the
    calendar (at most 9999-12-31), [ensure_dates] returns a config whose
    check-in is the ISO form of today + 1 day and whose check-out is that
    of check-in + max(1, nights) days, whatever dates the config had, and
    whose other fields are those of the config. When force-tomorrow is
    disabled and both dates are present, the config is returned
    unchanged. *)
Theorem ensure_dates_spec (cfg : Config) (today : Z) (c : CityCfg) :
  (VRBO_FORCE_TOMORROW cfg = true \/ truthy (checkin c) = false \/
   truthy (checkout c) = false ->
   1 <= today -> today + 1 + Z.max 1 (nights c) <= MAXORDINAL ->
   exists c' : CityCfg,
     ensure_dates cfg today c = Return c' /\
     checkin c' = Some (isoformat (today + 1)) /\
     checkout c' = Some (isoformat (today + 1 + Z.max 1 (nights c))) /\
     name c' = name c /\ region_name c' = region_name c /\
     region_id c' = region_id c /\ search_url c' = search_url c /\
     adults c' = adults c /\ children c' = children c /\
     rooms c' = rooms c /\ currency c' = currency c /\
     locale c' = locale c /\ lang c' = lang c /\ nights c' = nights c /\
     sort c' = sort c /\ flexibility c' = flexibility c) /\
  (VRBO_FORCE_TOMORROW cfg = false -> truthy (checkin c) = true ->
   truthy (checkout c) = true ->
   ensure_dates cfg today c = Return c).
Proof.
  unfold ensure_dates. split.
  - intros Hcase Hlo Hhi.
    exists (set_dates c (isoformat (today + 1))
                      (isoformat (today + 1 + Z.max 1 (nights c)))).
    split; [|done].
    rewrite <- force_tomorrow_in_range by done.
    destruct (VRBO_FORCE_TOMORROW cfg); [done|].
    destruct Hcase as [?|[->| ->]]; [done|done|]. simpl.
    by rewrite orb_true_r.
  - intros -> -> ->. done.
Qed.

(** On 2026-11-03, a config with stale dates and two nights. *)
Lemma ensure_dates_spec_witness :
  (exists c' : CityCfg,
     ensure_dates default_config 739923 stale_city = Return c' /\
     checkin c' = Some "2026-11-04" /\ checkout c' = Some "2026-11-06" /\
     name c' = "Bogota" /\ nights c' = 2) /\
  ensure_dates (mkConfig false 1 0) 739923 stale_city = Return stale_city /\
  checkin stale_city = Some "2020-01-01".
Proof.
  split; [|split; [|reflexivity]].
  - destruct (proj1 (ensure_dates_spec default_config 739923 stale_city))
      as (c' & Hrun & Hci & Hco & Hname & _ & _ & _ & _ & _ & _ & _ & _ & _
          & Hn & _).
    + left. reflexivity.
    + vm_compute. discriminate.
    + vm_compute. discriminate.
    + exists c'. split; [exact Hrun|]. rewrite Hci, Hco, Hname, Hn.
      repeat split; vm_compute; reflexivity.
  - apply (proj2 (ensure_dates_spec (mkConfig false 1 0) 739923 stale_city));
      reflexivity.
Defined.

(** C5, as stated, fails: the dates are [datetime.date] values, which end
    at 9999-12-31. With force-tomorrow enabled and four million nights the
    date arithmetic raises [OverflowError]: [ensure_dates] returns no
    config, and no date is set. *)
Lemma ensure_dates_counterexample :
  ~ (forall (cfg : Config) (today : Z) (c : CityCfg),
       1 <= today <= MAXORDINAL ->
       VRBO_FORCE_TOMORROW cfg = true ->
       exists c' : CityCfg,
         ensure_dates cfg today c = Return c' /\
         checkin c' = Some (isoformat (today + 1))) /\
  ensure_dates default_config 739923 endless_city = Raise OverflowError.
Proof.
  assert (Hr : ensure_dates default_config 739923 endless_city
               = Raise OverflowError) by (vm_compute; reflexivity).
  split; [|exact Hr].
  intros Hc.
  destruct (Hc default_config 739923 endless_city) as (c' & Hrun & _).
  - vm_compute. split; discriminate.
  - reflexivity.
  - rewrite Hr in Hrun. discriminate.
Qed.

(* ===================================================================== *)
(** * Properties of parse_price_amount                                     *)
(* ===================================================================== *)

Section PriceFacts.
Implicit Types (s pre run post : string) (p : ascii -> bool).

Lemma span_run p run post :
  str_forallb p run = true -> stops p post ->
  span p (run +:+ post) = (run, post).
Proof.
  intros Hrun Hpost. induction run as [|c run IH]; simpl in *.
  - destruct post as [|c post]; simpl in *; [done|]. by rewrite Hpost.
  - apply andb_true_iff in Hrun as [-> Hrun]. by rewrite IH.
Qed.

Lemma search_price_none s :
  str_existsb is_digit s = false -> search_price s = None.
Proof.
  induction s as [|c s IH]; simpl; [done|].
  intros [-> Hs]%orb_false_iff. by apply IH.
Qed.

Lemma search_price_skip pre s :
  str_existsb is_digit pre = false ->
  search_price (pre +:+ s) = search_price s.
Proof.
  induction pre as [|c pre IH]; simpl; [done|].
  intros [-> Hs]%orb_false_iff. by apply IH.
Qed.

Lemma search_price_run pre c run post :
  str_existsb is_digit pre = false -> is_digit c = true ->
  str_forallb is_price_char run = true -> stops is_price_char post ->
  search_price (pre +:+ String c run +:+ post) = Some (String c run).
Proof.
  intros Hpre Hc Hrun Hpost. rewrite search_price_skip by done. simpl.
  by rewrite Hc, span_run.
Qed.

Lemma nonempty_app_cons pre c s : nonempty (pre +:+ String c s) = true.
Proof. by destruct pre. Qed.

Lemma digits_value_shift acc s :
  digits_value acc s
  = acc * 10 ^ Z.of_nat (String.length s) + digits_value 0 s.
Proof.
  revert acc. induction s as [|c s IH]; intros acc.
  - simpl. lia.
  - cbn [digits_value String.length]. rewrite (IH (10 * acc + _)), (IH (10 * 0 + _)).
    rewrite Nat2Z.inj_succ, Z.pow_succ_r by lia. lia.
Qed.

Lemma digits_value_app a b :
  digits_value 0 (a +:+ b)
  = digits_value 0 a * 10 ^ Z.of_nat (String.length b) + digits_value 0 b.
Proof.
  assert (Hg : forall acc, digits_value acc (a +:+ b)
                           = digits_value (digits_value acc a) b).
  { induction a as [|c a IH]; intros acc; simpl; [done|]. apply IH. }
  rewrite Hg. apply digits_value_shift.
Qed.

Lemma split_once_digits_dot ip fp :
  str_forallb is_digit ip = true ->
  split_once "." (ip +:+ String "." fp) = (ip, Some fp).
Proof.
  intros Hip. unfold split_once.
  rewrite (span_run _ ip (String "." fp)); [done| |done].
  clear fp. induction ip as [|c ip IH]; simpl in *; [done|].
  apply andb_true_iff in Hip as [Hc Hip]. rewrite IH by done.
  rewrite andb_true_r. destruct (Ascii.eqb_spec c "."); [|done].
  subst c. done.
Qed.

(** The value of a literal with an integer part and a fraction. *)
Lemma float_of_str_decimal ip fp :
  nonempty ip = true -> str_forallb is_digit ip = true ->
  str_forallb is_digit fp = true ->
  exists q,
    float_of_str (ip +:+ String "." fp) = Some q /\
    (q == inject_Z (digits_value 0 ip)
          + (digits_value 0 fp
             # Z.to_pos (10 ^ Z.of_nat (String.length fp))))%Q.
Proof.
  intros Hne Hip Hfp. unfold float_of_str.
  rewrite split_once_digits_dot by done. rewrite Hne, Hip, Hfp. simpl.
  eexists. split; [reflexivity|]. rewrite Qred_correct.
  rewrite digits_value_app. unfold Qeq, Qplus, inject_Z. simpl.
  set (k := 10 ^ Z.of_nat (String.length fp)).
  assert (Hk : 0 < k) by (apply Z.pow_pos_nonneg; lia).
  rewrite Pos.mul_1_l. rewrite !Z2Pos.id by done. lia.
Qed.
End PriceFacts.

(** C4. [parse_price_amount] maps the text 1.234,56 USD to 1234.56, and
    the empty string, None and every text without a digit to None. For
    every text it takes the run that starts at the first digit and extends
    over digits, dots and commas as far as possible, removes the dots,
    turns the commas into decimal points and reads the result as a number;
    digits, a point and digits read as integer part plus fraction. *)
Theorem parse_price_amount_spec :
  (exists q, parse_price_amount (Some "1.234,56 USD") = Some q /\
             (q == 1234.56)%Q) /\
  parse_price_amount (Some EmptyString) = None /\
  parse_price_amount None = None /\
  parse_price_amount (Some "no digits") = None /\
  (forall text : string,
     str_existsb is_digit text = false ->
     parse_price_amount (Some text) = None) /\
  (forall (pre : string) (c : ascii) (run post : string),
     str_existsb is_digit pre = false -> is_digit c = true ->
     str_forallb is_price_char run = true -> stops is_price_char post ->
     parse_price_amount (Some (pre +:+ String c run +:+ post))
     = float_of_str (commas_to_dots (remove_dots (String c run)))) /\
  (forall ip fp : string,
     nonempty ip = true -> str_forallb is_digit ip = true ->
     str_forallb is_digit fp = true ->
     exists q,
       float_of_str (ip +:+ String "." fp) = Some q /\
       (q == inject_Z (digits_value 0 ip)
             + (digits_value 0 fp
                # Z.to_pos (10 ^ Z.of_nat (String.length fp))))%Q).
Proof.
  split; [exists (Qred 1234.56); split; [vm_compute; reflexivity|
                                         apply Qred_correct]|].
  do 3 (split; [reflexivity|]).
  split.
  { intros text Hd. unfold parse_price_amount.
    destruct (truthy (Some text)); [|done]. simpl.
    by rewrite search_price_none. }
  split; [|apply float_of_str_decimal].
  intros pre c run post Hpre Hc Hrun Hpost.
  unfold parse_price_amount, truthy. cbv [default from_option Datatypes.id].
  rewrite search_price_run by done.
  change (String c run +:+ post) with (String c (run +:+ post)).
  by rewrite nonempty_app_cons.
Qed.

(** The price 1.234,56 USD, cut into its run and what follows it. *)
Lemma parse_price_amount_spec_witness :
  parse_price_amount (Some "1.234,56 USD") = float_of_str "1234.56" /\
  exists q, float_of_str "1234.56" = Some q /\
            (q == inject_Z 1234 + (56 # 100))%Q.
Proof.
  destruct parse_price_amount_spec as (_ & _ & _ & _ & _ & Hrun & Hval).
  split.
  - apply (Hrun EmptyString "1"%char ".234,56" " USD"); reflexivity.
  - apply (Hval "1234" "56"); reflexivity.
Defined.

(* ===================================================================== *)
(** * Facts on characters and strings                                      *)
(* ===================================================================== *)

#[local] Arguments String.append !_ _ / : simpl nomatch.

Lemma alpha_not_c0 c : is_alpha c = true -> is_c0_or_space c = false.
Proof. by_bytes c. Qed.

Lemma scheme_char_safe c : is_scheme_char c = true -> is_safe c = true.
Proof. by_bytes c. Qed.

Lemma scheme_char_not_colon c :
  is_scheme_char c = true -> not_char ":" c = true.
Proof. by_bytes c. Qed.

Lemma scheme_char_not_hash c :
  is_scheme_char c = true -> not_char "#" c = true.
Proof. by_bytes c. Qed.

Lemma scheme_char_not_question c :
  is_scheme_char c = true -> not_char "?" c = true.
Proof. by_bytes c. Qed.

Lemma lower_char_scheme c :
  is_scheme_char c = true -> is_scheme_char (lower_char c) = true.
Proof. by_bytes c. Qed.

Lemma lower_char_alpha c :
  is_ascii c && is_alpha c = true ->
  is_ascii (lower_char c) && is_alpha (lower_char c) = true.
Proof. by_bytes c. Qed.

Lemma lower_char_idem c : lower_char (lower_char c) = lower_char c.
Proof. by_bytes c. Qed.

Lemma not_delim_not_hash c : not_delim c = true -> not_char "#" c = true.
Proof. by_bytes c. Qed.

Lemma not_delim_not_question c :
  not_delim c = true -> not_char "?" c = true.
Proof. by_bytes c. Qed.

Section StringFacts.
Implicit Types (s a b : string) (p q : ascii -> bool) (d : ascii).

Lemma append_nil_r s : s +:+ EmptyString = s.
Proof. induction s as [|c s IH]; simpl; [done|by rewrite IH]. Qed.

Lemma append_assoc a b s : (a +:+ b) +:+ s = a +:+ b +:+ s.
Proof. induction a as [|c a IH]; simpl; [done|by rewrite IH]. Qed.

Lemma str_forallb_app p a b :
  str_forallb p (a +:+ b) = str_forallb p a && str_forallb p b.
Proof.
  induction a as [|c a IH]; simpl; [done|]. by rewrite IH, andb_assoc.
Qed.

Lemma str_forallb_impl p q s :
  (forall c, p c = true -> q c = true) ->
  str_forallb p s = true -> str_forallb q s = true.
Proof.
  intros Hpq. induction s as [|c s IH]; simpl; [done|].
  intros [Hc Hs]%andb_true_iff. by rewrite (Hpq c Hc), IH.
Qed.

Lemma str_filter_forallb p s : str_forallb p (str_filter p s) = true.
Proof.
  induction s as [|c s IH]; simpl; [done|].
  destruct (p c) eqn:Hc; simpl; [by rewrite Hc|done].
Qed.

Lemma str_filter_id p s :
  str_forallb p s = true -> str_filter p s = s.
Proof.
  induction s as [|c s IH]; simpl; [done|].
  intros [-> Hs]%andb_true_iff. by rewrite IH.
Qed.

Lemma str_map_idem (f : ascii -> ascii) s :
  (forall c, f (f c) = f c) -> str_map f (str_map f s) = str_map f s.
Proof.
  intros Hf. induction s as [|c s IH]; simpl; [done|]. by rewrite Hf, IH.
Qed.

Lemma str_forallb_map p (f : ascii -> ascii) s :
  (forall c, p c = true -> p (f c) = true) ->
  str_forallb p s = true -> str_forallb p (str_map f s) = true.
Proof.
  intros Hf. induction s as [|c s IH]; simpl; [done|].
  intros [Hc Hs]%andb_true_iff. by rewrite (Hf c Hc), IH.
Qed.

(** [span]: the prefix satisfies [p], the rest stops, and both parts
    keep any property of all characters. *)
Lemma span_fst p s : str_forallb p (span p s).1 = true.
Proof.
  induction s as [|c s IH]; simpl; [done|].
  destruct (p c) eqn:Hc; [|done].
  destruct (span p s) as [a b]. simpl in *. by rewrite Hc.
Qed.

Lemma span_snd p s : stops p (span p s).2.
Proof.
  induction s as [|c s IH]; simpl; [done|].
  destruct (p c) eqn:Hc; [|done]. by destruct (span p s) as [a b].
Qed.

Lemma span_keeps q p s :
  str_forallb q s = true ->
  str_forallb q (span p s).1 = true /\ str_forallb q (span p s).2 = true.
Proof.
  induction s as [|c s IH]; simpl; [done|].
  intros [Hc Hs]%andb_true_iff. destruct (p c).
  - destruct (span p s) as [a b]. simpl in *. rewrite Hc.
    by destruct (IH Hs).
  - simpl. by rewrite Hc, Hs.
Qed.

Lemma split_once_fst d s :
  str_forallb (not_char d) (split_once d s).1 = true.
Proof.
  unfold split_once.
  pose proof (span_fst (fun c => negb (Ascii.eqb c d)) s) as Hf.
  destruct (span _ s) as [a [|c b]]; done.
Qed.

Lemma split_once_keeps q d s :
  str_forallb q s = true ->
  str_forallb q (split_once d s).1 = true /\
  str_forallb q (default EmptyString (split_once d s).2) = true.
Proof.
  intros Hs. unfold split_once.
  destruct (span_keeps q (fun c => negb (Ascii.eqb c d)) s Hs) as [Ha Hb].
  destruct (span _ s) as [a [|c b]]; simpl in *; [done|].
  by apply andb_true_iff in Hb as [_ Hb].
Qed.

Lemma split_once_absent d s :
  str_forallb (not_char d) s = true -> split_once d s = (s, None).
Proof.
  intros Hs. unfold split_once.
  rewrite <- (append_nil_r s) at 1.
  by rewrite (span_run _ s EmptyString).
Qed.

Lemma split_once_at d a b :
  str_forallb (not_char d) a = true ->
  split_once d (a +:+ String d b) = (a, Some b).
Proof.
  intros Ha. unfold split_once.
  rewrite (span_run _ a (String d b)); [done|done|].
  simpl. by rewrite Ascii.eqb_refl.
Qed.

Lemma has_char_false d s :
  has_char d s = false <-> str_forallb (not_char d) s = true.
Proof.
  unfold has_char, not_char. induction s as [|c s IH]; simpl; [done|].
  rewrite orb_false_iff, andb_true_iff, IH, negb_true_iff.
  by rewrite (Ascii.eqb_sym d c).
Qed.
End StringFacts.

(* ===================================================================== *)
(** * Properties of urlparse and clean_url                                 *)
(* ===================================================================== *)

Section SchemeFacts.
Implicit Types (s sch rest : string).

Lemma lower_idem s : lower (lower s) = lower s.
Proof. apply str_map_idem, lower_char_idem. Qed.

Lemma scheme_ok_lower c0 pre :
  is_ascii c0 && is_alpha c0 = true ->
  str_forallb is_scheme_char (String c0 pre) = true ->
  scheme_ok (lower (String c0 pre)) = true.
Proof.
  intros Hc Hall.
  assert (Hl : str_forallb is_scheme_char (lower (String c0 pre)) = true)
    by (by apply str_forallb_map; [apply lower_char_scheme|]).
  assert (He : String.eqb (lower (lower (String c0 pre)))
                          (lower (String c0 pre)) = true)
    by (rewrite lower_idem; apply String.eqb_refl).
  revert Hl He.
  change (lower (String c0 pre)) with (String (lower_char c0) (lower pre)).
  intros Hl He. unfold scheme_ok.
  by rewrite (lower_char_alpha c0 Hc), Hl, He.
Qed.

(** [take_scheme] returns no scheme and the text itself, or a scheme as
    [scheme_ok] describes it. *)
Lemma take_scheme_cases s :
  (take_scheme s = (EmptyString, s)) \/
  scheme_ok (take_scheme s).1 = true.
Proof.
  unfold take_scheme.
  destruct (split_once ":" s) as [[|c0 pre] [rest|]]; try by left.
  destruct (is_ascii c0 && is_alpha c0) eqn:Hc; [|by left].
  destruct (str_forallb is_scheme_char (String c0 pre)) eqn:Hall;
    [|by left].
  right. simpl. by apply scheme_ok_lower.
Qed.

Lemma take_scheme_keeps q s :
  str_forallb q s = true -> str_forallb q (take_scheme s).2 = true.
Proof.
  intros Hs. unfold take_scheme.
  destruct (split_once_keeps q ":" s Hs) as [_ Hrest].
  destruct (split_once ":" s) as [[|c0 pre] [rest|]]; try done.
  destruct (is_ascii c0 && is_alpha c0); [|done].
  by destruct (str_forallb is_scheme_char (String c0 pre)).
Qed.

Lemma scheme_ok_parts sch :
  scheme_ok sch = true ->
  exists c0 pre,
    sch = String c0 pre /\ is_ascii c0 && is_alpha c0 = true /\
    str_forallb is_scheme_char sch = true /\ lower sch = sch.
Proof.
  unfold scheme_ok. destruct sch as [|c0 pre]; [done|].
  intros [[Hc Hall]%andb_true_iff Hl%String.eqb_eq]%andb_true_iff.
  by exists c0, pre.
Qed.

(** A well-formed scheme in front of a colon is found again. *)
Lemma take_scheme_canonical sch rest :
  scheme_ok sch = true ->
  take_scheme (sch +:+ String ":" rest) = (sch, rest).
Proof.
  intros (c0 & pre & -> & Hc & Hall & Hl)%scheme_ok_parts.
  unfold take_scheme. rewrite split_once_at.
  - by rewrite Hc, Hall, Hl.
  - eapply str_forallb_impl; [apply scheme_char_not_colon|done].
Qed.
End SchemeFacts.

Section ParamsFacts.
Implicit Types (s p : string).

Lemma strip_params_slash s :
  has_char "/" (strip_params s) = has_char "/" s.
Proof.
  induction s as [|c s IH]; [done|]. cbn [strip_params].
  destruct (has_char "/" s) eqn:Hs.
  - unfold has_char in *. simpl. by rewrite IH, Hs.
  - destruct (Ascii.eqb_spec c ";") as [->|Hc].
    + unfold has_char in *. simpl. by rewrite Hs.
    + unfold has_char in *. simpl. by rewrite IH, Hs.
Qed.

Lemma strip_params_idem s :
  strip_params (strip_params s) = strip_params s.
Proof.
  induction s as [|c s IH]; [done|]. cbn [strip_params].
  destruct (has_char "/" s) eqn:Hs.
  - cbn [strip_params]. by rewrite strip_params_slash, Hs, IH.
  - destruct (Ascii.eqb_spec c ";") as [->|Hc]; [done|].
    cbn [strip_params]. rewrite strip_params_slash, Hs, IH.
    by destruct (Ascii.eqb_spec c ";").
Qed.

Lemma strip_params_no_semicolon s :
  has_char ";" s = false -> strip_params s = s.
Proof.
  induction s as [|c s IH]; [done|]. unfold has_char at 1.
  cbn [str_existsb strip_params].
  intros [Hc Hs]%orb_false_iff. rewrite (IH Hs).
  rewrite Ascii.eqb_sym, Hc. by destruct (has_char "/" s).
Qed.

Lemma strip_params_fixed_params s :
  strip_params s = s -> params_of s = EmptyString.
Proof.
  induction s as [|c s IH]; [done|]. cbn [strip_params params_of].
  destruct (has_char "/" s).
  - intros [= Hs]. by apply IH.
  - destruct (Ascii.eqb c ";"); [done|]. intros [= Hs]. by apply IH.
Qed.

Lemma strip_params_keeps q s :
  str_forallb q s = true -> str_forallb q (strip_params s) = true.
Proof.
  induction s as [|c s IH]; [done|]. cbn [strip_params]. simpl.
  intros [Hc Hs]%andb_true_iff. destruct (has_char "/" s).
  - simpl. by rewrite Hc, IH.
  - destruct (Ascii.eqb c ";"); [done|]. simpl. by rewrite Hc, IH.
Qed.

Lemma strip_params_leading_slash p :
  strip_params p = p -> strip_params (leading_slash p) = leading_slash p.
Proof.
  intros Hp. unfold leading_slash. destruct p as [|c p]; [done|].
  destruct (Ascii.eqb c "/"); [done|].
  change ("/" +:+ String c p) with (String "/" (String c p)).
  cbn [strip_params] in *.
  destruct (has_char "/" (String c p)); simpl; by rewrite Hp.
Qed.

Lemma leading_slash_idem p : leading_slash (leading_slash p) = leading_slash p.
Proof.
  unfold leading_slash. destruct p as [|c p]; [done|].
  destruct (Ascii.eqb c "/") eqn:Hc; [by rewrite Hc|done].
Qed.

Lemma leading_slash_stops p : stops not_delim (leading_slash p).
Proof.
  unfold leading_slash. destruct p as [|c p]; [done|].
  destruct (Ascii.eqb_spec c "/") as [->|Hc]; done.
Qed.

Lemma path_ok_leading_slash p :
  path_ok p = true -> path_ok (leading_slash p) = true.
Proof.
  unfold leading_slash. destruct p as [|c p]; [done|].
  destruct (Ascii.eqb c "/"); [done|]. unfold path_ok.
  change ("/" +:+ String c p) with (String "/" (String c p)).
  intros H. cbn [str_forallb].
  change (not_char "#" "/") with true. change (not_char "?" "/") with true.
  change (is_safe "/") with true. exact H.
Qed.
End ParamsFacts.

Section UrlFacts.
Context `{NetlocTables}.
Implicit Types (url sch nl p href : string).

Lemma strip_prefix_keeps q pre s r :
  strip_prefix pre s = Some r -> str_forallb q s = true ->
  str_forallb q r = true.
Proof.
  revert s. induction pre as [|a pre IH]; intros s; simpl.
  - by intros [= ->].
  - destruct s as [|b s]; [done|]. destruct (Ascii.eqb a b); [|done].
    intros Hr [_ Hs]%andb_true_iff. by apply (IH s).
Qed.

Lemma netloc_ok_empty : netloc_ok EmptyString = true.
Proof. reflexivity. Qed.

Lemma split_rest_good sch nl url s :
  split_rest sch nl url = Return s -> str_forallb is_safe url = true ->
  split_scheme s = sch /\ split_netloc s = nl /\
  path_ok (split_path s) = true /\ checknetloc nl = true.
Proof.
  unfold split_rest. intros Hs Hsafe.
  pose proof (split_once_fst "#" url) as Hh.
  destruct (split_once_keeps is_safe "#" url Hsafe) as [Hs1 _].
  destruct (split_once "#" url) as [u1 frag]. simpl in Hh, Hs1.
  pose proof (split_once_fst "?" u1) as Hq.
  destruct (split_once_keeps is_safe "?" u1 Hs1) as [Hs2 _].
  destruct (split_once_keeps (not_char "#") "?" u1 Hh) as [Hh2 _].
  destruct (split_once "?" u1) as [u2 qry]. simpl in Hq, Hs2, Hh2.
  destruct (checknetloc nl) eqn:Hn; [|done].
  injection Hs as <-. simpl. unfold path_ok. by rewrite Hh2, Hq, Hs2.
Qed.

(** What [urlsplit] returns is well formed. *)
Lemma urlsplit_good url s :
  urlsplit url = Return s ->
  (split_scheme s = EmptyString \/ scheme_ok (split_scheme s) = true) /\
  netloc_ok (split_netloc s) = true /\ path_ok (split_path s) = true.
Proof.
  unfold urlsplit.
  set (u2 := str_filter _ (lstrip is_c0_or_space url)).
  assert (Hsafe : str_forallb is_safe u2 = true)
    by apply (str_filter_forallb is_safe).
  pose proof (take_scheme_cases u2) as Hsch.
  pose proof (take_scheme_keeps is_safe u2 Hsafe) as Hsafe3.
  destruct (take_scheme u2) as [sch u3]. simpl in Hsch, Hsafe3.
  assert (Hsch' : sch = EmptyString \/ scheme_ok sch = true).
  { destruct Hsch as [[= -> _]|?]; [by left|by right]. }
  destruct (strip_prefix "//" u3) as [after|] eqn:Hsp.
  - pose proof (strip_prefix_keeps is_safe _ _ _ Hsp Hsafe3) as Hsafe4.
    unfold splitnetloc.
    pose proof (span_fst not_delim after) as Hnd.
    destruct (span_keeps is_safe not_delim after Hsafe4) as [Hnl Hu4].
    change (fun c => negb (char_in "/?#" c)) with not_delim.
    destruct (span not_delim after) as [nl u4]. simpl in Hnd, Hnl, Hu4.
    destruct ((has_char "[" nl && negb (has_char "]" nl))
              || (has_char "]" nl && negb (has_char "[" nl))) eqn:Hb1;
      [done|].
    destruct (has_char "[" nl && has_char "]" nl
              && negb (check_bracketed_netloc nl)) eqn:Hb2; [done|].
    intros Hs.
    destruct (split_rest_good sch nl u4 s Hs Hu4) as (-> & -> & Hp & Hc).
    repeat split; [done| |done].
    unfold netloc_ok, brackets_ok. by rewrite Hnd, Hnl, Hb1, Hb2, Hc.
  - intros Hs.
    destruct (split_rest_good sch EmptyString u3 s Hs Hsafe3)
      as (-> & -> & Hp & Hc).
    repeat split; done.
Qed.

Lemma urlparse_good url u :
  urlparse url = Return u ->
  (scheme u = EmptyString \/ scheme_ok (scheme u) = true) /\
  netloc_ok (netloc u) = true /\ path_ok (path u) = true /\
  (str_in (scheme u) uses_params = true ->
   strip_params (path u) = path u).
Proof.
  unfold urlparse. destruct (urlsplit url) as [s|e] eqn:Hs; [|done].
  destruct (urlsplit_good url s Hs) as (Hsch & Hnl & Hp). cbn [bind].
  destruct (str_in (split_scheme s) uses_params) eqn:Hu.
  - destruct (has_char ";" (split_path s)) eqn:Hsemi.
    + unfold splitparams. cbv beta iota zeta. intros [= <-].
      cbn [scheme netloc path]. repeat split; try done.
      * unfold path_ok in *.
        apply andb_true_iff in Hp as [[H1 H2]%andb_true_iff H3].
        by rewrite !strip_params_keeps.
      * intros _. apply strip_params_idem.
    + cbv beta iota zeta. intros [= <-]. cbn [scheme netloc path].
      repeat split; try done.
      intros _. by apply strip_params_no_semicolon.
  - cbv beta iota zeta. intros [= <-]. cbn [scheme netloc path].
    repeat split; try done. intros Hc. congruence.
Qed.

Lemma lstrip_head (q : ascii -> bool) c s :
  q c = false -> lstrip q (String c s) = String c s.
Proof. intros Hc. simpl. by rewrite Hc. Qed.

Lemma canonical_safe sch nl p :
  scheme_ok sch = true -> netloc_ok nl = true -> path_ok p = true ->
  str_forallb is_safe (canonical sch nl p) = true.
Proof.
  intros (c0 & pre & -> & Hc & Hall & Hl)%scheme_ok_parts Hnl Hp.
  unfold canonical. rewrite !str_forallb_app.
  rewrite (str_forallb_impl _ _ _ scheme_char_safe Hall).
  unfold netloc_ok in Hnl. unfold path_ok in Hp.
  apply andb_true_iff in Hnl as [[[_ Hs]%andb_true_iff _]%andb_true_iff _].
  apply andb_true_iff in Hp as [_ Hs'].
  by rewrite Hs, Hs'.
Qed.

(** A canonical text splits into the parts it was made of. *)
Lemma urlsplit_canonical sch nl p :
  scheme_ok sch = true -> netloc_ok nl = true -> path_ok p = true ->
  stops not_delim p ->
  urlsplit (canonical sch nl p)
  = Return (mkSplit sch nl p EmptyString EmptyString).
Proof.
  intros Hsch Hnl Hp Hstop. unfold urlsplit.
  pose proof (canonical_safe sch nl p Hsch Hnl Hp) as Hsafe.
  assert (Hstrip : lstrip is_c0_or_space (canonical sch nl p)
                   = canonical sch nl p).
  { destruct (scheme_ok_parts sch Hsch) as (c0 & pre & -> & Hc & _).
    apply lstrip_head, alpha_not_c0.
    by apply andb_true_iff in Hc as [_ Hc]. }
  rewrite Hstrip. change (fun c => negb (is_unsafe c)) with is_safe.
  rewrite (str_filter_id is_safe) by done.
  unfold canonical.
  change (":" +:+ "//" +:+ nl +:+ p) with (String ":" ("//" +:+ nl +:+ p)).
  rewrite take_scheme_canonical by done.
  change (strip_prefix "//" ("//" +:+ nl +:+ p)) with (Some (nl +:+ p)).
  cbv iota. unfold splitnetloc.
  change (fun c => negb (char_in "/?#" c)) with not_delim.
  unfold netloc_ok, brackets_ok in Hnl. unfold path_ok in Hp.
  apply andb_true_iff in Hnl as [[[Hnd _]%andb_true_iff Hb]%andb_true_iff Hck].
  apply andb_true_iff in Hb as [Hb1%negb_true_iff Hb2%negb_true_iff].
  apply andb_true_iff in Hp as [[Hh Hq]%andb_true_iff _].
  rewrite (span_run not_delim nl p) by done.
  rewrite Hb1, Hb2. unfold split_rest.
  rewrite (split_once_absent "#" p Hh), (split_once_absent "?" p Hq).
  by rewrite Hck.
Qed.

Lemma urlparse_canonical sch nl p :
  scheme_ok sch = true -> netloc_ok nl = true -> path_ok p = true ->
  stops not_delim p ->
  (str_in sch uses_params = true -> strip_params p = p) ->
  urlparse (canonical sch nl p)
  = Return (mkParse sch nl p EmptyString EmptyString EmptyString).
Proof.
  intros Hsch Hnl Hp Hstop Hprm. unfold urlparse.
  rewrite urlsplit_canonical by done.
  cbn [bind split_scheme split_netloc split_path split_query split_fragment].
  destruct (str_in sch uses_params) eqn:Hu; [|done]. cbn [andb].
  destruct (has_char ";" p); [|done]. unfold splitparams.
  by rewrite (Hprm eq_refl), (strip_params_fixed_params p (Hprm eq_refl)).
Qed.

Lemma urlparse_base :
  urlparse VRBO_BASE
  = Return (mkParse "https" "www.vrbo.com" EmptyString EmptyString
                    EmptyString EmptyString).
Proof. reflexivity. Qed.

Lemma clean_url_parsed href u :
  urlparse href = Return u ->
  clean_url href
  = canonical (scheme_or_base u) (netloc_or_base u) (leading_slash (path u)).
Proof.
  intros Hu. unfold clean_url. rewrite Hu, urlparse_base. simpl.
  unfold urlunparse, urlunsplit. simpl.
  fold (scheme_or_base u). fold (netloc_or_base u).
  assert (Hn : nonempty (netloc_or_base u) = true).
  { unfold netloc_or_base. by destruct (netloc u). }
  assert (Hs : nonempty (scheme_or_base u) = true).
  { unfold scheme_or_base. by destruct (scheme u). }
  by rewrite Hn, Hs.
Qed.

Lemma clean_url_raised href e :
  urlparse href = Raise e -> clean_url href = href.
Proof. intros Hu. unfold clean_url. by rewrite Hu. Qed.
End UrlFacts.

Section CleanUrlFacts.
Context `{NetlocTables}.
Implicit Types (href sch nl p : string) (u : ParseResult).

Lemma scheme_or_base_ok u :
  scheme u = EmptyString \/ scheme_ok (scheme u) = true ->
  scheme_ok (scheme_or_base u) = true.
Proof.
  unfold scheme_or_base. intros [->|Hs]; [done|].
  destruct (scheme u); done.
Qed.

Lemma netloc_or_base_ok u :
  netloc_ok (netloc u) = true -> netloc_ok (netloc_or_base u) = true.
Proof. unfold netloc_or_base. destruct (netloc u); done. Qed.

Lemma scheme_or_base_params u p :
  (str_in (scheme u) uses_params = true -> strip_params p = p) ->
  str_in (scheme_or_base u) uses_params = true -> strip_params p = p.
Proof.
  unfold scheme_or_base. destruct (scheme u) as [|c s]; simpl nonempty.
  - intros Hp _. by apply Hp.
  - cbv iota. done.
Qed.

Lemma scheme_or_base_again u nl p a b c :
  scheme_or_base (mkParse (scheme_or_base u) nl p a b c) = scheme_or_base u.
Proof.
  unfold scheme_or_base at 1. cbn [scheme].
  assert (Hs : nonempty (scheme_or_base u) = true).
  { unfold scheme_or_base. by destruct (scheme u). }
  by rewrite Hs.
Qed.

Lemma netloc_or_base_again u sch p a b c :
  netloc_or_base (mkParse sch (netloc_or_base u) p a b c) = netloc_or_base u.
Proof.
  unfold netloc_or_base at 1. cbn [netloc].
  assert (Hn : nonempty (netloc_or_base u) = true).
  { unfold netloc_or_base. by destruct (netloc u). }
  by rewrite Hn.
Qed.

(** What [clean_url] returns for a parsed href parses into itself. *)
Lemma urlparse_clean href u :
  urlparse href = Return u ->
  urlparse (clean_url href)
  = Return (mkParse (scheme_or_base u) (netloc_or_base u)
                    (leading_slash (path u)) EmptyString EmptyString
                    EmptyString).
Proof.
  intros Hu. rewrite (clean_url_parsed href u Hu).
  destruct (urlparse_good href u Hu) as (Hs & Hn & Hp & Hprm).
  apply urlparse_canonical.
  - by apply scheme_or_base_ok.
  - by apply netloc_or_base_ok.
  - by apply path_ok_leading_slash.
  - apply leading_slash_stops.
  - intros Hin. apply strip_params_leading_slash.
    by apply (scheme_or_base_params u).
Qed.

Lemma clean_url_idem href : clean_url (clean_url href) = clean_url href.
Proof.
  destruct (urlparse href) as [u|e] eqn:Hu.
  - rewrite (clean_url_parsed _ _ (urlparse_clean href u Hu)).
    rewrite (clean_url_parsed href u Hu).
    cbn [path]. by rewrite scheme_or_base_again, netloc_or_base_again,
      leading_slash_idem.
  - by rewrite !(clean_url_raised href e Hu).
Qed.

Lemma canonical_forallb (q : ascii -> bool) sch nl p :
  q ":"%char = true -> q "/"%char = true ->
  str_forallb q sch = true -> str_forallb q nl = true ->
  str_forallb q p = true ->
  str_forallb q (canonical sch nl p) = true.
Proof.
  intros Hc Hsl Hs Hn Hp. unfold canonical.
  rewrite !str_forallb_app, Hs, Hn, Hp. simpl. by rewrite Hc, Hsl.
Qed.

(** What [clean_url] returns for a parsed href has neither a question
    mark nor a hash. *)
Lemma clean_url_no_marks href u :
  urlparse href = Return u ->
  has_char "?" (clean_url href) = false /\
  has_char "#" (clean_url href) = false.
Proof.
  intros Hu. rewrite (clean_url_parsed href u Hu).
  destruct (urlparse_good href u Hu) as (Hs & Hn & Hp & _).
  apply scheme_or_base_ok, scheme_ok_parts in Hs
    as (c0 & pre & Hsch & _ & Hall & _).
  apply netloc_or_base_ok in Hn. apply path_ok_leading_slash in Hp.
  unfold netloc_ok in Hn. unfold path_ok in Hp.
  apply andb_true_iff in Hn as [[[Hnd _]%andb_true_iff _]%andb_true_iff _].
  apply andb_true_iff in Hp as [[Hh Hq]%andb_true_iff _].
  split; apply has_char_false, canonical_forallb; try done.
  - eapply str_forallb_impl; [apply scheme_char_not_question|done].
  - eapply str_forallb_impl; [apply not_delim_not_question|done].
  - eapply str_forallb_impl; [apply scheme_char_not_hash|done].
  - eapply str_forallb_impl; [apply not_delim_not_hash|done].
Qed.
End CleanUrlFacts.

(** C7, as amended. For every href that [urlparse] accepts, [clean_url]
    returns scheme://host/path: it strips the query and the fragment (the
    result has no question mark and no hash), keeps the path, with a
    leading slash, and writes the scheme and the host of the href or, when
    the href has none, those of the site. An href that [urlparse] rejects
    is returned unchanged. Normalization is idempotent for every href. *)
Theorem clean_url_normalizes `{NetlocTables} (href : string) :
  (forall u : ParseResult, urlparse href = Return u ->
     clean_url href
     = canonical (scheme_or_base u) (netloc_or_base u)
                 (leading_slash (path u)) /\
     has_char "?" (clean_url href) = false /\
     has_char "#" (clean_url href) = false) /\
  (forall e : PyExc, urlparse href = Raise e -> clean_url href = href) /\
  clean_url (clean_url href) = clean_url href.
Proof.
  split; [|split].
  - intros u Hu. split; [by apply clean_url_parsed|].
    by apply clean_url_no_marks with u.
  - apply clean_url_raised.
  - apply clean_url_idem.
Qed.

(** A relative href with a query and a fragment, and an href that
    [urlparse] rejects. *)
Lemma clean_url_normalizes_witness :
  clean_url (H := lenient_tables) "/p/1?x=1#top" = "https://www.vrbo.com/p/1" /\
  clean_url (H := lenient_tables) "http://[::1/?q=1" = "http://[::1/?q=1".
Proof.
  split.
  - destruct (clean_url_normalizes (H := lenient_tables) "/p/1?x=1#top")
      as (Hok & _ & _).
    destruct (Hok (mkParse EmptyString EmptyString "/p/1" EmptyString "x=1"
                           "top")) as (Hc & _); [reflexivity|].
    rewrite Hc. reflexivity.
  - destruct (clean_url_normalizes (H := lenient_tables) "http://[::1/?q=1")
      as (_ & Hraise & _).
    apply (Hraise ValueError). reflexivity.
Defined.

(** C7, as stated, fails: [clean_url] catches the exception of [urlparse]
    and returns the href as it came, with its query. *)
Lemma clean_url_counterexample :
  ~ (forall (T : NetlocTables) (href : string),
       has_char "?" (clean_url href) = false).
Proof.
  intros Hc. specialize (Hc lenient_tables "http://[::1/?q=1").
  vm_compute in Hc. discriminate.
Qed.

(* ===================================================================== *)
(** * Properties of the query string functions                             *)
(* ===================================================================== *)

Lemma safe_not_percent c : is_always_safe c = true -> Ascii.eqb c "%" = false.
Proof. by_bytes c. Qed.

Lemma safe_not_plus c : is_always_safe c = true -> plus_to_space c = c.
Proof. by_bytes c. Qed.

Lemma safe_not_amp c : is_always_safe c = true -> not_char "&" c = true.
Proof. by_bytes c. Qed.

Lemma safe_not_eq c : is_always_safe c = true -> not_char "=" c = true.
Proof. by_bytes c. Qed.

Lemma hex_digit_not_plus c :
  plus_to_space (hex_digit (code c / 16)) = hex_digit (code c / 16) /\
  plus_to_space (hex_digit (code c mod 16)) = hex_digit (code c mod 16).
Proof. destruct c as [[] [] [] [] [] [] [] []]; vm_compute; done. Qed.

Lemma hex_digit_not_marks (d : ascii) c :
  d = "&"%char \/ d = "="%char ->
  not_char d (hex_digit (code c / 16)) = true /\
  not_char d (hex_digit (code c mod 16)) = true.
Proof.
  intros [-> | ->]; destruct c as [[] [] [] [] [] [] [] []]; vm_compute; done.
Qed.

Lemma hex_pair_digits c :
  hex_pair (hex_digit (code c / 16)) (hex_digit (code c mod 16)) = Some c.
Proof. destruct c as [[] [] [] [] [] [] [] []]; vm_compute; done. Qed.

Section QuoteFacts.
Implicit Types (s k v : string) (d : ascii).

Lemma unquote_other c s :
  Ascii.eqb c "%" = false -> unquote (String c s) = String c (unquote s).
Proof.
  intros Hc. cbn [unquote]. rewrite Hc. by destruct s as [|h [|l s]].
Qed.

Lemma unquote_escape h l c s :
  hex_pair h l = Some c ->
  unquote (String "%" (String h (String l s))) = String c (unquote s).
Proof. intros Hp. cbn [unquote]. by rewrite Ascii.eqb_refl, Hp. Qed.

(** Decoding undoes quoting. *)
Lemma unquote_plus_quote_plus s : unquote_plus (quote_plus s) = s.
Proof.
  unfold unquote_plus.
  induction s as [|c s IH]; [done|]. cbn [quote_plus].
  destruct (is_always_safe c) eqn:Hsafe.
  - cbn [str_map]. rewrite (safe_not_plus c Hsafe).
    rewrite unquote_other by by apply safe_not_percent. by rewrite IH.
  - destruct (Ascii.eqb_spec c " ") as [->|Hsp].
    + cbn [str_map]. change (plus_to_space "+") with " "%char.
      rewrite unquote_other by done. by rewrite IH.
    + cbn [str_map]. change (plus_to_space "%") with "%"%char.
      destruct (hex_digit_not_plus c) as [-> ->].
      rewrite (unquote_escape _ _ c) by apply hex_pair_digits.
      by rewrite IH.
Qed.

(** A quoted string has no ampersand and no equals sign. *)
Lemma quote_plus_no_mark d s :
  d = "&"%char \/ d = "="%char ->
  str_forallb (not_char d) (quote_plus s) = true.
Proof.
  intros Hd. induction s as [|c s IH]; [done|]. cbn [quote_plus].
  destruct (is_always_safe c) eqn:Hsafe.
  - cbn [str_forallb]. rewrite IH, andb_true_r.
    destruct Hd as [-> | ->]; [by apply safe_not_amp|by apply safe_not_eq].
  - destruct (Ascii.eqb c " ").
    + cbn [str_forallb]. rewrite IH, andb_true_r.
      by destruct Hd as [-> | ->].
    + cbn [str_forallb]. rewrite IH, andb_true_r.
      destruct (hex_digit_not_marks d c Hd) as [-> ->].
      by destruct Hd as [-> | ->].
Qed.

Lemma split_all_absent d s :
  str_forallb (not_char d) s = true -> split_all d s = [s].
Proof.
  induction s as [|c s IH]; [done|]. cbn [str_forallb split_all].
  intros [Hc Hs]%andb_true_iff. unfold not_char in Hc.
  apply negb_true_iff in Hc. by rewrite Hc, (IH Hs).
Qed.

Lemma split_all_at d a s :
  str_forallb (not_char d) a = true ->
  split_all d (a +:+ String d s) = a :: split_all d s.
Proof.
  induction a as [|c a IH]; intros Ha.
  - simpl. by rewrite Ascii.eqb_refl.
  - cbn [str_forallb] in Ha. apply andb_true_iff in Ha as [Hc Ha].
    unfold not_char in Hc. apply negb_true_iff in Hc.
    change (String c a +:+ String d s) with (String c (a +:+ String d s)).
    cbn [split_all]. by rewrite Hc, (IH Ha).
Qed.

Lemma split_all_join d (pieces : list string) :
  pieces <> [] ->
  Forall (fun p => str_forallb (not_char d) p = true) pieces ->
  split_all d (join (String d EmptyString) pieces) = pieces.
Proof.
  intros Hne Hall. induction Hall as [|p rest Hp Hrest IH]; [done|].
  destruct rest as [|p' rest].
  - simpl. by apply split_all_absent.
  - change (join (String d EmptyString) (p :: p' :: rest))
      with (p +:+ String d (join (String d EmptyString) (p' :: rest))).
    rewrite split_all_at by done. by rewrite IH.
Qed.

Lemma encode_pair_no_amp kv :
  str_forallb (not_char "&") (encode_pair kv) = true.
Proof.
  unfold encode_pair. rewrite !str_forallb_app, !quote_plus_no_mark; auto.
Qed.

Lemma decode_encoded_pair kv :
  (if nonempty (encode_pair kv)
   then let '(n, v) := split_once "=" (encode_pair kv) in
        [(unquote_plus n, unquote_plus (default EmptyString v))]
   else [])
  = [kv].
Proof.
  destruct kv as [k v]. unfold encode_pair. simpl fst. simpl snd.
  assert (Hne : nonempty (quote_plus k +:+ "=" +:+ quote_plus v) = true)
    by by destruct (quote_plus k).
  rewrite Hne.
  change ("=" +:+ quote_plus v) with (String "=" (quote_plus v)).
  rewrite split_once_at by (apply quote_plus_no_mark; auto).
  simpl. by rewrite !unquote_plus_quote_plus.
Qed.

(** [parse_qsl] reads back what [urlencode] writes. *)
Lemma parse_qsl_urlencode (q : Dict) : parse_qsl (urlencode q) = q.
Proof.
  destruct q as [|kv q]; [done|]. unfold parse_qsl, urlencode.
  assert (Hne : nonempty (join "&" (map encode_pair (kv :: q))) = true).
  { simpl. destruct (map encode_pair q); unfold encode_pair;
      by destruct (quote_plus kv.1). }
  rewrite Hne, split_all_join.
  - generalize (kv :: q). intros l. induction l as [|x l IH]; [done|].
    cbn [map flat_map]. rewrite IH. by rewrite decode_encoded_pair.
  - done.
  - apply Forall_forall. intros p (kv' & -> & _)%list_elem_of_fmap.
    apply encode_pair_no_amp.
Qed.
End QuoteFacts.

(* ===================================================================== *)
(** * Properties of build_entry_url                                        *)
(* ===================================================================== *)

Section DictFacts.
Implicit Types (d q : Dict) (k v : string).

Lemma dict_get_set_eq k v d : dict_get k (dict_set k v d) = Some v.
Proof.
  induction d as [|[k' v'] d IH]; simpl.
  - by rewrite String.eqb_refl.
  - destruct (String.eqb k' k) eqn:Hk; simpl.
    + by rewrite String.eqb_refl.
    + by rewrite Hk.
Qed.

Lemma dict_get_set_ne k k2 v d :
  String.eqb k k2 = false -> dict_get k (dict_set k2 v d) = dict_get k d.
Proof.
  intros Hne. rewrite String.eqb_sym in Hne.
  induction d as [|[k' v'] d IH]; simpl.
  - by rewrite Hne.
  - destruct (String.eqb_spec k' k2) as [->|Hk]; simpl.
    + by rewrite Hne.
    + by rewrite IH.
Qed.

Lemma dict_get_pop_ne k k2 d :
  String.eqb k k2 = false -> dict_get k (dict_pop k2 d) = dict_get k d.
Proof.
  intros Hne. rewrite String.eqb_sym in Hne.
  induction d as [|[k' v'] d IH]; simpl; [done|].
  destruct (String.eqb_spec k' k2) as [->|Hk]; simpl.
  - by rewrite Hne.
  - by rewrite IH.
Qed.

Lemma dict_get_None k d : dict_get k d = None <-> k ∉ map fst d.
Proof.
  induction d as [|[k' v'] d IH]; simpl; [set_solver|].
  rewrite not_elem_of_cons. destruct (String.eqb_spec k' k) as [->|Hk].
  - split; [done|]. intros [? _]. done.
  - rewrite IH. split; [intros ?; split; [congruence|done]|tauto].
Qed.

Lemma dict_pop_keys k d : map fst (dict_pop k d) `sublist_of` map fst d.
Proof.
  induction d as [|[k' v'] d IH]; simpl; [done|].
  destruct (String.eqb k' k); simpl; by constructor.
Qed.

Lemma dict_get_pop_eq k d :
  NoDup (map fst d) -> dict_get k (dict_pop k d) = None.
Proof.
  induction d as [|[k' v'] d IH]; simpl; [done|].
  intros [Hk' Hd]%NoDup_cons.
  destruct (String.eqb_spec k' k) as [->|Hk]; simpl.
  - by apply dict_get_None.
  - destruct (String.eqb_spec k' k); [done|]. by apply IH.
Qed.

Lemma dict_set_NoDup k v d :
  NoDup (map fst d) -> NoDup (map fst (dict_set k v d)).
Proof.
  induction d as [|[k' v'] d IH]; simpl.
  - intros _. apply NoDup_singleton.
  - intros [Hk' Hd]%NoDup_cons.
    destruct (String.eqb_spec k' k) as [->|Hk]; simpl.
    + by apply NoDup_cons.
    + apply NoDup_cons. split; [|by apply IH].
      rewrite <- dict_get_None, dict_get_set_ne.
      * by apply dict_get_None.
      * by apply String.eqb_neq.
Qed.

Lemma dict_pop_NoDup k d :
  NoDup (map fst d) -> NoDup (map fst (dict_pop k d)).
Proof. intros Hd. eapply sublist_NoDup; [exact Hd|apply dict_pop_keys]. Qed.

Lemma dict_of_NoDup (l : list (string * string)) : NoDup (map fst (dict_of l)).
Proof.
  unfold dict_of.
  assert (Hg : forall d, NoDup (map fst d) ->
                 NoDup (map fst (fold_left
                   (fun d kv => dict_set kv.1 kv.2 d) l d))).
  { induction l as [|kv l IH]; intros d Hd; [done|]. simpl.
    by apply IH, dict_set_NoDup. }
  apply Hg. constructor.
Qed.

Lemma set_if_get_ne k k2 (v : option string) d :
  String.eqb k k2 = false -> dict_get k (set_if k2 v d) = dict_get k d.
Proof.
  intros Hne. unfold set_if. destruct v as [s|]; [|done].
  destruct (nonempty s); [by apply dict_get_set_ne|done].
Qed.

Lemma set_if_NoDup k (v : option string) d :
  NoDup (map fst d) -> NoDup (map fst (set_if k v d)).
Proof.
  intros Hd. unfold set_if. destruct v as [s|]; [|done].
  destruct (nonempty s); [by apply dict_set_NoDup|done].
Qed.

Lemma set_param_get_ne k (keys : list string) (v : option string) d :
  str_in k keys = false -> dict_get k (set_param keys v d) = dict_get k d.
Proof.
  unfold set_param, str_in. revert d.
  induction keys as [|k2 keys IH]; intros d; [done|]. simpl.
  intros [Hk Hks]%orb_false_iff. rewrite (IH _ Hks).
  destruct v as [s|]; [|by apply dict_get_pop_ne].
  destruct (nonempty s); [by apply dict_get_set_ne|by apply dict_get_pop_ne].
Qed.

Lemma set_param_NoDup (keys : list string) (v : option string) d :
  NoDup (map fst d) -> NoDup (map fst (set_param keys v d)).
Proof.
  unfold set_param. revert d.
  induction keys as [|k2 keys IH]; intros d Hd; [done|]. simpl.
  apply IH. destruct v as [s|]; [|by apply dict_pop_NoDup].
  destruct (nonempty s); [by apply dict_set_NoDup|by apply dict_pop_NoDup].
Qed.
End DictFacts.

Section EntryQueryFacts.
Implicit Types (city : CityCfg) (q : Dict) (k : string).

Lemma overlay_query_untouched city q k :
  str_in k overlay_keys = false ->
  dict_get k (overlay_query city q) = dict_get k q.
Proof.
  intros Hk. unfold str_in, overlay_keys in Hk. simpl in Hk.
  repeat (apply orb_false_iff in Hk as [? Hk]).
  unfold overlay_query.
  rewrite !set_if_get_ne by done.
  assert (Hc : forall q',
             dict_get k (if children city =? 0 then dict_pop "children" q'
                         else dict_set "children"
                                (str_of_int (children city)) q')
             = dict_get k q').
  { intros q'. destruct (children city =? 0);
      [by apply dict_get_pop_ne|by apply dict_get_set_ne]. }
  rewrite Hc, dict_get_set_ne by done.
  rewrite !set_param_get_ne; [done| |]; unfold str_in; simpl;
    repeat (apply orb_false_iff; split; [done|]); done.
Qed.

Lemma overlay_query_adults city q :
  dict_get "adults" (overlay_query city q)
  = Some (str_of_int (Z.max 1 (adults city))).
Proof.
  unfold overlay_query. rewrite !set_if_get_ne by done.
  destruct (children city =? 0).
  - rewrite dict_get_pop_ne by done. apply dict_get_set_eq.
  - rewrite dict_get_set_ne by done. apply dict_get_set_eq.
Qed.

Lemma overlay_query_children city q :
  NoDup (map fst q) ->
  dict_get "children" (overlay_query city q)
  = if children city =? 0 then None
    else Some (str_of_int (children city)).
Proof.
  intros Hq. unfold overlay_query. rewrite !set_if_get_ne by done.
  destruct (children city =? 0).
  - apply dict_get_pop_eq, dict_set_NoDup.
    by do 2 apply set_param_NoDup.
  - apply dict_get_set_eq.
Qed.

Lemma fresh_query_destination city :
  dict_get "destination" (fresh_query city) = Some (destination_of city).
Proof.
  unfold fresh_query. rewrite !set_if_get_ne by done.
  assert (Hc : forall q',
             dict_get "destination"
               (if children city =? 0 then q'
                else dict_set "children" (str_of_int (children city)) q')
             = dict_get "destination" q').
  { intros q'. destruct (children city =? 0);
      [done|by apply dict_get_set_ne]. }
  rewrite Hc, dict_get_set_ne by done.
  rewrite !set_if_get_ne by done. done.
Qed.

Lemma fresh_query_adults city :
  dict_get "adults" (fresh_query city)
  = Some (str_of_int (Z.max 1 (adults city))).
Proof.
  unfold fresh_query. rewrite !set_if_get_ne by done.
  destruct (children city =? 0).
  - apply dict_get_set_eq.
  - rewrite dict_get_set_ne by done. apply dict_get_set_eq.
Qed.

Lemma fresh_query_children city :
  dict_get "children" (fresh_query city)
  = if children city =? 0 then None
    else Some (str_of_int (children city)).
Proof.
  unfold fresh_query. rewrite !set_if_get_ne by done.
  destruct (children city =? 0); [|apply dict_get_set_eq].
  rewrite dict_get_set_ne by done. rewrite !set_if_get_ne by done. done.
Qed.
End EntryQueryFacts.

Section EntryUrlFacts.
Context `{NetlocTables}.
Implicit Types (city : CityCfg) (q : Dict) (k e : string).

Lemma quote_plus_forall (t : ascii -> bool) s :
  (forall c, is_always_safe c = true -> t c = true) ->
  t "+"%char = true -> t "%"%char = true ->
  (forall c, t (hex_digit (code c / 16)) = true /\
             t (hex_digit (code c mod 16)) = true) ->
  str_forallb t (quote_plus s) = true.
Proof.
  intros Hsafe Hplus Hpct Hhex. induction s as [|c s IH]; [done|].
  cbn [quote_plus]. destruct (is_always_safe c) eqn:Hc.
  - cbn [str_forallb]. by rewrite (Hsafe c Hc), IH.
  - destruct (Ascii.eqb c " "); cbn [str_forallb].
    + by rewrite Hplus, IH.
    + destruct (Hhex c) as [-> ->]. by rewrite Hpct, IH.
Qed.

Lemma urlencode_forall (t : ascii -> bool) q :
  (forall c, is_always_safe c = true -> t c = true) ->
  t "+"%char = true -> t "%"%char = true ->
  t "="%char = true -> t "&"%char = true ->
  (forall c, t (hex_digit (code c / 16)) = true /\
             t (hex_digit (code c mod 16)) = true) ->
  str_forallb t (urlencode q) = true.
Proof.
  intros Hsafe Hplus Hpct Heq Hamp Hhex. unfold urlencode.
  induction q as [|kv q IH]; [done|].
  assert (Hkv : str_forallb t (encode_pair kv) = true).
  { unfold encode_pair. rewrite !str_forallb_app, !quote_plus_forall by done.
    simpl. by rewrite Heq. }
  destruct q as [|kv' q]; [done|].
  change (join "&" (map encode_pair (kv :: kv' :: q)))
    with (encode_pair kv +:+ "&" +:+ join "&" (map encode_pair (kv' :: q))).
  rewrite !str_forallb_app, Hkv, IH. simpl. by rewrite Hamp.
Qed.

Lemma urlencode_safe q : str_forallb is_safe (urlencode q) = true.
Proof.
  apply urlencode_forall; try done.
  - intros c. by_bytes c.
  - intros c. destruct c as [[] [] [] [] [] [] [] []]; vm_compute; done.
Qed.

Lemma urlencode_no_hash q : str_forallb (not_char "#") (urlencode q) = true.
Proof.
  apply urlencode_forall; try done.
  - intros c. by_bytes c.
  - intros c. destruct c as [[] [] [] [] [] [] [] []]; vm_compute; done.
Qed.

(** The search URL of the site, followed by a query, parses into the
    query. *)
Lemma urlparse_search e :
  str_forallb is_safe e = true -> str_forallb (not_char "#") e = true ->
  urlparse ((VRBO_BASE +:+ "/search") +:+ "?" +:+ e)
  = Return (mkParse "https" "www.vrbo.com" "/search" EmptyString e
                    EmptyString).
Proof.
  intros Hsafe Hhash. unfold urlparse, urlsplit.
  change ((VRBO_BASE +:+ "/search") +:+ "?" +:+ e)
    with ("https://www.vrbo.com/search?" +:+ e).
  change (lstrip is_c0_or_space ("https://www.vrbo.com/search?" +:+ e))
    with ("https://www.vrbo.com/search?" +:+ e).
  change (fun c => negb (is_unsafe c)) with is_safe.
  rewrite (str_filter_id is_safe)
    by (rewrite str_forallb_app, Hsafe; done).
  change ("https://www.vrbo.com/search?" +:+ e)
    with ("https" +:+ String ":" ("//www.vrbo.com/search?" +:+ e)).
  rewrite take_scheme_canonical by done.
  change (strip_prefix "//" ("//www.vrbo.com/search?" +:+ e))
    with (Some ("www.vrbo.com" +:+ "/search?" +:+ e)).
  cbv iota. unfold splitnetloc.
  change (fun c => negb (char_in "/?#" c)) with not_delim.
  rewrite (span_run not_delim "www.vrbo.com" ("/search?" +:+ e)) by done.
  change (has_char "[" "www.vrbo.com") with false.
  change (has_char "]" "www.vrbo.com") with false.
  cbn [andb orb negb]. unfold split_rest.
  rewrite (split_once_absent "#")
    by (rewrite str_forallb_app, Hhash; done).
  change ("/search?" +:+ e) with ("/search" +:+ String "?" e).
  rewrite split_once_at by done.
  change (checknetloc "www.vrbo.com") with true. done.
Qed.

Lemma dict_set_fresh k v q :
  k ∉ map fst q -> dict_set k v q = q ++ [(k, v)].
Proof.
  induction q as [|[k' v'] q IH]; simpl; [done|].
  intros [Hne Hk]%not_elem_of_cons.
  destruct (String.eqb_spec k' k); [congruence|]. by rewrite IH.
Qed.

(** A dict is the dict of its own items. *)
Lemma dict_of_dict q : NoDup (map fst q) -> dict_of q = q.
Proof.
  unfold dict_of.
  assert (Hg : forall l d, NoDup (map fst (d ++ l)) ->
                 fold_left (fun d kv => dict_set kv.1 kv.2 d) l d = d ++ l).
  { induction l as [|[k v] l IH]; intros d Hd; simpl.
    - by rewrite app_nil_r.
    - rewrite dict_set_fresh.
      + rewrite IH; rewrite <- app_assoc; done.
      + rewrite map_app in Hd. simpl in Hd.
        apply NoDup_app in Hd as (_ & Hd & _). intros Hin.
        apply (Hd k Hin). by left. }
  intros Hq. by apply (Hg q []).
Qed.

Lemma fresh_query_NoDup city : NoDup (map fst (fresh_query city)).
Proof.
  unfold fresh_query. apply set_if_NoDup.
  assert (Hc : forall q', NoDup (map fst q') ->
             NoDup (map fst (if children city =? 0 then q'
                             else dict_set "children"
                                    (str_of_int (children city)) q'))).
  { intros q' Hq'. destruct (children city =? 0);
      [done|by apply dict_set_NoDup]. }
  apply Hc, dict_set_NoDup. do 6 apply set_if_NoDup.
  apply dict_set_NoDup. constructor.
Qed.

(** The query parameters of the synthesized URL are the entries of the
    synthesized dict. *)
Lemma fresh_url_param city k :
  url_query_param k
    ((VRBO_BASE +:+ "/search") +:+ "?" +:+ urlencode (fresh_query city))
  = dict_get k (fresh_query city).
Proof.
  unfold url_query_param.
  rewrite urlparse_search by (apply urlencode_safe || apply urlencode_no_hash).
  cbn [query]. rewrite parse_qsl_urlencode.
  by rewrite dict_of_dict by apply fresh_query_NoDup.
Qed.
End EntryUrlFacts.

(** C6, as amended. For a config with an explicit search URL that
    [urlparse] accepts, [build_entry_url] returns that URL with its query
    replaced by the encoding of a dict that keeps every parameter that the
    overlay does not write (so foo=bar stays), maps adults to
    max(1, adults) (so adults=3 for three adults), and has a children entry
    exactly when the children count is not zero. For a config with no
    search URL it returns the site's search URL with a query whose
    destination parameter is the region name, or the name when the region
    name is None or empty, or Colombia when the name is empty too, and
    whose children parameter is present exactly when the children count is
    not zero. In both cases the query string parses back into the dict. *)
Theorem build_entry_url_spec `{NetlocTables} (city : CityCfg) :
  (forall (u : string) (parsed : ParseResult),
     search_url city = Some u -> nonempty u = true ->
     urlparse u = Return parsed ->
     let q0 := dict_of (parse_qsl (query parsed)) in
     let q := overlay_query city q0 in
     build_entry_url city
     = Return (urlunparse (mkParse (scheme parsed) (netloc parsed)
                                   (path parsed) (params parsed)
                                   (urlencode q) (fragment parsed))) /\
     parse_qsl (urlencode q) = q /\
     (forall k, str_in k overlay_keys = false -> dict_get k q = dict_get k q0) /\
     (dict_get "foo" q0 = Some "bar" -> dict_get "foo" q = Some "bar") /\
     dict_get "adults" q = Some (str_of_int (Z.max 1 (adults city))) /\
     (adults city = 3 -> dict_get "adults" q = Some "3") /\
     (dict_get "children" q <> None <-> children city <> 0)) /\
  (truthy (search_url city) = false ->
     let q := fresh_query city in
     let target := (VRBO_BASE +:+ "/search") +:+ "?" +:+ urlencode q in
     build_entry_url city = Return target /\
     parse_qsl (urlencode q) = q /\
     url_query_param "destination" target = Some (destination_of city) /\
     (truthy (region_name city) = true ->
      Some (destination_of city) = region_name city) /\
     (truthy (region_name city) = false -> name city <> EmptyString ->
      destination_of city = name city) /\
     (truthy (region_name city) = false -> name city = EmptyString ->
      destination_of city = "Colombia") /\
     url_query_param "adults" target
     = Some (str_of_int (Z.max 1 (adults city))) /\
     (url_query_param "children" target <> None <-> children city <> 0)).
Proof.
  split.
  - intros u parsed Hu Hne Hp q0 q.
    assert (Hch : dict_get "children" q
                  = if children city =? 0 then None
                    else Some (str_of_int (children city))).
    { apply overlay_query_children, dict_of_NoDup. }
    assert (Had : dict_get "adults" q
                  = Some (str_of_int (Z.max 1 (adults city))))
      by apply overlay_query_adults.
    split.
    { unfold build_entry_url. rewrite Hu. simpl. rewrite Hne. simpl.
      by rewrite Hp. }
    split; [apply parse_qsl_urlencode|].
    split; [intros k Hk; by apply overlay_query_untouched|].
    split; [intros Hfoo; unfold q;
            by rewrite overlay_query_untouched|].
    split; [done|].
    split; [intros H3; by rewrite Had, H3|].
    rewrite Hch. destruct (Z.eqb_spec (children city) 0); split; done.
  - intros Hnone q target.
    split; [unfold build_entry_url; by rewrite Hnone|].
    split; [apply parse_qsl_urlencode|].
    unfold target, q. rewrite !fresh_url_param.
    split; [apply fresh_query_destination|].
    split.
    { unfold destination_of, or_else. destruct (region_name city) as [r|];
        [|done]. simpl. by intros ->. }
    split.
    { unfold destination_of, or_else.
      destruct (region_name city) as [r|]; simpl.
      - intros ->. by destruct (name city).
      - by destruct (name city). }
    split.
    { unfold destination_of, or_else.
      destruct (region_name city) as [r|]; simpl.
      - by intros -> ->.
      - by intros _ ->. }
    split; [apply fresh_query_adults|].
    rewrite fresh_query_children.
    destruct (Z.eqb_spec (children city) 0); split; done.
Qed.

(** The search URL with foo=bar and adults=1 for three adults, and a
    config with a region name and two children. *)
Lemma build_entry_url_spec_witness :
  build_entry_url (H := lenient_tables) explicit_city
  = Return "https://www.vrbo.com/search?foo=bar&adults=3&sort=PRICE_LOW_TO_HIGH"
  /\
  url_query_param (H := lenient_tables) "destination"
    ((VRBO_BASE +:+ "/search") +:+ "?" +:+ urlencode (fresh_query region_city))
  = Some "Bogota, Distrito Capital, Colombia".
Proof.
  destruct (build_entry_url_spec (H := lenient_tables) explicit_city)
    as (Hexp & _).
  destruct (build_entry_url_spec (H := lenient_tables) region_city)
    as (_ & Hsyn).
  split.
  - destruct (Hexp "https://www.vrbo.com/search?foo=bar&adults=1"
                   (mkParse "https" "www.vrbo.com" "/search" EmptyString
                            "foo=bar&adults=1" EmptyString))
      as (Hurl & _); [reflexivity|reflexivity|reflexivity|].
    rewrite Hurl. vm_compute. reflexivity.
  - destruct Hsyn as (_ & _ & Hdest & _); [reflexivity|].
    rewrite Hdest. reflexivity.
Defined.

(** C6, as stated, fails in two places. A negative children count is
    truthy, so the children parameter is written although the count is not
    greater than 0; and a config with an empty name and no region name gets
    the destination Colombia, not its name. *)
Lemma build_entry_url_counterexample :
  ~ (forall (T : NetlocTables) (city : CityCfg) (target : string),
       build_entry_url city = Return target ->
       (url_query_param "children" target <> None <-> 0 < children city)) /\
  ~ (forall (T : NetlocTables) (city : CityCfg) (target : string),
       truthy (search_url city) = false ->
       truthy (region_name city) = false ->
       build_entry_url city = Return target ->
       url_query_param "destination" target = Some (name city)).
Proof.
  split.
  - intros Hc.
    destruct (Hc lenient_tables negative_children_city
                 "https://www.vrbo.com/search?destination=Bogota&flexibility=0_DAY&adults=2&children=-1&sort=PRICE_LOW_TO_HIGH")
      as [Hpos _]; [vm_compute; reflexivity|].
    assert (Hlt : 0 < children negative_children_city).
    { apply Hpos. vm_compute. discriminate. }
    vm_compute in Hlt. discriminate.
  - intros Hc.
    specialize (Hc lenient_tables nameless_city
                   "https://www.vrbo.com/search?destination=Colombia&flexibility=0_DAY&adults=2&sort=PRICE_LOW_TO_HIGH").
    assert (Hd : url_query_param (H := lenient_tables) "destination"
                   "https://www.vrbo.com/search?destination=Colombia&flexibility=0_DAY&adults=2&sort=PRICE_LOW_TO_HIGH"
                 = Some (name nameless_city)).
    { apply Hc; [reflexivity|reflexivity|vm_compute; reflexivity]. }
    vm_compute in Hd. discriminate.
Qed.

(* ===================================================================== *)
(** * More on the result store                                             *)
(* ===================================================================== *)

Section StoreRuns.
Context {Data : Type}.
Implicit Types (d : LocalDB Data) (ops : list (StoreOp Data))
               (rows : list Target).

Lemma ids_sequential_apply_op d op :
  ids_sequential d -> ids_sequential (apply_op d op).
Proof.
  intros [Hids Hnext]. destruct op as [rid typ clean full|tid st|rid u x lat lon];
    unfold ids_sequential; simpl.
  - rewrite length_app, map_app, Hids, Hnext. simpl.
    rewrite Nat.add_1_r, seqZ_S. split; [done|lia].
  - by rewrite update_rows_ids, update_rows_length.
  - done.
Qed.

Lemma apply_ops_snoc d ops op :
  apply_ops d (ops ++ [op]) = apply_op (apply_ops d ops) op.
Proof. unfold apply_ops. by rewrite fold_left_app. Qed.
End StoreRuns.

Section StoreRunFacts.
Context {Data : Type}.
Implicit Types (d : LocalDB Data) (ops : list (StoreOp Data))
               (rows : list Target).

Lemma update_rows_keys rows tid st :
  map target_key (update_rows rows tid st) = map target_key rows.
Proof.
  induction rows as [|r rows IH]; simpl; [done|].
  destruct (id r =? tid); simpl; [done|]. by rewrite IH.
Qed.

Lemma apply_op_grows d op :
  results d `prefix_of` results (apply_op d op) /\
  map target_key (targets d) `prefix_of` map target_key (targets (apply_op d op)).
Proof.
  destruct op as [rid typ clean full|tid st|rid u x lat lon]; simpl.
  - split; [done|]. rewrite map_app. by apply prefix_app_r.
  - split; [done|]. by rewrite update_rows_keys.
  - split; [by apply prefix_app_r|done].
Qed.

Lemma list_targets_filter d rid typ st :
  list_targets d rid typ st = List.filter (listed rid typ st) (targets d).
Proof. done. Qed.

Lemma filter_update_rows_other rows tid rid typ st :
  Forall (fun r => id r <> tid) rows ->
  List.filter (listed rid typ st) rows
  = List.filter (fun r => negb (id r =? tid))
                (List.filter (listed rid typ st) rows).
Proof.
  induction 1 as [|r rows Hr _ IH]; simpl; [done|].
  destruct (listed rid typ st r); simpl; [|done].
  destruct (Z.eqb_spec (id r) tid); [done|]. simpl. by rewrite <- IH.
Qed.
End StoreRunFacts.

(** X1. Whatever calls of [add_target], [update_target_status] and
    [save_rental] are made on a new store, in any order, the target ids are
    1, 2, ..., n in the order of insertion, hence pairwise different; the id
    counter is n + 1; and n is the number of [add_target] calls, as the
    number of results is the number of [save_rental] calls. *)
Theorem store_ids_sequential {Data : Type} (ops : list (StoreOp Data)) :
  let d := apply_ops new_db ops in
  map id (targets d) = seqZ 1 (Z.of_nat (length (targets d))) /\
  next_target_id d = 1 + Z.of_nat (length (targets d)) /\
  NoDup (map id (targets d)) /\
  length (targets d) = length (List.filter is_add ops) /\
  length (results d) = length (List.filter is_save ops).
Proof.
  simpl.
  assert (Hseq : ids_sequential (apply_ops (new_db (Data := Data)) ops) /\
                 length (targets (apply_ops (new_db (Data := Data)) ops))
                 = length (List.filter is_add ops) /\
                 length (results (apply_ops (new_db (Data := Data)) ops))
                 = length (List.filter is_save ops)).
  { induction ops as [|op ops IH] using rev_ind; [by repeat split|].
    destruct IH as (Hs & Ht & Hr). rewrite apply_ops_snoc.
    split; [by apply ids_sequential_apply_op|].
    rewrite !List.filter_app, !length_app.
    destruct op as [rid typ clean full|tid st|rid u x lat lon]; simpl.
    - rewrite length_app. simpl. lia.
    - rewrite update_rows_length. lia.
    - rewrite length_app. simpl. lia. }
  destruct Hseq as ([Hids Hnext] & Ht & Hr).
  repeat split; try done. rewrite Hids. apply NoDup_seqZ.
Qed.

(** X2. Under any sequence of calls of the store's methods nothing is ever
    removed: the results present before are a prefix of the results after,
    and the targets present before are still there, in place, with every
    field but the status unchanged. *)
Theorem store_append_only {Data : Type} (d : LocalDB Data)
    (ops : list (StoreOp Data)) :
  results d `prefix_of` results (apply_ops d ops) /\
  map target_key (targets d) `prefix_of` map target_key (targets (apply_ops d ops)).
Proof.
  induction ops as [|op ops IH] using rev_ind; [done|].
  rewrite apply_ops_snoc. destruct IH as [Hr Ht].
  destruct (apply_op_grows (apply_ops d ops) op) as [Hr' Ht'].
  split; etrans; eauto.
Qed.

(** X3. In a store with pairwise different target ids, once
    [update_target_status] gives a target a status other than [st], the
    listing for [st] is the old listing without that target: the target
    leaves it, every other listed target stays, in order. *)
Theorem list_targets_update_status {Data : Type} (d : LocalDB Data)
    (target_id rid : Z) (typ st st' : string) :
  NoDup (map id (targets d)) -> st' <> st ->
  list_targets (update_target_status d target_id st') rid typ st
  = List.filter (fun r => negb (id r =? target_id))
                (list_targets d rid typ st).
Proof.
  intros Hnd Hst. unfold list_targets, update_target_status. simpl.
  fold (listed rid typ st).
  induction (targets d) as [|r rows IH]; simpl; [done|].
  simpl in Hnd. apply NoDup_cons in Hnd as [Hr Hnd].
  destruct (Z.eqb_spec (id r) target_id) as [Heq|Hne]; simpl.
  - assert (Hl : listed rid typ st (set_status st' r) = false).
    { unfold listed. simpl. apply String.eqb_neq in Hst. rewrite Hst.
      by rewrite andb_false_r. }
    rewrite Hl.
    assert (Hrest : Forall (fun r' => id r' <> target_id) rows).
    { apply Forall_forall. intros r' Hr' Heq'. apply Hr. rewrite Heq, <- Heq'.
      by apply list_elem_of_fmap_2. }
    destruct (listed rid typ st r); simpl.
    + rewrite Heq, Z.eqb_refl. simpl.
      by apply filter_update_rows_other.
    + by apply filter_update_rows_other.
  - rewrite IH by done. destruct (listed rid typ st r); simpl; [|done].
    destruct (Z.eqb_spec (id r) target_id); done.
Qed.

(** A store with two queued targets, the first of which gets done. *)
Lemma list_targets_update_status_witness :
  list_targets (update_target_status two_targets_db 1 "done") 7
               VRBO_TARGET_TYPE "queued"
  = [mkTarget 2 7 "vrbo_detail" "https://www.vrbo.com/p/2" "/p/2" "queued"].
Proof.
  rewrite (list_targets_update_status two_targets_db 1 7 VRBO_TARGET_TYPE
                                      "queued" "done").
  - reflexivity.
  - apply (bool_decide_unpack _). vm_compute. exact I.
  - discriminate.
Defined.

(* ===================================================================== *)
(** * More on process_detail_targets                                       *)
(* ===================================================================== *)

Section DetailQueue.
Context {Data : Type}.
Implicit Types (d : LocalDB Data) (rows : list Target)
               (sts : list (Z * string))
               (browser : nat -> string -> DetailPage Data).

Lemma outcome_status_not_queued (page : DetailPage Data) row :
  outcome_status page row <> "queued".
Proof.
  unfold outcome_status. by destruct (scrape_row page row) as [[[x|] c]|e].
Qed.

Lemma statuses_from_not_queued browser n rows :
  Forall (fun kv => kv.2 <> "queued") (statuses_from browser n rows).
Proof.
  revert n. induction rows as [|r rows IH]; intros n; [constructor|].
  rewrite statuses_from_cons. constructor; [|apply IH].
  apply outcome_status_not_queued.
Qed.

Lemma listed_retag sts rid typ st t :
  Forall (fun kv => kv.2 <> st) sts ->
  listed rid typ st (retag sts t)
  = listed rid typ st t && negb (bool_decide (id t ∈ map fst sts)).
Proof.
  induction 1 as [|[i s] sts Hs _ IH]; simpl.
  - by rewrite andb_true_r.
  - destruct (Z.eqb_spec (id t) i) as [->|Hne].
    + rewrite bool_decide_eq_true_2 by by left. simpl.
      rewrite andb_false_r. unfold listed. simpl. simpl in Hs.
      apply String.eqb_neq in Hs. by rewrite Hs, andb_false_r.
    + rewrite IH. f_equal. f_equal. apply bool_decide_ext.
      rewrite elem_of_cons. naive_solver.
Qed.

Lemma filter_listed_retag sts rid typ st (T0 : list Target) :
  Forall (fun kv => kv.2 <> st) sts ->
  List.filter (listed rid typ st) (map (retag sts) T0)
  = List.filter (fun t => negb (bool_decide (id t ∈ map fst sts)))
                (List.filter (listed rid typ st) T0).
Proof.
  intros Hs. induction T0 as [|t T0 IH]; simpl; [done|].
  rewrite (listed_retag sts rid typ st t Hs).
  destruct (listed rid typ st t); simpl; [|done].
  destruct (bool_decide (id t ∈ map fst sts)) eqn:Hin; simpl; [done|].
  rewrite IH. f_equal. apply retag_absent.
  by apply bool_decide_eq_false_1 in Hin.
Qed.

Lemma list_filter_none {A : Type} (f : A -> bool) (l : list A) :
  Forall (fun x => f x = false) l -> List.filter f l = [].
Proof. induction 1 as [|x l Hx _ IH]; simpl; [done|]. by rewrite Hx. Qed.

Lemma list_filter_all {A : Type} (f : A -> bool) (l : list A) :
  Forall (fun x => f x = true) l -> List.filter f l = l.
Proof. induction 1 as [|x l Hx _ IH]; simpl; [done|]. by rewrite Hx, IH. Qed.

Lemma filter_not_in_take (n : nat) rows :
  NoDup (map id rows) ->
  List.filter (fun t => negb (bool_decide (id t ∈ map id (take n rows)))) rows
  = drop n rows.
Proof.
  intros Hnd.
  set (f := fun t : Target => negb (bool_decide (id t ∈ map id (take n rows)))).
  rewrite <- (take_drop n rows) at 1.
  rewrite <- (take_drop n rows) in Hnd. rewrite map_app in Hnd.
  apply NoDup_app in Hnd as (_ & Hdis & _).
  rewrite List.filter_app, list_filter_none, list_filter_all; [done| |].
  - apply Forall_forall. intros t Ht. apply negb_true_iff.
    apply bool_decide_eq_false_2. intros Hin. apply (Hdis _ Hin).
    by apply list_elem_of_fmap_2.
  - apply Forall_forall. intros t Ht. apply negb_false_iff.
    apply bool_decide_eq_true_2. by apply list_elem_of_fmap_2.
Qed.

Lemma selected_targets_take cfg d rid :
  selected_targets cfg d rid
  = take (detail_quota cfg (length (list_targets d rid VRBO_TARGET_TYPE "queued")))
         (list_targets d rid VRBO_TARGET_TYPE "queued").
Proof.
  unfold selected_targets, detail_quota.
  destruct (0 <? VRBO_MAX_DETAIL_TARGETS cfg).
  - destruct (Nat.min_spec (Z.to_nat (VRBO_MAX_DETAIL_TARGETS cfg))
                (length (list_targets d rid VRBO_TARGET_TYPE "queued")))
      as [[_ ->]|[Hle ->]]; [done|].
    by rewrite !take_ge by lia.
  - by rewrite take_ge by lia.
Qed.

Lemma list_targets_NoDup d rid typ st :
  NoDup (map id (targets d)) -> NoDup (map id (list_targets d rid typ st)).
Proof.
  intros Hnd. eapply sublist_NoDup; [exact Hnd|].
  apply (fmap_sublist id), list_filter_sublist.
Qed.

(** The queued targets left after the detail phase. *)
Lemma queued_after_detail cfg browser d rid :
  NoDup (map id (targets d)) ->
  list_targets (process_detail_targets cfg browser d rid).1 rid
               VRBO_TARGET_TYPE "queued"
  = drop (detail_quota cfg (length (list_targets d rid VRBO_TARGET_TYPE "queued")))
         (list_targets d rid VRBO_TARGET_TYPE "queued").
Proof.
  intros Hnd. rewrite process_detail_targets_spec by done.
  unfold list_targets at 1. cbn [targets fst].
  fold (listed rid VRBO_TARGET_TYPE "queued").
  rewrite filter_listed_retag by apply statuses_from_not_queued.
  rewrite statuses_from_keys, selected_targets_take.
  apply filter_not_in_take. by apply list_targets_NoDup.
Qed.
End DetailQueue.

(** X4. In a store with pairwise different target ids, the targets of the
    run still queued after [process_detail_targets] are the queued targets
    beyond the limit [VRBO_MAX_DETAIL_TARGETS]: none when the limit is 0 (or
    negative), and then a second call navigates nowhere and changes
    nothing. The number of navigations of a call is the number of queued
    targets, cut to the limit when it is positive. *)
Theorem detail_queue_drained {Data : Type} (cfg : Config)
    (browser : nat -> string -> DetailPage Data) (d : LocalDB Data) (rid : Z) :
  NoDup (map id (targets d)) ->
  let queued := list_targets d rid VRBO_TARGET_TYPE "queued" in
  let r := process_detail_targets cfg browser d rid in
  list_targets r.1 rid VRBO_TARGET_TYPE "queued"
  = drop (detail_quota cfg (length queued)) queued /\
  length (List.filter is_get r.2) = detail_quota cfg (length queued) /\
  (VRBO_MAX_DETAIL_TARGETS cfg <= 0 ->
   list_targets r.1 rid VRBO_TARGET_TYPE "queued" = [] /\
   forall browser' : nat -> string -> DetailPage Data,
     process_detail_targets cfg browser' r.1 rid = (r.1, [])).
Proof.
  intros Hnd queued r.
  assert (Hq : list_targets r.1 rid VRBO_TARGET_TYPE "queued"
               = drop (detail_quota cfg (length queued)) queued)
    by by apply queued_after_detail.
  split; [done|]. split.
  { unfold r. rewrite process_detail_targets_spec by done. cbn [snd].
    rewrite events_from_gets, length_map, selected_targets_take.
    fold queued. rewrite length_take. unfold detail_quota.
    destruct (0 <? VRBO_MAX_DETAIL_TARGETS cfg); lia. }
  intros Hlim.
  assert (Hnone : list_targets r.1 rid VRBO_TARGET_TYPE "queued" = []).
  { rewrite Hq. unfold detail_quota.
    destruct (Z.ltb_spec 0 (VRBO_MAX_DETAIL_TARGETS cfg)); [lia|].
    apply drop_all. }
  split; [done|]. intros browser'.
  unfold process_detail_targets, selected_targets. rewrite Hnone.
  destruct (Z.ltb_spec 0 (VRBO_MAX_DETAIL_TARGETS cfg)); [lia|]. reflexivity.
Qed.

(** Two queued targets and no limit: both are visited, none stays queued. *)
Lemma detail_queue_drained_witness :
  list_targets (process_detail_targets default_config timeout_first
                                       two_targets_db 7).1 7
               VRBO_TARGET_TYPE "queued" = [] /\
  length (List.filter is_get
            (process_detail_targets default_config timeout_first
                                    two_targets_db 7).2) = 2%nat.
Proof.
  destruct (detail_queue_drained default_config timeout_first
              two_targets_db 7) as (Hq & Hn & _).
  - apply (bool_decide_unpack _). vm_compute. exact I.
  - split; [rewrite Hq|rewrite Hn]; reflexivity.
Defined.


Section DetailRecords.
Context {Data : Type}.
Implicit Types (browser : nat -> string -> DetailPage Data) (d : LocalDB Data).

Lemma list_filter_map {A B : Type} (f : B -> bool) (g : A -> B) (l : list A) :
  List.filter f (map g l) = map g (List.filter (fun a => f (g a)) l).
Proof.
  induction l as [|a l IH]; simpl; [done|].
  destruct (f (g a)); simpl; by rewrite IH.
Qed.

Lemma list_filter_ext_in {A : Type} (f g : A -> bool) (l : list A) :
  (forall a, a ∈ l -> f a = g a) -> List.filter f l = List.filter g l.
Proof.
  induction l as [|a l IH]; intros Hfg; simpl; [done|].
  rewrite (Hfg a) by by left.
  rewrite IH; [done|]. intros b Hb. apply Hfg. by right.
Qed.

Lemma list_filter_twice {A : Type} (f g : A -> bool) (l : list A) :
  List.filter f (List.filter g l) = List.filter (fun a => f a && g a) l.
Proof.
  induction l as [|a l IH]; simpl; [done|].
  destruct (g a); simpl; rewrite ?andb_true_r, ?andb_false_r;
    [destruct (f a)|]; by rewrite IH.
Qed.

(** A sublist of rows with pairwise different ids is the rows whose id it
    holds. *)
Lemma sublist_filter_ids (sel rows : list Target) :
  sel `sublist_of` rows -> NoDup (map id rows) ->
  List.filter (fun t => bool_decide (id t ∈ map id sel)) rows = sel.
Proof.
  induction 1 as [|t sel rows Hsub IH|t sel rows Hsub IH]; intros Hnd.
  - done.
  - apply NoDup_cons in Hnd as [Hnot Hnd]. cbn [List.filter map].
    rewrite bool_decide_eq_true_2 by by left. f_equal.
    etransitivity; [|exact (IH Hnd)]. apply list_filter_ext_in. intros a Ha.
    apply bool_decide_ext. rewrite elem_of_cons.
    split; [|by right]. intros [Heq|Hin]; [|done].
    destruct Hnot. rewrite <- Heq. by apply list_elem_of_fmap_2.
  - apply NoDup_cons in Hnd as [Hnot Hnd]. cbn [List.filter map].
    rewrite bool_decide_eq_false_2; [by apply IH|].
    intros Hin. apply Hnot.
    eapply elem_of_sublist; [exact Hin|]. by apply (fmap_sublist id).
Qed.

Lemma outcome_rentals_urls (page : DetailPage Data) row :
  map rental_url (outcome_rentals page row)
  = if String.eqb (outcome_status page row) "done" then [value row] else [].
Proof.
  unfold outcome_rentals, outcome_status.
  by destruct (scrape_row page row) as [[[x|] [c|]]|e].
Qed.

(** The records of the rows are those of the rows that end [done]. *)
Lemma rentals_from_urls browser n (rows : list Target) :
  NoDup (map id rows) ->
  map rental_url (rentals_from browser n rows)
  = map value
      (List.filter (fun t => String.eqb (status t) "done")
                   (map (retag (statuses_from browser n rows)) rows)).
Proof.
  revert n. induction rows as [|r rows IH]; intros n Hnd; [done|].
  apply NoDup_cons in Hnd as [Hnot Hnd].
  rewrite rentals_from_cons, statuses_from_cons, map_app,
    outcome_rentals_urls, (IH (S n) Hnd).
  assert (Hrest : map (retag ((id r, outcome_status (browser n (row_full_url r)) r)
                              :: statuses_from browser (S n) rows)) rows
                  = map (retag (statuses_from browser (S n) rows)) rows).
  { apply map_ext_in. intros t Ht. cbn [retag].
    destruct (Z.eqb_spec (id t) (id r)) as [Heq|]; [|done].
    destruct Hnot. rewrite <- Heq. apply list_elem_of_fmap_2.
    by apply list_elem_of_In. }
  rewrite map_cons, Hrest. cbn [retag]. rewrite Z.eqb_refl.
  cbn [List.filter set_status status].
  by destruct (String.eqb (outcome_status (browser n (row_full_url r)) r) "done").
Qed.

(** The rows of the store that a list of updates leaves alone. *)
Lemma retag_status_cases sts t :
  Forall (fun kv => kv.2 ∈ ["done"; "empty"; "error"]) sts ->
  retag sts t = t \/
  (id t ∈ map fst sts /\ status (retag sts t) ∈ ["done"; "empty"; "error"]).
Proof.
  induction 1 as [|[i s] sts Hs _ IH]; [by left|]. cbn [retag].
  destruct (Z.eqb_spec (id t) i) as [->|Hne].
  - right. split; [by left|]. exact Hs.
  - destruct IH as [IH|[Hin IH]]; [by left|right].
    split; [|done]. cbn [map fst]. by right.
Qed.

Lemma outcome_status_cases (page : DetailPage Data) row :
  outcome_status page row ∈ ["done"; "empty"; "error"].
Proof.
  unfold outcome_status.
  destruct (scrape_row page row) as [[[x|] c]|e]; set_solver.
Qed.

Lemma statuses_from_cases browser n rows :
  Forall (fun kv => kv.2 ∈ ["done"; "empty"; "error"])
         (statuses_from browser n rows).
Proof.
  revert n. induction rows as [|r rows IH]; intros n; [constructor|].
  rewrite statuses_from_cons. constructor; [|apply IH].
  apply outcome_status_cases.
Qed.

Lemma retag_key sts t : target_key (retag sts t) = target_key t.
Proof.
  unfold target_key. rewrite retag_id.
  by destruct (retag_fields sts t) as (-> & -> & -> & ->).
Qed.
End DetailRecords.

(** X5. In a store with pairwise different target ids,
    [process_detail_targets] appends to the results, in the order of the
    targets, exactly one record for each selected target that it leaves
    with status [done], carrying the target's normalized URL; targets left
    [empty] or [error] get no record. *)
Theorem detail_records_are_done_targets {Data : Type} (cfg : Config)
    (browser : nat -> string -> DetailPage Data) (d : LocalDB Data) (rid : Z) :
  NoDup (map id (targets d)) ->
  let r := process_detail_targets cfg browser d rid in
  exists news : list (Rental Data),
    results r.1 = results d ++ news /\
    map rental_url news
    = map value
        (List.filter
           (fun t => String.eqb (status t) "done"
                     && bool_decide (id t ∈ map id (selected_targets cfg d rid)))
           (targets r.1)).
Proof.
  intros Hnd r. unfold r. rewrite process_detail_targets_spec by done.
  cbn [fst results targets].
  exists (rentals_from browser 0 (selected_targets cfg d rid)).
  split; [done|].
  rewrite rentals_from_urls by by apply selected_targets_NoDup.
  f_equal.
  set (sel := selected_targets cfg d rid).
  set (sts := statuses_from browser 0 sel).
  rewrite !list_filter_map. f_equal.
  pose proof (sublist_filter_ids sel (targets d)
                (selected_targets_sublist cfg d rid) Hnd) as Hsel.
  transitivity
    (List.filter (fun a => String.eqb (status (retag sts a)) "done")
       (List.filter (fun t => bool_decide (id t ∈ map id sel)) (targets d)));
    [by rewrite Hsel|].
  rewrite list_filter_twice. apply list_filter_ext_in.
  intros t _. by rewrite retag_id.
Qed.

(** Two queued targets, the first times out and the second is read: one
    record, for the second. *)
Lemma detail_records_are_done_targets_witness :
  exists news : list (Rental unit),
    results (process_detail_targets default_config timeout_first
                                    two_targets_db 7).1
    = results two_targets_db ++ news /\
    map rental_url news
    = map value
        (List.filter
           (fun t => String.eqb (status t) "done"
                     && bool_decide
                          (id t ∈ map id (selected_targets default_config
                                            two_targets_db 7)))
           (targets (process_detail_targets default_config timeout_first
                                            two_targets_db 7).1)).
Proof.
  apply (detail_records_are_done_targets default_config timeout_first
           two_targets_db 7).
  apply (bool_decide_unpack _). vm_compute. exact I.
Defined.

(** X6. In a store with pairwise different target ids,
    [process_detail_targets] changes nothing but statuses: the targets keep
    their number, order, ids, run ids, types and URLs, the id counter and
    the earlier results stay; a target that is not a queued target of the
    run and the type keeps its status; and a changed status was [queued]
    and becomes [done], [empty] or [error]. *)
Theorem detail_changes_statuses_only {Data : Type} (cfg : Config)
    (browser : nat -> string -> DetailPage Data) (d : LocalDB Data) (rid : Z) :
  NoDup (map id (targets d)) ->
  let r := process_detail_targets cfg browser d rid in
  map target_key (targets r.1) = map target_key (targets d) /\
  next_target_id r.1 = next_target_id d /\
  results d `prefix_of` results r.1 /\
  forall (k : nat) (t : Target), targets d !! k = Some t ->
    exists t' : Target, targets r.1 !! k = Some t' /\
      (listed rid VRBO_TARGET_TYPE "queued" t = false -> t' = t) /\
      (t' <> t ->
       listed rid VRBO_TARGET_TYPE "queued" t = true /\
       status t' ∈ ["done"; "empty"; "error"]).
Proof.
  intros Hnd r. unfold r. rewrite process_detail_targets_spec by done.
  cbn [fst results targets next_target_id].
  set (sel := selected_targets cfg d rid).
  set (sts := statuses_from browser 0 sel).
  split; [|split; [done|split; [by eexists|]]].
  { rewrite map_map. apply map_ext. intros t. apply retag_key. }
  intros k t Hk. exists (retag sts t). split.
  { by rewrite list_lookup_fmap, Hk. }
  assert (Hin : id t ∈ map fst sts ->
                listed rid VRBO_TARGET_TYPE "queued" t = true).
  { unfold sts. rewrite statuses_from_keys. intros Hin.
    apply list_elem_of_fmap in Hin as (t0 & Hid & Ht0).
    assert (Ht0d : t0 ∈ targets d)
      by (eapply elem_of_sublist; [exact Ht0|apply selected_targets_sublist]).
    assert (t0 = t) as ->.
    { apply list_elem_of_lookup in Ht0d as [k0 Hk0].
      assert (k0 = k) as ->.
      { eapply NoDup_lookup; [exact Hnd| |].
        - by rewrite list_lookup_fmap, Hk0.
        - rewrite list_lookup_fmap, Hk. simpl. by rewrite Hid. }
      congruence. }
    unfold sel, selected_targets in Ht0.
    assert (Hl : t ∈ list_targets d rid VRBO_TARGET_TYPE "queued").
    { destruct (0 <? VRBO_MAX_DETAIL_TARGETS cfg); [|done].
      eapply elem_of_sublist; [exact Ht0|apply sublist_take]. }
    unfold list_targets in Hl. apply list_elem_of_In, filter_In in Hl.
    exact (proj2 Hl). }
  destruct (retag_status_cases sts t (statuses_from_cases browser 0 sel))
    as [Heq|[Hmem Hst]].
  - rewrite Heq. split; [done|]. by intros [].
  - split.
    + intros Hno. rewrite (Hin Hmem) in Hno. discriminate.
    + intros _. split; [by apply Hin|done].
Qed.

(** The store of two queued targets of run 7. *)
Lemma detail_changes_statuses_only_witness :
  next_target_id (process_detail_targets default_config timeout_first
                                         two_targets_db 7).1
  = next_target_id two_targets_db.
Proof.
  apply (detail_changes_statuses_only default_config timeout_first
           two_targets_db 7).
  apply (bool_decide_unpack _). vm_compute. exact I.
Defined.


(* ===================================================================== *)
(** * The search phase and the run                                         *)
(* ===================================================================== *)

Section SearchCards.
Context `{NetlocTables}.

(** [clean_url] never returns the empty string. *)
Lemma clean_url_nonempty href : nonempty (clean_url href) = true.
Proof.
  destruct (urlparse href) as [u|e] eqn:Hu.
  - rewrite (clean_url_parsed href u Hu). unfold canonical, scheme_or_base.
    destruct (scheme u); reflexivity.
  - rewrite (clean_url_raised href e Hu).
    destruct href; [|reflexivity]. vm_compute in Hu. discriminate.
Qed.

Lemma extract_cards_cons e elems :
  extract_cards (e :: elems)
  = match card_of e with
    | Some c => c :: extract_cards elems
    | None => extract_cards elems
    end.
Proof.
  unfold extract_cards, card_of. cbn [flat_map].
  destruct (elem_href e) as [h|]; [|done].
  cbn [fmap option_fmap option_map]. by rewrite clean_url_nonempty.
Qed.

Lemma extract_cards_omap elems : extract_cards elems = omap card_of elems.
Proof.
  induction elems as [|e elems IH]; [done|].
  rewrite extract_cards_cons. cbn [omap list_omap].
  destruct (card_of e); by rewrite IH.
Qed.

Lemma search_target_add {Data : Type} (d : LocalDB Data) rid h :
  targets (add_target d rid VRBO_TARGET_TYPE (clean_url h) (Some h))
  = targets d ++ [mkTarget (next_target_id d) rid VRBO_TARGET_TYPE
                           (clean_url h) (or_else (Some h) (clean_url h))
                           "queued"] /\
  search_target rid (mkTarget (next_target_id d) rid VRBO_TARGET_TYPE
                              (clean_url h) (or_else (Some h) (clean_url h))
                              "queued").
Proof.
  split; [done|]. unfold search_target. cbn [run_id type status value url].
  repeat split; [|apply clean_url_nonempty].
  unfold or_else. destruct (nonempty h); [done|]. by rewrite clean_url_idem.
Qed.

Lemma search_target_listed rid t :
  search_target rid t -> listed rid VRBO_TARGET_TYPE "queued" t = true.
Proof.
  intros (Hr & Ht & Hs & _). unfold listed. rewrite Hr, Ht, Hs, Z.eqb_refl.
  reflexivity.
Qed.
End SearchCards.

Section SearchStore.
Context `{NetlocTables} {Data : Type}.
Variable rid : Z.
Variable P : LocalDB Data -> Prop.
Hypothesis P_add : forall (d : LocalDB Data) (h : string),
  P d -> P (add_target d rid VRBO_TARGET_TYPE (clean_url h) (Some h)).

Lemma visit_card_keeps (acc : gset string * LocalDB Data * Z) e c :
  card_of e = Some c -> P acc.1.2 -> P (visit_card rid acc c).1.2.
Proof.
  unfold card_of. destruct (elem_href e) as [h|]; [|done].
  cbn [fmap option_fmap option_map]. intros [= <-] HP.
  destruct acc as [[sn d] n]. unfold visit_card.
  cbn [card_url card_full_url].
  destruct (nonempty (clean_url h) && negb (bool_decide (clean_url h ∈ sn)));
    [|done].
  by apply P_add.
Qed.

Lemma fold_visit_keeps elems (acc : gset string * LocalDB Data * Z) :
  P acc.1.2 -> P (fold_left (visit_card rid) (extract_cards elems) acc).1.2.
Proof.
  revert acc. induction elems as [|e elems IH]; intros acc HP; [done|].
  rewrite extract_cards_cons.
  destruct (card_of e) as [c|] eqn:Hc; [|by apply IH].
  cbn [fold_left]. apply IH. by apply (visit_card_keeps acc e c).
Qed.

Lemma page_step_keeps cfg st v :
  P (db st) -> P (db (page_step cfg rid st v).1.2).
Proof.
  intros HP.
  pose proof (fold_visit_keeps (view_cards v) (seen st, db st, 0) HP) as Hv.
  unfold page_step, visit_cards. revert Hv.
  destruct (extract_cards (view_cards v)) as [|c cs]; intros Hv.
  - by destruct (is_blocked (view_source v)).
  - destruct (fold_left (visit_card rid) (c :: cs) (seen st, db st, 0))
      as [[sn1 d1] n1].
    cbn [fst snd] in Hv.
    destruct (n1 =? 0); [done|].
    destruct (max_pages_reached cfg st); [done|].
    by destruct (view_next v).
Qed.

Lemma pagination_keeps cfg views st tr :
  P (db st) -> P (db (pagination cfg rid views st tr).1.2).
Proof.
  revert st tr. induction views as [|v views IH]; intros st tr HP; [done|].
  cbn [pagination].
  pose proof (page_step_keeps cfg st v HP) as Hs.
  destruct (page_step cfg rid st v) as [[ctl st1] ev].
  destruct ctl; [done|]. by apply IH.
Qed.

Lemma run_city_keeps cfg src views d city r :
  P d -> run_city cfg src views d rid city = Return r -> P (db r.1.2).
Proof.
  intros HP. unfold run_city.
  destruct (build_entry_url city) as [target|e]; cbn [bind]; [|done].
  intros [= <-]. by apply pagination_keeps.
Qed.

Lemma search_phase_keeps cfg visits d d' :
  P d -> search_phase cfg rid visits d = Return (Some d') -> P d'.
Proof.
  revert d. induction visits as [|cv visits IH]; intros d HP;
    cbn [search_phase].
  - by intros [= <-].
  - destruct (run_city cfg (visit_entry_source cv) (visit_views cv) d rid
                       (visit_city cv)) as [[[fin st] tr]|e] eqn:Hr;
      cbn [bind]; [|done].
    destruct fin; [|done]. apply IH.
    apply (run_city_keeps _ _ _ _ _ _ HP Hr).
Qed.
End SearchStore.

(** X7. [extract_cards] returns one dict for each card element whose link
    has an [href], in the order of the elements, with the [href] as
    [full_url] and its normalization as [url]; since [clean_url] never
    returns the empty string, the test [if not href] drops no such
    element. *)
Theorem extract_cards_one_per_link `{NetlocTables} (elems : list CardElem) :
  extract_cards elems = omap card_of elems /\
  map card_full_url (extract_cards elems) = omap elem_href elems /\
  Forall (fun c => card_url c = clean_url (card_full_url c) /\
                   nonempty (card_url c) = true)
         (extract_cards elems).
Proof.
  split; [apply extract_cards_omap|].
  induction elems as [|e elems [IH1 IH2]]; [by split|].
  rewrite extract_cards_cons. unfold card_of. cbn [omap list_omap].
  destruct (elem_href e) as [h|]; cbn [fmap option_fmap option_map];
    [|by split].
  split; [cbn [map card_full_url]; by rewrite IH1|].
  constructor; [|done]. cbn [card_url card_full_url].
  split; [done|apply clean_url_nonempty].
Qed.

(** X8. The targets that one call of [run_city] appends to the store are
    normalized: the value of each is [clean_url] of its stored full URL,
    it is a fixed point of [clean_url] and it is not empty; and they are
    exactly what the call adds, in the order of discovery, to the queued
    targets of the run that [list_targets] hands to the detail phase. *)
Theorem run_city_targets_normalized `{NetlocTables} {Data : Type}
    (cfg : Config) (entry_source : string) (views : list PageView)
    (d : LocalDB Data) (rid : Z) (city : CityCfg) :
  match run_city cfg entry_source views d rid city with
  | Return (_, st, _) =>
      exists added,
        targets (db st) = targets d ++ added /\
        Forall (fun t => value t = clean_url (url t) /\
                         clean_url (value t) = value t /\
                         nonempty (value t) = true) added /\
        list_targets (db st) rid VRBO_TARGET_TYPE "queued"
        = list_targets d rid VRBO_TARGET_TYPE "queued" ++ added
  | Raise _ => True
  end.
Proof.
  destruct (run_city cfg entry_source views d rid city)
    as [[[fin st] tr]|e] eqn:Hr; [|done].
  assert (Hadd : exists added, targets (db st) = targets d ++ added /\
                               Forall (search_target rid) added).
  { apply (run_city_keeps rid
             (fun d' => exists added, targets d' = targets d ++ added /\
                                      Forall (search_target rid) added)
             ) with (r := (fin, st, tr)) (cfg := cfg) (src := entry_source)
                    (views := views) (d := d) (city := city); [| |done].
    - intros d' h (added & Ht & Hall).
      destruct (search_target_add d' rid h) as [Ht' Hs].
      eexists. rewrite Ht', Ht, <- app_assoc. split; [done|].
      apply Forall_app. split; [done|]. by constructor.
    - exists []. by rewrite app_nil_r. }
  destruct Hadd as (added & Ht & Hall). exists added. split; [done|]. split.
  - eapply Forall_impl; [exact Hall|]. intros t (_ & _ & _ & Hv & Hne).
    split; [done|]. split; [|done]. rewrite Hv. apply clean_url_idem.
  - unfold list_targets. rewrite Ht, List.filter_app. f_equal.
    apply list_filter_all. eapply Forall_impl; [exact Hall|].
    intros t Hs. by apply (search_target_listed rid).
Qed.

Section Pages.
Context `{NetlocTables} {Data : Type}.
Implicit Types (st : Loop Data).

Lemma page_step_pages cfg rid st v :
  page_num (page_step cfg rid st v).1.2
  = page_num st
    + Z.of_nat (length (List.filter is_next_click (page_step cfg rid st v).2)) /\
  (0 < VRBO_MAX_PAGES cfg -> page_num st <= VRBO_MAX_PAGES cfg ->
   page_num (page_step cfg rid st v).1.2 <= VRBO_MAX_PAGES cfg).
Proof.
  unfold page_step.
  destruct (extract_cards (view_cards v)) as [|c cs].
  - destruct (is_blocked (view_source v)); cbn; split; lia.
  - destruct (visit_cards rid (c :: cs) (seen st) (db st)) as [[sn1 d1] n1].
    destruct (n1 =? 0); [cbn; split; lia|].
    destruct (max_pages_reached cfg st) eqn:Hm; [cbn; split; lia|].
    destruct (view_next v); cbn; (split; [lia|]); [|lia].
    intros Hpos _. unfold max_pages_reached in Hm.
    apply andb_false_iff in Hm as [Hm|Hm]; lia.
Qed.

Lemma pagination_pages cfg rid views st tr :
  page_num (pagination cfg rid views st tr).1.2
  + Z.of_nat (length (List.filter is_next_click tr))
  = page_num st
    + Z.of_nat (length (List.filter is_next_click
                          (pagination cfg rid views st tr).2)) /\
  (0 < VRBO_MAX_PAGES cfg -> page_num st <= VRBO_MAX_PAGES cfg ->
   page_num (pagination cfg rid views st tr).1.2 <= VRBO_MAX_PAGES cfg).
Proof.
  revert st tr. induction views as [|v views IH]; intros st tr;
    cbn [pagination].
  - cbn. split; lia.
  - destruct (page_step_pages cfg rid st v) as [Hn Hb].
    destruct (page_step cfg rid st v) as [[ctl st1] ev].
    cbn [fst snd] in Hn, Hb. destruct ctl; cbn [fst snd].
    + rewrite List.filter_app, length_app. split; lia.
    + destruct (IH st1 (tr ++ ev)) as [IHn IHb].
      rewrite List.filter_app, length_app in IHn. split; [lia|].
      intros Hpos Hle. apply IHb; [done|]. by apply Hb.
Qed.

Lemma pagination_retried cfg rid views rest st tr :
  Forall retried views ->
  pagination cfg rid (views ++ rest) st tr
  = pagination cfg rid rest st
      (tr ++ concat (map (fun _ => blocked_turn) views)).
Proof.
  intros Hall. revert tr.
  induction Hall as [|v views [Hc Hb] _ IH]; intros tr.
  - cbn. by rewrite app_nil_r.
  - cbn [app pagination]. unfold page_step. rewrite Hc, Hb.
    rewrite IH. cbn [map concat]. by rewrite <- app_assoc.
Qed.
End Pages.

(** X9. With a positive [VRBO_MAX_PAGES], the page number of [run_city]
    never passes the limit: it is one more than the number of clicks on the
    next-page control that succeeded, so at most [VRBO_MAX_PAGES - 1]
    such clicks are made. *)
Theorem run_city_page_limit `{NetlocTables} {Data : Type} (cfg : Config)
    (entry_source : string) (views : list PageView) (d : LocalDB Data)
    (rid : Z) (city : CityCfg) :
  0 < VRBO_MAX_PAGES cfg ->
  match run_city cfg entry_source views d rid city with
  | Return (_, st, tr) =>
      page_num st = 1 + Z.of_nat (length (List.filter is_next_click tr)) /\
      page_num st <= VRBO_MAX_PAGES cfg
  | Raise _ => True
  end.
Proof.
  intros Hpos. unfold run_city.
  destruct (build_entry_url city) as [target|e]; cbn [bind]; [|done].
  set (tr0 := [EvGet target; EvIsBlocked (is_blocked entry_source)]
              ++ (if is_blocked entry_source then [EvInput] else [])).
  destruct (pagination_pages cfg rid views (mkLoop ∅ 1 d) tr0) as [Hn Hb].
  assert (H0 : length (List.filter is_next_click tr0) = 0%nat)
    by (unfold tr0; by destruct (is_blocked entry_source)).
  rewrite H0 in Hn. cbn [page_num] in Hn, Hb.
  destruct (pagination cfg rid views (mkLoop ∅ 1 d) tr0) as [[fin st] tr].
  cbn [fst snd] in Hn, Hb. split; [lia|]. apply Hb; lia.
Qed.

(** Two pages of cards with a next control, and a limit of one page. *)
Lemma run_city_page_limit_witness :
  exists st tr,
    run_city (H := lenient_tables) default_config EmptyString
             [five_cards_view; repeated_cards_view]
             (new_db (Data := unit)) 7 (example_city "Bogota")
    = Return (true, st, tr) /\
    page_num st = 1 + Z.of_nat (length (List.filter is_next_click tr)) /\
    page_num st <= VRBO_MAX_PAGES default_config.
Proof.
  pose proof (run_city_page_limit (H := lenient_tables) default_config
                EmptyString [five_cards_view; repeated_cards_view]
                (new_db (Data := unit)) 7 (example_city "Bogota") eq_refl)
    as Hlim.
  destruct (run_city (H := lenient_tables) default_config EmptyString
                     [five_cards_view; repeated_cards_view]
                     (new_db (Data := unit)) 7 (example_city "Bogota"))
    as [[[fin st] tr]|e] eqn:Hrun.
  - exists st, tr. split; [|exact Hlim].
    assert (fin = true) as -> by (vm_compute in Hrun; congruence).
    reflexivity.
  - vm_compute in Hrun. discriminate.
Defined.

(** X10. A block page that shows no card is tried again by [run_city]
    after the operator's answer and does not count as a page: over any
    number of such views the set [seen], the page number and the store
    stay as they are, no page limit ends the loop, and each view costs one
    wait for the operator. *)
Theorem run_city_block_pages_retried `{NetlocTables} {Data : Type}
    (cfg : Config) (rid : Z) (views rest : list PageView) (st : Loop Data)
    (tr : list Event) :
  Forall retried views ->
  pagination cfg rid (views ++ rest) st tr
  = pagination cfg rid rest st
      (tr ++ concat (map (fun _ => blocked_turn) views)) /\
  pagination cfg rid views st tr
  = (false, st, tr ++ concat (map (fun _ => blocked_turn) views)).
Proof.
  intros Hall. split; [by apply pagination_retried|].
  rewrite <- (app_nil_r views) at 1. by rewrite pagination_retried.
Qed.

(** Two block pages, then a page without cards and without marker. *)
Lemma run_city_block_pages_retried_witness :
  pagination (H := lenient_tables) default_config 7
             ([block_view; block_view] ++ [example_view_empty]) start_loop []
  = pagination (H := lenient_tables) default_config 7 [example_view_empty]
               start_loop ([] ++ blocked_turn ++ blocked_turn ++ []).
Proof.
  apply (run_city_block_pages_retried (H := lenient_tables) default_config 7
           [block_view; block_view] [example_view_empty] start_loop []).
  repeat constructor.
Defined.

Section Crawl.
Context `{NetlocTables} {Data : Type}.

Lemma retag_hit_status sts t :
  Forall (fun kv => kv.2 ∈ ["done"; "empty"; "error"]) sts ->
  id t ∈ map fst sts ->
  status (retag sts t) ∈ ["done"; "empty"; "error"].
Proof.
  induction 1 as [|[i s] sts Hs _ IH]; cbn [map fst retag].
  - by intros ?%elem_of_nil.
  - intros Hin. destruct (Z.eqb_spec (id t) i) as [Heq|Hne]; [exact Hs|].
    apply IH. apply elem_of_cons in Hin as [Heq|Hin]; [|done].
    by destruct Hne.
Qed.

Lemma retag_row_full_url sts t : row_full_url (retag sts t) = row_full_url t.
Proof.
  unfold row_full_url.
  by destruct (retag_fields sts t) as (_ & _ & -> & ->).
Qed.

(** What the search phase of run [rid] keeps true of a store. *)
Lemma search_phase_store cfg rid visits (d1 : LocalDB Data) :
  search_phase cfg rid visits new_db = Return (Some d1) ->
  ids_fresh d1 /\ Forall (search_target rid) (targets d1) /\ results d1 = [].
Proof.
  apply (search_phase_keeps rid
           (fun d => ids_fresh d /\ Forall (search_target rid) (targets d) /\
                     results d = [])).
  - intros d h (Hf & Hall & Hr). split; [by apply ids_fresh_add_target|].
    destruct (search_target_add d rid h) as [-> Hs]. split; [|done].
    apply Forall_app. split; [done|]. by constructor.
  - split; [apply ids_fresh_new|]. by split.
Qed.
End Crawl.

(** X11. A whole run without limit on the detail targets
    ([VRBO_MAX_DETAIL_TARGETS] 0 or negative), on the new store of [main]:
    when the search of every city and the detail phase return, the detail
    phase has navigated exactly once to each target of the store, in the
    order of discovery and through its stored full URL; every target
    carries the run id and a normalized value and has left the status
    [queued] for [done], [empty] or [error]; and the results are, in order,
    one record for each target that is [done]. *)
Theorem crawl_visits_every_target `{NetlocTables} {Data : Type}
    (cfg : Config) (rid : Z) (visits : list CityVisit)
    (browser : nat -> string -> DetailPage Data) :
  VRBO_MAX_DETAIL_TARGETS cfg <= 0 ->
  match crawl cfg rid visits browser with
  | Return (Some (d, ev)) =>
      List.filter is_get ev
      = map (fun t => EvGet (row_full_url t)) (targets d) /\
      Forall (fun t => run_id t = rid /\ type t = VRBO_TARGET_TYPE /\
                       value t = clean_url (url t) /\
                       status t ∈ ["done"; "empty"; "error"])
             (targets d) /\
      map rental_url (results d)
      = map value (List.filter (fun t => String.eqb (status t) "done")
                               (targets d))
  | _ => True
  end.
Proof.
  intros Hlim. unfold crawl.
  destruct (search_phase cfg rid visits new_db) as [[d1|]|e] eqn:Hs;
    cbn [bind]; [|done|done].
  destruct (search_phase_store cfg rid visits d1 Hs)
    as ([Hnd _] & Hall & Hres).
  assert (Hsel : selected_targets cfg d1 rid = targets d1).
  { unfold selected_targets.
    destruct (Z.ltb_spec 0 (VRBO_MAX_DETAIL_TARGETS cfg)); [lia|].
    unfold list_targets. apply list_filter_all.
    eapply Forall_impl; [exact Hall|]. intros t Ht.
    by apply (search_target_listed rid). }
  rewrite process_detail_targets_spec by done. rewrite Hsel, Hres.
  cbn [targets results app].
  set (sts := statuses_from browser 0 (targets d1)).
  split; [|split].
  - rewrite events_from_gets, map_map. apply map_ext. intros t.
    by rewrite retag_row_full_url.
  - apply Forall_forall. intros t' Ht'.
    apply list_elem_of_fmap in Ht' as (t & -> & Ht).
    rewrite Forall_forall in Hall.
    destruct (Hall t Ht) as (Hr & Hty & _ & Hv & _).
    destruct (retag_fields sts t) as (-> & -> & -> & ->).
    repeat split; [done..|].
    apply retag_hit_status; [apply statuses_from_cases|].
    unfold sts. rewrite statuses_from_keys. by apply list_elem_of_fmap_2.
  - by apply rentals_from_urls.
Qed.

(** One city with five listings, every detail page read. *)
Lemma crawl_visits_every_target_witness :
  exists d ev,
    crawl (H := lenient_tables) unlimited_config 7 [example_visit]
          (fun _ _ => good_page)
    = Return (Some (d, ev)) /\
    length (targets d) = 5%nat /\
    List.filter is_get ev
    = map (fun t => EvGet (row_full_url t)) (targets d) /\
    map rental_url (results d)
    = map value (List.filter (fun t => String.eqb (status t) "done")
                             (targets d)).
Proof.
  assert (Hl : VRBO_MAX_DETAIL_TARGETS unlimited_config <= 0) by discriminate.
  pose proof (crawl_visits_every_target (H := lenient_tables) unlimited_config
                7 [example_visit] (fun _ _ => good_page) Hl) as Hc.
  destruct (crawl (H := lenient_tables) unlimited_config 7 [example_visit]
                  (fun _ _ => good_page)) as [[[d ev]|]|e] eqn:Hrun.
  - exists d, ev. split; [reflexivity|]. destruct Hc as (Hg & _ & Hr).
    split; [|by split].
    vm_compute in Hrun. injection Hrun as Hd _. rewrite <- Hd. reflexivity.
  - vm_compute in Hrun. discriminate.
  - vm_compute in Hrun. discriminate.
Defined.

Section Blocked.

Lemma strip_prefix_app p r : strip_prefix p (p +:+ r) = Some r.
Proof.
  induction p as [|a p IH]; [by destruct r|].
  change (String a p +:+ r) with (String a (p +:+ r)). cbn [strip_prefix].
  by rewrite Ascii.eqb_refl.
Qed.

Lemma strip_prefix_Some p s r : strip_prefix p s = Some r -> s = p +:+ r.
Proof.
  revert s. induction p as [|a p IH]; intros s; cbn [strip_prefix].
  - by intros [= <-].
  - destruct s as [|b s]; [done|].
    destruct (Ascii.eqb_spec a b) as [->|]; [|done].
    intros Hs. change (String b p +:+ r) with (String b (p +:+ r)).
    f_equal. by apply IH.
Qed.

Lemma contains_unfold needle s :
  contains needle s
  = match strip_prefix needle s with
    | Some _ => true
    | None => match s with
              | EmptyString => false
              | String _ s' => contains needle s'
              end
    end.
Proof. by destruct s. Qed.

(** [needle in s]: [s] is [needle] between two strings. *)
Lemma contains_iff needle s :
  contains needle s = true <->
  exists pre post, s = pre +:+ needle +:+ post.
Proof.
  split.
  - induction s as [|c s IH]; rewrite contains_unfold.
    + destruct (strip_prefix needle EmptyString) as [r|] eqn:Hp; [|done].
      intros _. exists EmptyString, r. exact (strip_prefix_Some _ _ _ Hp).
    + destruct (strip_prefix needle (String c s)) as [r|] eqn:Hp.
      * intros _. exists EmptyString, r. exact (strip_prefix_Some _ _ _ Hp).
      * intros (pre & post & ->)%IH. by exists (String c pre), post.
  - intros (pre & post & ->). induction pre as [|c pre IH].
    + rewrite contains_unfold.
      change (EmptyString +:+ needle +:+ post) with (needle +:+ post).
      by rewrite strip_prefix_app.
    + rewrite contains_unfold.
      change (String c pre +:+ needle +:+ post)
        with (String c (pre +:+ needle +:+ post)).
      by destruct (strip_prefix needle (String c (pre +:+ needle +:+ post))).
Qed.

Lemma str_map_app f a b : str_map f (a +:+ b) = str_map f a +:+ str_map f b.
Proof.
  induction a as [|c a IH]; [done|].
  change (String c a +:+ b) with (String c (a +:+ b)). cbn [str_map].
  rewrite IH. reflexivity.
Qed.

Lemma str_map_app_inv f s x y :
  str_map f s = x +:+ y ->
  exists a b, s = a +:+ b /\ str_map f a = x /\ str_map f b = y.
Proof.
  revert s. induction x as [|c x IH]; intros s.
  - intros Hs. by exists EmptyString, s.
  - change (String c x +:+ y) with (String c (x +:+ y)).
    destruct s as [|c' s]; [done|]. cbn [str_map]. intros [= Hc Hs].
    destruct (IH s Hs) as (a & b & -> & Ha & Hb).
    exists (String c' a), b. cbn [str_map]. by rewrite Hc, Ha.
Qed.

Lemma contains_lower needle s :
  contains needle (lower s) = true <->
  exists pre m post, s = pre +:+ m +:+ post /\ lower m = needle.
Proof.
  rewrite contains_iff. unfold lower. split.
  - intros (pre' & post' & Hs).
    apply str_map_app_inv in Hs as (pre & rest & -> & _ & Hrest).
    apply str_map_app_inv in Hrest as (m & post & -> & Hm & _).
    by exists pre, m, post.
  - intros (pre & m & post & -> & <-).
    exists (str_map lower_char pre), (str_map lower_char post).
    by rewrite !str_map_app.
Qed.
End Blocked.

(** X12. [is_blocked] answers yes exactly when the page source holds, at
    any place, a run of characters that is one of the two block markers up
    to the case of its ASCII letters. *)
Theorem is_blocked_iff (page_source : string) :
  is_blocked page_source = true <->
  exists pre m post,
    page_source = pre +:+ m +:+ post /\ lower m ∈ block_markers.
Proof.
  unfold is_blocked, block_markers. rewrite orb_true_iff, !contains_lower.
  split.
  - intros [(pre & m & post & Hs & Hm)|(pre & m & post & Hs & Hm)];
      exists pre, m, post; (split; [done|]); rewrite Hm; set_solver.
  - intros (pre & m & post & Hs & Hm).
    apply elem_of_cons in Hm as [Hm|Hm]; [left; by exists pre, m, post|].
    apply list_elem_of_singleton in Hm. right. by exists pre, m, post.
Qed.


(* ===================================================================== *)
(** * Dates of the entry URL                                               *)
(* ===================================================================== *)

Section EntryDates.
Implicit Types (city : CityCfg) (q : Dict) (k : string).

Lemma nonempty_app_r a b : nonempty b = true -> nonempty (a +:+ b) = true.
Proof. destruct a; [done|]. by destruct b. Qed.

Lemma isoformat_nonempty n : nonempty (isoformat n) = true.
Proof.
  unfold isoformat. destruct (ord2ymd n) as [[y m] d].
  by apply nonempty_app_r.
Qed.

Lemma set_if_get_eq k (v : option string) q :
  dict_get k (set_if k v q) = if truthy v then v else dict_get k q.
Proof.
  unfold set_if, truthy. destruct v as [s|]; [|done].
  destruct (nonempty s); [apply dict_get_set_eq|done].
Qed.

Lemma set_param_get_in k (keys : list string) (v : option string) q :
  NoDup (map fst q) -> str_in k keys = true ->
  dict_get k (set_param keys v q) = date_param v.
Proof.
  unfold set_param, str_in. revert q.
  induction keys as [|k2 keys IH]; intros q Hq; [done|]. cbn [existsb fold_left].
  set (q1 := match v with
             | Some s => if nonempty s then dict_set k2 s q else dict_pop k2 q
             | None => dict_pop k2 q
             end).
  assert (Hq1 : NoDup (map fst q1)).
  { unfold q1. destruct v as [s|]; [|by apply dict_pop_NoDup].
    destruct (nonempty s); [by apply dict_set_NoDup|by apply dict_pop_NoDup]. }
  destruct (existsb (String.eqb k) keys) eqn:Hks.
  - intros _. by apply IH.
  - rewrite orb_false_r. intros ->%String.eqb_eq.
    pose proof (set_param_get_ne k2 keys v q1 Hks) as Hne.
    unfold set_param in Hne. rewrite Hne. unfold q1, date_param, truthy.
    destruct v as [s|]; [|by apply dict_get_pop_eq].
    destruct (nonempty s); [apply dict_get_set_eq|by apply dict_get_pop_eq].
Qed.

Lemma children_layer_get k (n : Z) (pop : bool) q :
  String.eqb k "children" = false ->
  dict_get k (if n =? 0 then (if pop then dict_pop "children" q else q)
              else dict_set "children" (str_of_int n) q)
  = dict_get k q.
Proof.
  intros Hk. destruct (n =? 0); [|by apply dict_get_set_ne].
  destruct pop; [by apply dict_get_pop_ne|done].
Qed.

Lemma overlay_query_checkin city q k :
  NoDup (map fst q) -> str_in k checkin_keys = true ->
  dict_get k (overlay_query city q) = date_param (checkin city).
Proof.
  intros Hq Hk. unfold overlay_query.
  assert (Hcase : k = "checkIn" \/ k = "startDate" \/ k = "d1").
  { unfold str_in, checkin_keys in Hk. cbn [existsb] in Hk.
    rewrite orb_false_r, !orb_true_iff, !String.eqb_eq in Hk. tauto. }
  assert (Hne : String.eqb k "sort" = false /\
                String.eqb k "regionId" = false /\
                String.eqb k "children" = false /\
                String.eqb k "adults" = false /\
                str_in k checkout_keys = false)
    by (destruct Hcase as [->|[->| ->]]; by repeat split).
  destruct Hne as (H1 & H2 & H3 & H4 & H5).
  rewrite !set_if_get_ne by done.
  rewrite (children_layer_get k (children city) true) by done.
  rewrite dict_get_set_ne by done.
  rewrite set_param_get_ne by done.
  by apply set_param_get_in.
Qed.

Lemma overlay_query_checkout city q k :
  NoDup (map fst q) -> str_in k checkout_keys = true ->
  dict_get k (overlay_query city q) = date_param (checkout city).
Proof.
  intros Hq Hk. unfold overlay_query.
  assert (Hcase : k = "checkOut" \/ k = "endDate" \/ k = "d2").
  { unfold str_in, checkout_keys in Hk. cbn [existsb] in Hk.
    rewrite orb_false_r, !orb_true_iff, !String.eqb_eq in Hk. tauto. }
  assert (Hne : String.eqb k "sort" = false /\
                String.eqb k "regionId" = false /\
                String.eqb k "children" = false /\
                String.eqb k "adults" = false)
    by (destruct Hcase as [->|[->| ->]]; by repeat split).
  destruct Hne as (H1 & H2 & H3 & H4).
  rewrite !set_if_get_ne by done.
  rewrite (children_layer_get k (children city) true) by done.
  rewrite dict_get_set_ne by done.
  apply set_param_get_in; [by apply set_param_NoDup|done].
Qed.

(** The layers of [fresh_query] above the dates do not touch a date key. *)
Lemma fresh_query_date_layers city k q :
  String.eqb k "sort" = false -> String.eqb k "children" = false ->
  String.eqb k "adults" = false ->
  dict_get k
    (set_if "sort" (Some (sort city))
       (if children city =? 0
        then dict_set "adults" (str_of_int (Z.max 1 (adults city))) q
        else dict_set "children" (str_of_int (children city))
               (dict_set "adults" (str_of_int (Z.max 1 (adults city))) q)))
  = dict_get k q.
Proof.
  intros H1 H2 H3. rewrite set_if_get_ne by done.
  destruct (children city =? 0); rewrite ?dict_get_set_ne by done; done.
Qed.

Lemma fresh_query_dates city :
  dict_get "d1" (fresh_query city) = date_param (checkin city) /\
  dict_get "startDate" (fresh_query city) = date_param (checkin city) /\
  dict_get "d2" (fresh_query city) = date_param (checkout city) /\
  dict_get "endDate" (fresh_query city) = date_param (checkout city) /\
  dict_get "checkIn" (fresh_query city) = None /\
  dict_get "checkOut" (fresh_query city) = None.
Proof.
  unfold fresh_query. cbv zeta.
  repeat split; rewrite fresh_query_date_layers by done;
    repeat first [ rewrite set_if_get_eq; unfold date_param;
                   destruct (truthy _); [done|]
                 | rewrite set_if_get_ne by done
                 | rewrite dict_get_set_ne by done ];
    try done.
Qed.

Lemma force_tomorrow_result today c c' :
  _force_tomorrow_dates today c = Return c' ->
  exists ci co, c' = set_dates c (isoformat ci) (isoformat co) /\
                _force_tomorrow_dates today c' = Return c'.
Proof.
  unfold _force_tomorrow_dates.
  destruct (date_add_days today 1) as [ci|e] eqn:H1; cbn [bind]; [|done].
  destruct (date_add_days ci (Z.max 1 (nights c))) as [co|e] eqn:H2;
    cbn [bind]; [|done].
  intros [= <-]. exists ci, co. split; [done|].
  cbn [nights set_dates]. rewrite H2. cbn [bind]. reflexivity.
Qed.
End EntryDates.

(** X13. The config that [ensure_dates] returns has a check-in and a
    check-out date, both not empty, and is a fixed point: a second call on
    the same day returns it as it is, and with force-tomorrow off so does a
    call on any other day; hence the entry URL that [build_entry_url]
    synthesizes for it (no explicit search URL) carries the check-in date
    as [d1] and [startDate] and the check-out date as [d2] and [endDate]. *)
Theorem ensure_dates_fixed_point `{NetlocTables} (cfg : Config) (today : Z)
    (c c' : CityCfg) :
  ensure_dates cfg today c = Return c' ->
  truthy (checkin c') = true /\ truthy (checkout c') = true /\
  ensure_dates cfg today c' = Return c' /\
  (VRBO_FORCE_TOMORROW cfg = false ->
   forall day : Z, ensure_dates cfg day c' = Return c') /\
  (truthy (search_url c') = false ->
   exists target,
     build_entry_url c' = Return target /\
     url_query_param "d1" target = checkin c' /\
     url_query_param "startDate" target = checkin c' /\
     url_query_param "d2" target = checkout c' /\
     url_query_param "endDate" target = checkout c').
Proof.
  intros He.
  assert (Hd : truthy (checkin c') = true /\ truthy (checkout c') = true /\
               ensure_dates cfg today c' = Return c').
  { revert He. unfold ensure_dates.
    destruct (VRBO_FORCE_TOMORROW cfg).
    - intros (ci & co & -> & Hf)%force_tomorrow_result.
      cbn [checkin checkout set_dates truthy].
      by rewrite !isoformat_nonempty.
    - destruct (negb (truthy (checkin c)) || negb (truthy (checkout c)))
        eqn:Hm.
      + intros (ci & co & -> & Hf)%force_tomorrow_result.
        cbn [checkin checkout set_dates truthy].
        by rewrite !isoformat_nonempty.
      + intros [= <-]. rewrite Hm.
        apply orb_false_iff in Hm as [Hi Ho].
        apply negb_false_iff in Hi, Ho. done. }
  destruct Hd as (Hi & Ho & Hfix). repeat split; [done..| |].
  - intros Hoff day. unfold ensure_dates. by rewrite Hoff, Hi, Ho.
  - intros Hs. unfold build_entry_url. rewrite Hs. eexists. split; [done|].
    rewrite !fresh_url_param.
    destruct (fresh_query_dates c') as (-> & -> & -> & -> & _).
    unfold date_param. by rewrite Hi, Ho.
Qed.

(** On 2026-11-03, a config with stale dates and two nights. *)
Lemma ensure_dates_fixed_point_witness :
  truthy (checkin (set_dates stale_city "2026-11-04" "2026-11-06")) = true /\
  ensure_dates default_config 739923
               (set_dates stale_city "2026-11-04" "2026-11-06")
  = Return (set_dates stale_city "2026-11-04" "2026-11-06").
Proof.
  destruct (ensure_dates_fixed_point (H := lenient_tables) default_config
              739923 stale_city
              (set_dates stale_city "2026-11-04" "2026-11-06"))
    as (Hi & _ & Hfix & _).
  - vm_compute. reflexivity.
  - split; [exact Hi|exact Hfix].
Defined.

(** X14. [build_entry_url] writes each date under all its parameter names
    or under none. With an explicit search URL, [checkIn], [startDate] and
    [d1] all carry the check-in date when the config has one, and are all
    absent when it has none (None or empty), whatever the URL said before;
    likewise [checkOut], [endDate] and [d2] for the check-out date. With
    no search URL, [d1] and [startDate] carry the check-in date, [d2] and
    [endDate] the check-out date, and [checkIn] and [checkOut] are never
    written. *)
Theorem build_entry_url_dates `{NetlocTables} (city : CityCfg) :
  (forall (u : string) (parsed : ParseResult),
     search_url city = Some u -> nonempty u = true ->
     urlparse u = Return parsed ->
     let q := overlay_query city (dict_of (parse_qsl (query parsed))) in
     build_entry_url city
     = Return (urlunparse (mkParse (scheme parsed) (netloc parsed)
                                   (path parsed) (params parsed)
                                   (urlencode q) (fragment parsed))) /\
     (forall k, str_in k checkin_keys = true ->
                dict_get k q = date_param (checkin city)) /\
     (forall k, str_in k checkout_keys = true ->
                dict_get k q = date_param (checkout city))) /\
  (truthy (search_url city) = false ->
   exists target,
     build_entry_url city = Return target /\
     url_query_param "d1" target = date_param (checkin city) /\
     url_query_param "startDate" target = date_param (checkin city) /\
     url_query_param "d2" target = date_param (checkout city) /\
     url_query_param "endDate" target = date_param (checkout city) /\
     url_query_param "checkIn" target = None /\
     url_query_param "checkOut" target = None).
Proof.
  split.
  - intros u parsed Hu Hne Hp q. split; [|split].
    + unfold build_entry_url. rewrite Hu. simpl. rewrite Hne. simpl.
      by rewrite Hp.
    + intros k Hk. apply overlay_query_checkin; [apply dict_of_NoDup|done].
    + intros k Hk. apply overlay_query_checkout; [apply dict_of_NoDup|done].
  - intros Hs. unfold build_entry_url. rewrite Hs. eexists. split; [done|].
    rewrite !fresh_url_param. apply fresh_query_dates.
Qed.

(** An explicit search URL that names a check-in date, and a config
    without dates: the parameter goes. *)
Lemma build_entry_url_dates_witness :
  dict_get "checkIn"
    (overlay_query dated_url_city
       (dict_of (parse_qsl "foo=bar&checkIn=2020-01-01")))
  = None.
Proof.
  destruct (build_entry_url_dates (H := lenient_tables) dated_url_city)
    as [Hov _].
  destruct (Hov "https://www.vrbo.com/search?foo=bar&checkIn=2020-01-01"
                (mkParse "https" "www.vrbo.com" "/search" EmptyString
                         "foo=bar&checkIn=2020-01-01" EmptyString))
    as (_ & Hin & _); [reflexivity..|].
  exact (Hin "checkIn" eq_refl).
Defined.


(* ===================================================================== *)
(** * When a price text gives a number                                     *)
(* ===================================================================== *)

Section PriceDefined.

Lemma span_app p s : (span p s).1 +:+ (span p s).2 = s.
Proof.
  induction s as [|c s IH]; [done|]. cbn [span].
  destruct (p c); [|done]. destruct (span p s) as [a b]. cbn [fst snd] in *.
  change (String c a +:+ b) with (String c (a +:+ b)). by rewrite IH.
Qed.

Lemma str_count_app p a b :
  str_count p (a +:+ b) = (str_count p a + str_count p b)%nat.
Proof.
  induction a as [|c a IH]; [done|].
  change (String c a +:+ b) with (String c (a +:+ b)). cbn [str_count].
  rewrite IH. lia.
Qed.

Lemma str_count_none p s :
  str_forallb (fun c => negb (p c)) s = true -> str_count p s = O.
Proof.
  induction s as [|c s IH]; [done|]. cbn [str_forallb str_count].
  intros [Hc Hs]%andb_true_iff. apply negb_true_iff in Hc.
  rewrite Hc, IH; done.
Qed.

Lemma digits_iff_no_dot s :
  str_forallb is_num_char s = true ->
  str_forallb is_digit s = true <-> str_count is_dot s = O.
Proof.
  induction s as [|c s IH]; [done|]. cbn [str_forallb str_count].
  intros [Hc Hs]%andb_true_iff. specialize (IH Hs).
  unfold is_num_char in Hc.
  assert (Hx : is_digit c = true -> is_dot c = false)
    by (unfold is_dot; by_bytes c).
  destruct (is_digit c) eqn:Hd.
  - rewrite (Hx eq_refl). cbn. exact IH.
  - cbn in Hc. rewrite Hc. cbn. split; [done|lia].
Qed.

Lemma float_of_str_none c w :
  is_digit c = true -> str_forallb is_num_char w = true ->
  float_of_str (String c w) = None <-> (2 <= str_count is_dot w)%nat.
Proof.
  intros Hc Hw. unfold float_of_str, split_once.
  assert (Hnd : negb (Ascii.eqb c ".") = true) by (revert Hc; by_bytes c).
  cbn [span]. rewrite Hnd.
  pose proof (span_app (fun c0 => negb (Ascii.eqb c0 ".")) w) as Happ.
  pose proof (span_fst (fun c0 => negb (Ascii.eqb c0 ".")) w) as Hfst.
  pose proof (span_snd (fun c0 => negb (Ascii.eqb c0 ".")) w) as Hsnd.
  destruct (span_keeps is_num_char (fun c0 => negb (Ascii.eqb c0 ".")) w Hw)
    as [Ha Hb].
  destruct (span (fun c0 => negb (Ascii.eqb c0 ".")) w) as [a b].
  cbn [fst snd] in *.
  assert (Hca : str_count is_dot a = O) by (by apply str_count_none).
  assert (Hda : str_forallb is_digit a = true)
    by (by apply digits_iff_no_dot).
  rewrite <- Happ, str_count_app, Hca.
  destruct b as [|d b].
  - cbn [nonempty str_forallb str_count]. rewrite Hc, Hda. cbn.
    split; [done|lia].
  - cbn [stops] in Hsnd. apply negb_false_iff in Hsnd.
    cbn [str_forallb] in Hb. apply andb_true_iff in Hb as [_ Hb].
    cbn [nonempty str_forallb str_count]. unfold is_dot at 1.
    rewrite Hsnd, Hc, Hda. cbn [andb].
    pose proof (digits_iff_no_dot b Hb) as Hiff.
    destruct (str_forallb is_digit b).
    + split; [done|]. intros Hle.
      assert (str_count is_dot b = O) by by apply Hiff. lia.
    + split; [|done]. intros _.
      destruct (str_count is_dot b) eqn:Hn; [|lia].
      by assert (false = true) by by apply Hiff.
Qed.

Lemma price_char_cases c :
  is_price_char c = true ->
  (is_digit c = true /\ Ascii.eqb c "." = false /\ Ascii.eqb c "," = false) \/
  c = "."%char \/ c = ","%char.
Proof.
  destruct c as [[] [] [] [] [] [] [] []]; vm_compute; intros Hc;
    try discriminate; tauto.
Qed.

(** The run after the dots are removed and the commas turned into dots. *)
Lemma price_run_points run :
  str_forallb is_price_char run = true ->
  str_forallb is_num_char (commas_to_dots (remove_dots run)) = true /\
  str_count is_dot (commas_to_dots (remove_dots run)) = commas run.
Proof.
  unfold commas_to_dots, remove_dots, commas.
  induction run as [|c run IH]; [done|]. cbn [str_forallb].
  intros [Hc Hrun]%andb_true_iff. destruct (IH Hrun) as [IH1 IH2].
  destruct (price_char_cases c Hc) as [(Hd & Hdot & Hcom)|[-> | ->]].
  - cbn [str_filter str_count]. rewrite Hdot. cbn [negb str_map].
    rewrite Hcom. cbn [str_forallb str_count]. unfold is_num_char at 1.
    unfold is_dot at 1. assert (Ascii.eqb "," c = false) as ->
      by (by rewrite Ascii.eqb_sym).
    rewrite Hd, Hdot, IH1, IH2. unfold is_dot. by rewrite Hdot.
  - cbn [str_filter str_count]. cbn. by rewrite IH2.
  - cbn [str_filter str_count]. cbn. by rewrite IH1, IH2.
Qed.

Lemma digit_code c : is_digit c = true -> 0 <= code c - 48.
Proof. by_bytes c. Qed.

Lemma digits_value_nonneg acc s :
  0 <= acc -> str_forallb is_digit s = true -> 0 <= digits_value acc s.
Proof.
  revert acc. induction s as [|c s IH]; intros acc Hacc; [done|].
  cbn [str_forallb digits_value]. intros [Hc Hs]%andb_true_iff.
  apply IH; [|done]. pose proof (digit_code c Hc). lia.
Qed.

Lemma float_of_str_nonneg v q : float_of_str v = Some q -> (0 <= q)%Q.
Proof.
  unfold float_of_str. destruct (split_once "." v) as [ip [fp|]].
  - destruct (nonempty ip); [|done]. cbn [andb].
    destruct (str_forallb is_digit ip) eqn:Hip; [|done]. cbn [andb].
    destruct (str_forallb is_digit fp) eqn:Hfp; [|done].
    intros [= <-]. rewrite Qred_correct. unfold Qle. cbn [Qnum Qden].
    assert (0 <= digits_value 0 (ip +:+ fp))
      by (apply digits_value_nonneg; [done|];
          by rewrite str_forallb_app, Hip, Hfp).
    lia.
  - destruct (nonempty ip); [|done]. cbn [andb].
    destruct (str_forallb is_digit ip) eqn:Hip; [|done].
    intros [= <-]. rewrite Qred_correct. unfold Qle. cbn [Qnum Qden].
    assert (0 <= digits_value 0 ip) by (by apply digits_value_nonneg).
    lia.
Qed.

Lemma parse_price_amount_run pre c run post :
  str_existsb is_digit pre = false -> is_digit c = true ->
  str_forallb is_price_char run = true -> stops is_price_char post ->
  parse_price_amount (Some (pre +:+ String c run +:+ post))
  = float_of_str (commas_to_dots (remove_dots (String c run))).
Proof.
  intros Hpre Hc Hrun Hpost.
  unfold parse_price_amount, truthy. cbv [default from_option Datatypes.id].
  rewrite search_price_run by done.
  change (String c run +:+ post) with (String c (run +:+ post)).
  by rewrite nonempty_app_cons.
Qed.
End PriceDefined.

(** X15. When [parse_price_amount] gives no number for a text that has a
    digit: exactly when the run that starts at the first digit holds two
    commas or more, for then [float] raises ValueError, which the function
    swallows; dots never have that effect, they are dropped. And the number
    it gives is never negative, whatever the text: a sign before the first
    digit is not part of the match. *)
Theorem parse_price_amount_defined :
  (forall (pre : string) (c : ascii) (run post : string),
     str_existsb is_digit pre = false -> is_digit c = true ->
     str_forallb is_price_char run = true -> stops is_price_char post ->
     parse_price_amount (Some (pre +:+ String c run +:+ post)) = None
     <-> (2 <= commas run)%nat) /\
  (forall (text : option string) (q : Q),
     parse_price_amount text = Some q -> (0 <= q)%Q).
Proof.
  split.
  - intros pre c run post Hpre Hc Hrun Hpost.
    rewrite parse_price_amount_run by done.
    destruct (price_run_points run Hrun) as [Hnum Hcount].
    assert (Hdot : Ascii.eqb c "." = false) by (revert Hc; by_bytes c).
    assert (Hcom : Ascii.eqb c "," = false) by (revert Hc; by_bytes c).
    unfold remove_dots, commas_to_dots. cbn [str_filter]. rewrite Hdot.
    cbn [negb str_map]. rewrite Hcom.
    fold (remove_dots run). fold (commas_to_dots (remove_dots run)).
    rewrite float_of_str_none by done. by rewrite Hcount.
  - intros text q. unfold parse_price_amount.
    destruct (truthy text); [|done].
    destruct (search_price (default EmptyString text)) as [raw|]; [|done].
    apply float_of_str_nonneg.
Qed.

(** A price with two thousands commas gives no number. *)
Lemma parse_price_amount_defined_witness :
  parse_price_amount (Some "USD 1,234,567") = None.
Proof.
  apply (proj1 parse_price_amount_defined "USD " "1"%char ",234,567"
           EmptyString); [reflexivity..|exact I|].
  vm_compute. lia.
Defined.


(* ===================================================================== *)
(** * The extractors of the detail page                                    *)
(* ===================================================================== *)

Section Extractors.

Lemma list_filter_True {A : Type} (P : A -> Prop) `{!forall x, Decision (P x)}
    (l : list A) :
  (forall x, x ∈ l -> P x) -> filter P l = l.
Proof.
  induction l as [|a l IH]; intros HP; [done|].
  rewrite filter_cons_True by (apply HP; by left). f_equal.
  apply IH. intros x Hx. apply HP. by right.
Qed.

Lemma images_loop_spec srcs limit (images : list string) (seen : gset string) :
  seen = list_to_set images -> Z.of_nat (length images) < limit ->
  images_loop srcs limit images
  = take (Z.to_nat limit) (unique_loop srcs seen images).
Proof.
  revert images seen.
  induction srcs as [|src srcs IH]; intros images seen Hseen Hlen.
  - cbn [images_loop unique_loop]. by rewrite take_ge by lia.
  - cbn [images_loop unique_loop].
    assert (Hsame : images_loop srcs limit images
                    = take (Z.to_nat limit) (unique_loop srcs seen images))
      by by apply IH.
    assert (Hkeep : (if limit <=? Z.of_nat (length images) then images
                     else images_loop srcs limit images)
                    = take (Z.to_nat limit) (unique_loop srcs seen images))
      by (destruct (Z.leb_spec limit (Z.of_nat (length images))); [lia|done]).
    destruct src as [s|]; [|done].
    destruct (nonempty s); cbn [andb]; [|done].
    assert (Hdec : bool_decide (s ∈ images) = bool_decide (s ∈ seen))
      by (apply bool_decide_ext; subst seen; by rewrite elem_of_list_to_set).
    rewrite Hdec. destruct (bool_decide (s ∈ seen)); cbn [negb]; [done|].
    destruct (Z.leb_spec limit (Z.of_nat (length (images ++ [s]))))
      as [Hle|Hgt].
    + rewrite unique_loop_filter. apply eq_sym, take_app_length'.
      rewrite length_app in *. cbn [length] in *. lia.
    + apply IH; [|done]. subst seen. rewrite list_to_set_app_L.
      cbn [list_to_set]. set_solver.
Qed.

Lemma unique_list_app (a b : list (option string)) :
  unique_list (a ++ b)
  = unique_list a ++ filter (fun x => x ∉ unique_list a) (unique_list b).
Proof.
  induction a as [|item a IH]; cbn [app].
  - change (unique_list []) with (@nil string). cbn [app].
    symmetry. apply list_filter_True. intros x _. apply not_elem_of_nil.
  - destruct (truthy item) eqn:Ht.
    + destruct item as [s|]; [|done]. cbn [truthy] in Ht.
      rewrite !unique_list_cons_keep by done. rewrite IH.
      rewrite filter_app, list_filter_filter. cbn [app]. do 2 f_equal.
      apply list_filter_iff. intros x.
      rewrite not_elem_of_cons, list_elem_of_filter. tauto.
    + by rewrite !unique_list_cons_drop by done.
Qed.

Lemma unique_list_truthy (texts : list (option string)) :
  unique_list
    (map Some (flat_map (fun txt => if truthy txt
                                    then [default EmptyString txt]
                                    else []) texts))
  = unique_list texts.
Proof.
  induction texts as [|txt texts IH]; [done|]. cbn [flat_map].
  destruct (truthy txt) eqn:Ht.
  - destruct txt as [s|]; [|done]. cbn [truthy] in Ht.
    cbn [app map default from_option].
    rewrite !unique_list_cons_keep by done. by rewrite IH.
  - cbn [app]. by rewrite unique_list_cons_drop.
Qed.

(** The popular amenities: the truthy texts, all of them, in order. *)
Lemma popular_as_read (texts : list (option string)) :
  map Some (flat_map (fun txt => if truthy txt
                                 then [default EmptyString txt]
                                 else []) texts)
  = List.filter truthy texts.
Proof.
  induction texts as [|txt texts IH]; [done|]. cbn [flat_map List.filter].
  destruct (truthy txt) eqn:Ht; [|done].
  destruct txt as [s|]; [|done]. cbn [app map default from_option].
  by rewrite IH.
Qed.

Implicit Types (items : list ContentItem) (seen : gset ContentItem).

Lemma dedupe_loop_filter items seen cleaned :
  dedupe_loop items seen cleaned
  = cleaned ++ filter (fun x => x ∉ seen) (dedupe_items items).
Proof.
  unfold dedupe_items. revert seen cleaned.
  induction items as [|item items IH]; intros seen cleaned;
    cbn [dedupe_loop].
  - by rewrite app_nil_r.
  - rewrite (bool_decide_eq_false_2 (item ∈ (∅ : gset ContentItem)))
      by set_solver.
    rewrite (IH ({[item]} ∪ ∅) ([] ++ [item])). cbn [app].
    case_bool_decide as Hin.
    + rewrite IH. f_equal. rewrite filter_cons_False by set_solver.
      rewrite list_filter_filter. apply list_filter_iff. set_solver.
    + rewrite IH, <- app_assoc. cbn [app]. f_equal.
      rewrite filter_cons_True by set_solver. f_equal.
      rewrite list_filter_filter. apply list_filter_iff. set_solver.
Qed.

Lemma dedupe_items_cons item items :
  dedupe_items (item :: items)
  = item :: filter (fun x => x <> item) (dedupe_items items).
Proof.
  unfold dedupe_items at 1. cbn [dedupe_loop].
  rewrite (bool_decide_eq_false_2 (item ∈ (∅ : gset ContentItem)))
    by set_solver.
  rewrite dedupe_loop_filter. cbn [app]. f_equal.
  apply list_filter_iff. set_solver.
Qed.

Lemma dedupe_items_elem items x : x ∈ dedupe_items items <-> x ∈ items.
Proof.
  induction items as [|item items IH]; [done|].
  rewrite dedupe_items_cons, !elem_of_cons, list_elem_of_filter, IH.
  destruct (decide (x = item)); tauto.
Qed.

Lemma dedupe_items_NoDup items : NoDup (dedupe_items items).
Proof.
  induction items as [|item items IH]; [constructor|].
  rewrite dedupe_items_cons. constructor; [|by apply NoDup_filter].
  rewrite list_elem_of_filter. tauto.
Qed.

Lemma dedupe_items_sublist items : dedupe_items items `sublist_of` items.
Proof.
  induction items as [|item items IH]; [done|].
  rewrite dedupe_items_cons. apply sublist_skip.
  etrans; [apply sublist_filter|done].
Qed.

Lemma dedupe_items_NoDup_id items : NoDup items -> dedupe_items items = items.
Proof.
  induction 1 as [|item items Hnot _ IH]; [done|].
  rewrite dedupe_items_cons, IH. f_equal.
  apply list_filter_True. intros x Hx ->. done.
Qed.

Lemma policies_grid_filter (grid : list (option ContentItem)) :
  flat_map (fun parsed =>
              match parsed with
              | Some item => if has_text item then [item] else []
              | None => []
              end) grid
  = List.filter has_text (omap Datatypes.id grid).
Proof.
  induction grid as [|[item|] grid IH]; cbn [flat_map omap list_omap];
    [done| |done].
  unfold Datatypes.id at 1. cbn [List.filter].
  destruct (has_text item); cbn [app]; by rewrite IH.
Qed.

Lemma click_elems_app a b :
  click_elems (a ++ b)
  = if (click_elems a).1 then click_elems a
    else ((click_elems b).1, (click_elems a).2 ++ (click_elems b).2).
Proof.
  induction a as [|e a IH]; cbn [app click_elems].
  - by destruct (click_elems b).
  - destruct (is_displayed e); cbn [negb]; [|done].
    destruct (marked_disabled e); [done|].
    destruct (is_enabled e); cbn [negb]; [|done].
    destruct (click_raises e); [|done].
    rewrite IH. destruct (click_elems a) as [[] tr]; [done|].
    cbn [fst snd]. by destruct (click_elems b).
Qed.

Lemma click_next_flat selectors :
  click_next selectors = click_elems (concat selectors).
Proof.
  induction selectors as [|elems selectors IH]; [done|].
  cbn [click_next concat]. rewrite click_elems_app.
  destruct elems as [|e elems]; [by rewrite IH; destruct (click_elems _)|].
  destruct (click_elems (e :: elems)) as [[] tr]; cbn [fst snd]; [done|].
  rewrite IH. by destruct (click_elems (concat selectors)).
Qed.

Lemma click_elems_cons e elems :
  click_elems (e :: elems)
  = if clickable e
    then if click_raises e
         then ((click_elems elems).1, e :: (click_elems elems).2)
         else (true, [e])
    else click_elems elems.
Proof.
  cbn [click_elems]. unfold clickable.
  destruct (is_displayed e), (marked_disabled e), (is_enabled e);
    cbn [negb andb]; try done.
  destruct (click_raises e); [by destruct (click_elems elems)|done].
Qed.

Lemma click_elems_spec elems :
  (click_elems elems).2 `prefix_of` List.filter clickable elems /\
  Forall (fun e => clickable e = true) (click_elems elems).2 /\
  (click_elems elems).1
  = existsb (fun e => clickable e && negb (click_raises e)) elems /\
  ((click_elems elems).1 = false ->
   (click_elems elems).2 = List.filter clickable elems) /\
  length (List.filter (fun e => negb (click_raises e)) (click_elems elems).2)
  = (if (click_elems elems).1 then 1 else 0)%nat.
Proof.
  induction elems as [|e elems (IH1 & IH2 & IH3 & IH4 & IH5)];
    [by repeat split; [|constructor]|].
  rewrite click_elems_cons. cbn [List.filter existsb].
  destruct (clickable e) eqn:Hc; cbn [andb orb]; [|done].
  destruct (click_raises e) eqn:Hr; cbn [negb orb fst snd].
  - repeat split.
    + by apply prefix_cons.
    + by constructor.
    + done.
    + intros Hb. by rewrite IH4.
    + cbn [List.filter]. by rewrite Hr.
  - repeat split.
    + apply prefix_cons, prefix_nil.
    + by repeat constructor.
    + done.
    + cbn [List.filter]. by rewrite Hr.
Qed.

Lemma scroll_window_spec fuel heights (M : Z) (k : nat) :
  (forall j, heights j <= M) -> M <= 800 * (Z.of_nat k + Z.of_nat fuel) ->
  exists tr,
    scroll_window fuel heights k (800 * Z.of_nat k) = Some tr /\
    tr = map (fun i => 800 * (Z.of_nat i + 1)) (seq k (length tr)) /\
    heights (k + length tr)%nat <= 800 * Z.of_nat (k + length tr) /\
    forall j, (k <= j < k + length tr)%nat -> 800 * Z.of_nat j < heights j.
Proof.
  intros HM. revert k.
  induction fuel as [|fuel IH]; intros k Hfuel.
  - exists []. cbn [scroll_window length].
    pose proof (HM k).
    destruct (Z.ltb_spec (800 * Z.of_nat k) (heights k)); [lia|].
    rewrite Nat.add_0_r. repeat split; [done|]. intros j Hj. lia.
  - cbn [scroll_window].
    destruct (Z.ltb_spec (800 * Z.of_nat k) (heights k)) as [Hlt|Hge].
    + destruct (IH (S k)) as (tr & Hrun & Htr & Hend & Hall); [lia|].
      replace (800 * Z.of_nat k + 800) with (800 * Z.of_nat (S k)) by lia.
      rewrite Hrun. exists (800 * Z.of_nat (S k) :: tr).
      cbn [length seq map]. repeat split.
      * f_equal; [lia|done].
      * by rewrite <- Nat.add_succ_comm.
      * intros j Hj. destruct (decide (j = k)) as [->|]; [done|].
        apply Hall. lia.
    + exists []. cbn [length]. rewrite Nat.add_0_r.
      repeat split; [done|]. intros j Hj. lia.
Qed.
End Extractors.

(** X16. [extract_images] with a limit of at least 1 returns the first
    [limit] entries of the list of the distinct non-empty [src] values, in
    the order of first occurrence. With a limit of 0 or less it still
    looks at the first image, since the limit is tested after an element
    has been handled: it returns that image's [src] when it has one. *)
Theorem extract_images_spec (srcs : list (option string)) (limit : Z) :
  (1 <= limit ->
   extract_images srcs limit = take (Z.to_nat limit) (unique_list srcs)) /\
  (limit <= 0 -> extract_images srcs limit = unique_list (take 1 srcs)).
Proof.
  split.
  - intros Hl. apply images_loop_spec; [done|cbn; lia].
  - intros Hl. destruct srcs as [|src srcs]; [done|].
    unfold extract_images, unique_list. simpl.
    destruct src as [s|].
    + rewrite (bool_decide_eq_false_2 (s ∈ (∅ : gset string))) by set_solver.
      destruct (nonempty s); simpl;
        match goal with
        | |- context [?a <=? ?b] => destruct (Z.leb_spec a b)
        end; (done || lia).
    + match goal with
      | |- context [?a <=? ?b] => destruct (Z.leb_spec a b)
      end; (done || lia).
Qed.

(** Three images, one of them twice, under a limit of two and of zero. *)
Lemma extract_images_spec_witness :
  extract_images [Some "a.jpg"; Some "a.jpg"; None; Some "b.jpg";
                  Some "c.jpg"] 2
  = ["a.jpg"; "b.jpg"] /\
  extract_images [Some "a.jpg"; Some "b.jpg"] 0 = ["a.jpg"].
Proof.
  split.
  - rewrite (proj1 (extract_images_spec _ 2)) by lia. vm_compute. reflexivity.
  - rewrite (proj2 (extract_images_spec _ 0)) by lia. vm_compute. reflexivity.
Defined.

(** X17. [extract_policies] returns no item twice and no item that lacks
    both title and description; its items are exactly the items with a
    text among the grid blocks and the [details] elements, in the order of
    their first occurrence there: the result is the list of those items,
    grid blocks first, with the first item kept and its later copies
    removed from what follows, and so on down the list. Without a policies
    block it is empty. *)
Theorem extract_policies_spec
    (root : option (list (option ContentItem) * list ContentItem)) :
  NoDup (extract_policies root) /\
  Forall (fun item => has_text item = true) (extract_policies root) /\
  match root with
  | None => extract_policies root = []
  | Some (grid, details) =>
      (forall item, item ∈ extract_policies root <->
                    has_text item = true /\
                    (Some item ∈ grid \/ item ∈ details)) /\
      extract_policies root `sublist_of` omap Datatypes.id grid ++ details /\
      extract_policies root
      = dedupe_items
          (List.filter has_text (omap Datatypes.id grid ++ details))
  end /\
  dedupe_items [] = [] /\
  (forall (item : ContentItem) (items : list ContentItem),
     dedupe_items (item :: items)
     = item :: filter (fun x => x <> item) (dedupe_items items)).
Proof.
  assert (Hhead : dedupe_items [] = [] /\
                  forall (item : ContentItem) (items : list ContentItem),
                    dedupe_items (item :: items)
                    = item :: filter (fun x => x <> item)
                                     (dedupe_items items))
    by (split; [done|apply dedupe_items_cons]).
  destruct root as [[grid details]|];
    [|by repeat split; try constructor; apply Hhead].
  cbn [extract_policies]. rewrite policies_grid_filter, <- List.filter_app.
  set (all := omap Datatypes.id grid ++ details).
  assert (Hin : forall item, item ∈ dedupe_items (List.filter has_text all)
                  <-> has_text item = true /\
                      (Some item ∈ grid \/ item ∈ details)).
  { intros item. rewrite dedupe_items_elem, list_elem_of_In, filter_In.
    rewrite <- list_elem_of_In. unfold all.
    rewrite elem_of_app, list_elem_of_omap.
    split.
    - intros [[(x & Hx & [= ->])|Hd] Ht]; split; tauto.
    - intros [Ht [Hg|Hd]]; (split; [|done]); [left|by right].
      by exists (Some item). }
  split; [apply dedupe_items_NoDup|].
  split; [|split; [split; [done|split; [|done]]|exact Hhead]].
  - apply Forall_forall. intros item Hitem. by apply Hin in Hitem as [? _].
  - etrans; [apply dedupe_items_sublist|].
    clear Hin. induction all as [|x all IH]; [done|]. cbn [List.filter].
    destruct (has_text x); [by apply sublist_skip|by apply sublist_cons].
Qed.

(** X18. [extract_content_items_from_section] returns the items of the
    section followed by those of the dialog, each key (title, description)
    once, at the place of its first occurrence; when no key occurs twice
    nothing is dropped. *)
Theorem content_items_deduped (items modal_items : list ContentItem) :
  let r := extract_content_items_from_section items modal_items in
  NoDup r /\
  (forall x, x ∈ r <-> x ∈ items \/ x ∈ modal_items) /\
  r `sublist_of` items ++ modal_items /\
  r = dedupe_items items
      ++ filter (fun x => x ∉ items) (dedupe_items modal_items) /\
  (NoDup (items ++ modal_items) -> r = items ++ modal_items).
Proof.
  unfold extract_content_items_from_section. cbv zeta.
  split; [apply dedupe_items_NoDup|].
  split; [intros x; by rewrite dedupe_items_elem, elem_of_app|].
  split; [apply dedupe_items_sublist|].
  split; [|apply dedupe_items_NoDup_id].
  induction items as [|item items IH]; cbn [app].
  - change (dedupe_items []) with (@nil ContentItem). cbn [app].
    symmetry. apply list_filter_True. intros x _. apply not_elem_of_nil.
  - rewrite !dedupe_items_cons, IH.
    rewrite filter_app, list_filter_filter. cbn [app]. do 2 f_equal.
    apply list_filter_iff. intros x. rewrite not_elem_of_cons. tauto.
Qed.

(** Two rooms, one of them listed again in the dialog. *)
Lemma content_items_deduped_witness :
  extract_content_items_from_section
    [(Some "Bedroom 1", Some "1 King Bed")]
    [(Some "Bedroom 2", Some "2 Twin Beds")]
  = [(Some "Bedroom 1", Some "1 King Bed");
     (Some "Bedroom 2", Some "2 Twin Beds")].
Proof.
  apply (content_items_deduped [(Some "Bedroom 1", Some "1 King Bed")]
           [(Some "Bedroom 2", Some "2 Twin Beds")]).
  apply (bool_decide_unpack _). vm_compute. exact I.
Defined.

(** X19. [extract_amenities] returns the popular amenities as read, that
    is the non-empty texts of the popular block, all of them, in their
    order, repeated when a text is repeated, and a
    combined list without repetition that starts with the distinct popular
    amenities, in their order, and goes on with the amenities of the
    dialog that are not popular ones: every popular amenity is in the
    combined list, before every amenity that only the dialog shows. *)
Theorem extract_amenities_spec (texts : list (option string))
    (more : list string) :
  let r := extract_amenities texts more in
  r.2 = unique_list texts
        ++ filter (fun x => x ∉ unique_list texts)
                  (unique_list (map Some more)) /\
  NoDup r.2 /\
  map Some r.1 = List.filter truthy texts /\
  (forall s, s ∈ r.1 <-> Some s ∈ texts /\ nonempty s = true) /\
  (forall s, s ∈ r.1 -> s ∈ r.2) /\
  (forall s, s ∈ r.2 <-> nonempty s = true /\ (s ∈ r.1 \/ s ∈ more)).
Proof.
  unfold extract_amenities. cbv zeta. cbn [fst snd].
  set (popular := flat_map _ texts).
  assert (Hpop : forall s, s ∈ popular <-> Some s ∈ texts /\ nonempty s = true).
  { intros s. unfold popular. rewrite list_elem_of_In, in_flat_map. split.
    - intros (txt & Htxt & Hs). apply list_elem_of_In in Htxt.
      destruct txt as [x|]; [|done]. cbn [truthy] in Hs.
      destruct (nonempty x) eqn:Hx; [|done].
      cbn [default from_option] in Hs. destruct Hs as [<-|[]]. by split.
    - intros [Hin Hs]. exists (Some s). split; [by apply list_elem_of_In|].
      cbn [truthy]. rewrite Hs. by left. }
  assert (Hall : forall s, s ∈ unique_list (map Some (popular ++ more))
                   <-> nonempty s = true /\ (s ∈ popular \/ s ∈ more)).
  { intros s. rewrite unique_list_elem. split.
    - intros [Hin Hs]. split; [done|].
      apply list_elem_of_fmap in Hin as (x & [= ->] & Hx).
      by apply elem_of_app.
    - intros [Hs Hin]. split; [|done]. apply list_elem_of_fmap.
      exists s. split; [done|]. by apply elem_of_app. }
  split; [|split; [apply unique_list_NoDup|
                   split; [apply popular_as_read|split; [done|split; [|done]]]]].
  - rewrite map_app, unique_list_app. unfold popular.
    by rewrite unique_list_truthy.
  - intros s Hs. apply Hall. split; [by apply Hpop in Hs as [_ ?]|by left].
Qed.

(** Two popular amenities, one of them found again in the dialog. *)
Lemma extract_amenities_spec_witness :
  "Pool" ∈ (extract_amenities [Some "Pool"; None; Some "Wifi"; Some "Pool"]
                              ["Wifi"; "Kitchen"]).2 /\
  map Some (extract_amenities [Some "Pool"; None; Some "Wifi"; Some "Pool"]
                              ["Wifi"; "Kitchen"]).1
  = [Some "Pool"; Some "Wifi"; Some "Pool"].
Proof.
  destruct (extract_amenities_spec [Some "Pool"; None; Some "Wifi"; Some "Pool"]
              ["Wifi"; "Kitchen"]) as (_ & _ & Hpop & _ & Hin & _).
  split.
  - apply Hin. apply (bool_decide_unpack _). vm_compute. exact I.
  - rewrite Hpop. reflexivity.
Defined.

(** X20. [click_next] goes through the elements of all selectors in order
    and calls [click] only on elements that are displayed, not marked
    disabled and enabled; it stops at the first click that goes through, so
    at most one does, and answers whether one did. When it answers no,
    every such element has been clicked and every click has raised. *)
Theorem click_next_first_success (selectors : list (list NextElem)) :
  let r := click_next selectors in
  r = click_elems (concat selectors) /\
  r.2 `prefix_of` List.filter clickable (concat selectors) /\
  Forall (fun e => clickable e = true) r.2 /\
  r.1 = existsb (fun e => clickable e && negb (click_raises e))
                (concat selectors) /\
  (r.1 = false -> r.2 = List.filter clickable (concat selectors)) /\
  length (List.filter (fun e => negb (click_raises e)) r.2)
  = (if r.1 then 1 else 0)%nat.
Proof.
  cbv zeta. rewrite click_next_flat. split; [done|].
  apply click_elems_spec.
Qed.

(** A hidden control, one whose click raises, and one that works. *)
Lemma click_next_first_success_witness :
  (click_next [[mkNextElem false false true false];
               [];
               [mkNextElem true false true true;
                mkNextElem true false true false;
                mkNextElem true false true false]]).2
  = [mkNextElem true false true true; mkNextElem true false true false].
Proof.
  rewrite (proj1 (click_next_first_success _)). vm_compute. reflexivity.
Defined.

(** X21. The window branch of [scroll_page] comes to an end when the page
    stops growing: if the document height never passes [M], the loop ends
    within [M / 800] turns (rounded up); it scrolls to 800, 1600, ... and
    stops at the first position that has reached the height read after
    the scroll to it. *)
Theorem scroll_window_stops (heights : nat -> Z) (M : Z) (fuel : nat) :
  (forall j, heights j <= M) -> M <= 800 * Z.of_nat fuel ->
  exists tr,
    scroll_window fuel heights 0 0 = Some tr /\
    tr = map (fun i => 800 * (Z.of_nat i + 1)) (seq 0 (length tr)) /\
    heights (length tr) <= 800 * Z.of_nat (length tr) /\
    (forall j, (j < length tr)%nat -> 800 * Z.of_nat j < heights j) /\
    (length tr <= fuel)%nat.
Proof.
  intros HM Hfuel.
  destruct (scroll_window_spec fuel heights M 0 HM) as (tr & Hrun & Htr & Hend & Hall);
    [lia|].
  exists tr. cbn [Z.of_nat Z.mul] in Hrun. rewrite Z.mul_0_r in Hrun.
  cbn [Nat.add] in Hend. repeat split; [done..| |].
  - intros j Hj. apply Hall. lia.
  - destruct (decide (length tr = O)) as [->|Hne]; [lia|].
    assert (Hlast : 800 * Z.of_nat (length tr - 1) < heights (length tr - 1)%nat)
      by (apply Hall; lia).
    pose proof (HM (length tr - 1)%nat). lia.
Qed.

(** A page of height 2000 that does not grow: three scrolls. *)
Lemma scroll_window_stops_witness :
  scroll_window 3 (fun _ => 2000) 0 0 = Some [800; 1600; 2400].
Proof.
  destruct (scroll_window_stops (fun _ => 2000) 2000 3)
    as (tr & Hrun & _); [lia..|].
  rewrite Hrun. vm_compute in Hrun. exact (eq_sym Hrun).
Defined.

(** X22. [start_driver] launches Chrome at most twice and its recursion
    always ends: a second launch happens exactly when the first one, on
    the saved profile, raised SessionNotCreatedException, and it uses a
    temporary profile; so that exception only ever leaves [start_driver]
    from a launch on a temporary profile, and any other exception leaves
    it at once. *)
Theorem start_driver_retries_once (fuel : nat) (fresh_profile : bool)
    (chrome : nat -> bool -> Launch) (force_fresh : bool) :
  (2 <= fuel)%nat ->
  exists out,
    start_driver fuel fresh_profile chrome 0 force_fresh = Some out /\
    match out with
    | DriverReady n temporary =>
        chrome n temporary = Started /\
        (n = 0%nat /\ temporary = fresh_profile || force_fresh \/
         n = 1%nat /\ temporary = true /\ fresh_profile || force_fresh = false /\
         chrome 0%nat false = SessionNotCreated)
    | StartRaises n l =>
        l <> Started /\
        (n = 0%nat /\ chrome 0%nat (fresh_profile || force_fresh) = l /\
         (l = SessionNotCreated -> fresh_profile || force_fresh = true) \/
         n = 1%nat /\ chrome 1%nat true = l /\
         fresh_profile || force_fresh = false /\
         chrome 0%nat false = SessionNotCreated)
    end.
Proof.
  intros Hfuel. destruct fuel as [|[|fuel]]; [lia..|].
  cbn [start_driver]. rewrite orb_true_l, orb_true_r.
  destruct fresh_profile, force_fresh; cbn [orb];
    destruct (chrome 0%nat _) eqn:H0; try (eexists; split; [done|]; cbn;
      repeat split; try done; left; repeat split; done).
  destruct (chrome 1%nat true) eqn:H1; eexists; (split; [done|]); cbn;
    (split; [done|]); right; repeat split; done.
Qed.

(** A saved profile that Chrome refuses, then a temporary one. *)
Lemma start_driver_retries_once_witness :
  start_driver 2 false
    (fun n _ => match n with O => SessionNotCreated | _ => Started end)
    0 false
  = Some (DriverReady 1 true).
Proof.
  destruct (start_driver_retries_once 2 false
              (fun n _ => match n with O => SessionNotCreated | _ => Started end)
              false) as (out & Hrun & _); [lia|].
  rewrite Hrun. vm_compute in Hrun. exact (eq_sym Hrun).
Defined.
